(** * MM-Flow: undo/redo history of the flowchart editor

    The repository holds two editors.  The first (the [App] component that
    keeps [historyRef] and [redoRef]) is a two-stack undo/redo; the second
    ([src/App.tsx], with [history], [historyIndex] and [skipHistoryRef]) is a
    single array of snapshots with a cursor.  Both are embedded below, each
    in its own module, with every event handler written as a function on
    the component state.  One handler runs to completion and the component
    re-renders before the next event is delivered, so the values that a
    handler handed over at every render closes over are the values of the
    state it is applied to.  The label callback of [src/App.tsx] is kept in
    the nodes instead, and runs with the values of the render that stored
    it; and every updater function given to a state setter is taken to run
    once, as React runs it outside the double invocation that
    [React.StrictMode] adds in a development build. *)

From Stdlib Require Import String Ascii DecimalString.
From Stdlib Require Import List ZArith NArith Lia Bool.
From Stdlib Require DecimalPos DecimalZ.
Import ListNotations.


(* ------------------------------------------------------------------ *)
(** ** JavaScript values used by the handlers *)

Module Js.

(** A JavaScript string is a sequence of UTF-16 code units. *)
Definition jsstring := list N.

(** Numbers are only stored and copied by the handlers (positions, sizes,
    a stroke width); none of them is computed with.  They are kept as
    integers, which, like every finite number, JSON serialisation returns
    unchanged. *)
Definition number := Z.

(** String literal of the source, code unit by code unit. *)
Definition lit (s : string) : jsstring :=
  map N_of_ascii (list_ascii_of_string s).

(** [a === b] on strings. *)
Fixpoint streq (a b : jsstring) : bool :=
  match a, b with
  | [], [] => true
  | c :: a', d :: b' => N.eqb c d && streq a' b'
  | _, _ => false
  end.

(** Template-literal rendering of an integer, as in [`${Date.now()}`]. *)
Definition showNumber (z : Z) : jsstring :=
  lit (NilZero.string_of_int (Z.to_int z)).

(** Template-literal rendering of a [string | null] value. *)
Definition showNullable (o : option jsstring) : jsstring :=
  match o with
  | Some s => s
  | None => lit "null"
  end.

(** [WhiteSpace] and [LineTerminator] code points of ECMAScript, the
    characters removed by [String.prototype.trim]. *)
Definition isWhiteSpace (c : N) : bool :=
  (  N.eqb c 9     (* TAB *)
  || N.eqb c 10    (* LF *)
  || N.eqb c 11    (* VT *)
  || N.eqb c 12    (* FF *)
  || N.eqb c 13    (* CR *)
  || N.eqb c 32    (* SP *)
  || N.eqb c 160   (* NBSP *)
  || N.eqb c 5760  (* U+1680 *)
  || (N.leb 8192 c && N.leb c 8202)  (* U+2000 .. U+200A *)
  || N.eqb c 8232  (* U+2028 LS *)
  || N.eqb c 8233  (* U+2029 PS *)
  || N.eqb c 8239  (* U+202F *)
  || N.eqb c 8287  (* U+205F *)
  || N.eqb c 12288 (* U+3000 *)
  || N.eqb c 65279 (* U+FEFF *))%bool.

Fixpoint trimStart (s : jsstring) : jsstring :=
  match s with
  | [] => []
  | c :: r => if isWhiteSpace c then trimStart r else s
  end.

Definition trimEnd (s : jsstring) : jsstring := rev (trimStart (rev s)).

(** [s.trim()] *)
Definition trim (s : jsstring) : jsstring := trimEnd (trimStart s).

(** The string begins, or ends, with a character that [trim] removes. *)
Definition startsWithWhiteSpace (s : jsstring) : bool :=
  match s with
  | [] => false
  | c :: _ => isWhiteSpace c
  end.

Definition endsWithWhiteSpace (s : jsstring) : bool :=
  startsWithWhiteSpace (rev s).

(** [a.push(v)]: the array with [v] appended. *)
Definition push {A} (a : list A) (v : A) : list A := a ++ [v].

(** [a.pop()]: the removed last element ([None] is [undefined], on the
    empty array) and the array that remains. *)
Definition pop {A} (a : list A) : option A * list A :=
  match rev a with
  | [] => (None, [])
  | v :: r => (Some v, rev r)
  end.

(** [a.slice(0, n)] for a non-negative [n]. *)
Definition slice0 {A} (a : list A) (n : nat) : list A := firstn n a.

(** [a[i]]; [None] is [undefined]. *)
Definition at_ {A} (a : list A) (i : nat) : option A := nth_error a i.

Fixpoint iter {A} (n : nat) (f : A -> A) (a : A) : A :=
  match n with
  | O => a
  | S k => iter k f (f a)
  end.

End Js.

(* ------------------------------------------------------------------ *)
(** ** The two-stack editor ([historyRef] / [redoRef]) *)

Module TwoStack.
Import Js.

Record XYPosition := { x : number; y : number }.

Inductive Shape := rectangle | circle | diamond.

Record NodeData := { label : jsstring; shape : Shape }.

Record Node := {
  id : jsstring;
  type : jsstring;
  position : XYPosition;
  data : NodeData;
  width : option number;
  height : option number;
  selected : option bool
}.

Inductive MarkerType := Arrow | ArrowClosed.

Record EdgeMarker := { marker_type : MarkerType; marker_color : jsstring }.

Record EdgeStyle := { stroke : jsstring; strokeWidth : number }.

Record Edge := {
  edge_id : jsstring;
  source : option jsstring;
  sourceHandle : option jsstring;
  target : option jsstring;
  targetHandle : option jsstring;
  edge_type : jsstring;
  markerEnd : EdgeMarker;
  style : EdgeStyle;
  edge_selected : option bool
}.

(** The [Connection] handed to [onConnect]; its members are
    [string | null]. *)
Record Connection := {
  conn_source : option jsstring;
  conn_sourceHandle : option jsstring;
  conn_target : option jsstring;
  conn_targetHandle : option jsstring
}.

(** One element of [historyRef.current] or [redoRef.current]. *)
Record Snapshot := { snap_nodes : list Node; snap_edges : list Edge }.

Record State := {
  nodes : list Node;
  edges : list Edge;
  historyRef : list Snapshot;
  redoRef : list Snapshot
}.

(** [useState([])], [useRef([])] *)
Definition init : State :=
  {| nodes := []; edges := []; historyRef := []; redoRef := [] |}.

(** [JSON.parse(JSON.stringify(v))]: the value is rebuilt member by
    member; every member of a node and of an edge is JSON data. *)
Definition jsonPosition (p : XYPosition) : XYPosition :=
  {| x := x p; y := y p |}.

Definition jsonData (d : NodeData) : NodeData :=
  {| label := label d; shape := shape d |}.

Definition jsonNode (n : Node) : Node :=
  {| id := id n; type := type n; position := jsonPosition (position n);
     data := jsonData (data n); width := width n; height := height n;
     selected := selected n |}.

Definition jsonMarker (m : EdgeMarker) : EdgeMarker :=
  {| marker_type := marker_type m; marker_color := marker_color m |}.

Definition jsonStyle (st : EdgeStyle) : EdgeStyle :=
  {| stroke := stroke st; strokeWidth := strokeWidth st |}.

Definition jsonEdge (e : Edge) : Edge :=
  {| edge_id := edge_id e; source := source e;
     sourceHandle := sourceHandle e; target := target e;
     targetHandle := targetHandle e; edge_type := edge_type e;
     markerEnd := jsonMarker (markerEnd e); style := jsonStyle (style e);
     edge_selected := edge_selected e |}.

Definition jsonCopy (ns : list Node) (es : list Edge) : Snapshot :=
  {| snap_nodes := map jsonNode ns; snap_edges := map jsonEdge es |}.

(** [pushToHistory] *)
Definition pushToHistory (s : State) : State :=
  {| nodes := nodes s;
     edges := edges s;
     historyRef := push (historyRef s) (jsonCopy (nodes s) (edges s));
     redoRef := [] |}.

(** [handleUndo] *)
Definition handleUndo (s : State) : State :=
  match pop (historyRef s) with
  | (Some last, rest) =>
      {| nodes := snap_nodes last;
         edges := snap_edges last;
         historyRef := rest;
         redoRef := push (redoRef s)
                      {| snap_nodes := nodes s; snap_edges := edges s |} |}
  | (None, rest) =>
      {| nodes := nodes s; edges := edges s;
         historyRef := rest; redoRef := redoRef s |}
  end.

(** [handleRedo] *)
Definition handleRedo (s : State) : State :=
  match pop (redoRef s) with
  | (Some next, rest) =>
      {| nodes := snap_nodes next;
         edges := snap_edges next;
         historyRef := push (historyRef s)
                         {| snap_nodes := nodes s; snap_edges := edges s |};
         redoRef := rest |}
  | (None, rest) =>
      {| nodes := nodes s; edges := edges s;
         historyRef := historyRef s; redoRef := rest |}
  end.

Definition setNodes (f : list Node -> list Node) (s : State) : State :=
  {| nodes := f (nodes s); edges := edges s;
     historyRef := historyRef s; redoRef := redoRef s |}.

Definition setEdges (f : list Edge -> list Edge) (s : State) : State :=
  {| nodes := nodes s; edges := f (edges s);
     historyRef := historyRef s; redoRef := redoRef s |}.

(** The edge built by [onConnect]; [uuid] is the value of [uuidv4()]. *)
Definition newEdge (connection : Connection) (uuid : jsstring) : Edge :=
  {| edge_id := uuid;
     source := conn_source connection;
     sourceHandle := conn_sourceHandle connection;
     target := conn_target connection;
     targetHandle := conn_targetHandle connection;
     edge_type := lit "default";
     markerEnd := {| marker_type := ArrowClosed;
                     marker_color := lit "#003366" |};
     style := {| stroke := lit "#003366"; strokeWidth := 2%Z |};
     edge_selected := None |}.

(** [onConnect] *)
Definition onConnect (connection : Connection) (uuid : jsstring)
    (s : State) : State :=
  setEdges (fun eds => eds ++ [newEdge connection uuid]) (pushToHistory s).

Definition shapeName (sh : Shape) : jsstring :=
  match sh with
  | rectangle => lit "rectangle"
  | circle => lit "circle"
  | diamond => lit "diamond"
  end.

(** [c.toUpperCase()] on one code unit of the shape names (ASCII). *)
Definition toUpperCase (c : N) : N :=
  if (N.leb 97 c && N.leb c 122)%bool then (c - 32)%N else c.

(** [shape.charAt(0).toUpperCase() + shape.slice(1)] *)
Definition capitalised (s : jsstring) : jsstring :=
  match s with
  | [] => []
  | c :: r => toUpperCase c :: r
  end.

(** The node built by [createNode]; [uuid] is the value of [uuidv4()]
    and [pos] the value of [randomPosition()]. *)
Definition newNode (sh : Shape) (uuid : jsstring) (pos : XYPosition)
    : Node :=
  {| id := uuid;
     type := lit "custom";
     position := pos;
     data := {| label := capitalised (shapeName sh); shape := sh |};
     width := None; height := None; selected := None |}.

(** [createNode] *)
Definition createNode (sh : Shape) (uuid : jsstring) (pos : XYPosition)
    (s : State) : State :=
  setNodes (fun nds => nds ++ [newNode sh uuid pos]) (pushToHistory s).

(** [{ ...node, data: { ...node.data, label } }] *)
Definition withLabel (l : jsstring) (node : Node) : Node :=
  {| id := id node; type := type node; position := position node;
     data := {| label := l; shape := shape (data node) |};
     width := width node; height := height node;
     selected := selected node |}.

Definition relabel (i l : jsstring) (nds : list Node) : list Node :=
  map (fun node => if streq (id node) i then withLabel l node else node)
      nds.

(** [onNodeLabelChange] *)
Definition onNodeLabelChange (i l : jsstring) (s : State) : State :=
  setNodes (relabel i l) (pushToHistory s).

(** [applyNodeChanges] and [applyEdgeChanges] are functions of the
    diagram library, not of this repository; the handlers are stated for
    any pair of them. *)
Class ChangeLib := {
  NodeChange : Type;
  EdgeChange : Type;
  applyNodeChanges : list NodeChange -> list Node -> list Node;
  applyEdgeChanges : list EdgeChange -> list Edge -> list Edge
}.

Section Handlers.
Context {L : ChangeLib}.

(** [onNodesChange] *)
Definition onNodesChange (changes : list NodeChange) (s : State)
    : State :=
  setNodes (fun nds => applyNodeChanges changes nds) (pushToHistory s).

(** [onEdgesChange] *)
Definition onEdgesChange (changes : list EdgeChange) (s : State)
    : State :=
  setEdges (fun eds => applyEdgeChanges changes eds) (pushToHistory s).

(** The events the component receives from the canvas and the
    toolbar. *)
Inductive Mutation :=
| NodesChange (changes : list NodeChange)
| EdgesChange (changes : list EdgeChange)
| Connect (connection : Connection) (uuid : jsstring)
| CreateNode (sh : Shape) (uuid : jsstring) (pos : XYPosition)
| NodeLabelChange (i l : jsstring).

Inductive Event :=
| Mutate (m : Mutation)
| Undo
| Redo.

Definition mutate (m : Mutation) (s : State) : State :=
  match m with
  | NodesChange changes => onNodesChange changes s
  | EdgesChange changes => onEdgesChange changes s
  | Connect connection uuid => onConnect connection uuid s
  | CreateNode sh uuid pos => createNode sh uuid pos s
  | NodeLabelChange i l => onNodeLabelChange i l s
  end.

Definition handle (e : Event) (s : State) : State :=
  match e with
  | Mutate m => mutate m s
  | Undo => handleUndo s
  | Redo => handleRedo s
  end.

(** The events are handled one after the other. *)
Definition run (es : list Event) (s : State) : State :=
  fold_left (fun st e => handle e st) es s.

End Handlers.

(** An id names a node of the diagram ([null] names none). *)
Definition nodeExists (i : option jsstring) (ns : list Node) : bool :=
  match i with
  | Some j => existsb (fun n => streq (id n) j) ns
  | None => false
  end.

(** [m] is [n] with the label [l] and every other member as it was. *)
Definition relabelled (l : jsstring) (n m : Node) : Prop :=
  label (data m) = l
  /\ id m = id n /\ type m = type n /\ position m = position n
  /\ shape (data m) = shape (data n)
  /\ width m = width n /\ height m = height n /\ selected m = selected n.

End TwoStack.


(* ------------------------------------------------------------------ *)
(** ** The cursor editor ([history] / [historyIndex] / [skipHistoryRef]) *)

Module Cursor.
Import Js.

Record XYPosition := { x : number; y : number }.

(** [data] of a node: the label and the [onChangeLabel] callback.  The
    callback is a function of the component; only its presence is data. *)
Record NodeData := { label : jsstring; onChangeLabel : bool }.

Record Node := {
  id : jsstring;
  type : jsstring;
  position : XYPosition;
  data : NodeData;
  width : option number;
  height : option number;
  selected : option bool
}.

Inductive MarkerType := Arrow | ArrowClosed.

Record EdgeMarker := { marker_type : MarkerType; marker_color : jsstring }.

Record EdgeStyle := { stroke : jsstring; strokeWidth : number }.

Record Edge := {
  edge_id : jsstring;
  source : option jsstring;
  sourceHandle : option jsstring;
  target : option jsstring;
  targetHandle : option jsstring;
  edge_type : jsstring;
  markerEnd : EdgeMarker;
  style : EdgeStyle;
  edge_selected : option bool
}.

(** [params] of [onConnect]. *)
Record Connection := {
  conn_source : option jsstring;
  conn_sourceHandle : option jsstring;
  conn_target : option jsstring;
  conn_targetHandle : option jsstring
}.

(** [interface HistoryEntry] *)
Record HistoryEntry := { entry_nodes : list Node; entry_edges : list Edge }.

Record State := {
  nodes : list Node;
  edges : list Edge;
  history : list HistoryEntry;
  historyIndex : nat;
  skipHistoryRef : bool
}.

(** [useState([{ nodes: [], edges: [] }])], [useState(0)],
    [useRef(false)] *)
Definition init : State :=
  {| nodes := []; edges := [];
     history := [ {| entry_nodes := []; entry_edges := [] |} ];
     historyIndex := 0;
     skipHistoryRef := false |}.

(** [JSON.parse(JSON.stringify(v))]: rebuilt member by member;
    [JSON.stringify] leaves out a member whose value is a function, so the
    copy of a node carries no [onChangeLabel]. *)
Definition jsonPosition (p : XYPosition) : XYPosition :=
  {| x := x p; y := y p |}.

Definition jsonData (d : NodeData) : NodeData :=
  {| label := label d; onChangeLabel := false |}.

Definition jsonNode (n : Node) : Node :=
  {| id := id n; type := type n; position := jsonPosition (position n);
     data := jsonData (data n); width := width n; height := height n;
     selected := selected n |}.

Definition jsonMarker (m : EdgeMarker) : EdgeMarker :=
  {| marker_type := marker_type m; marker_color := marker_color m |}.

Definition jsonStyle (st : EdgeStyle) : EdgeStyle :=
  {| stroke := stroke st; strokeWidth := strokeWidth st |}.

Definition jsonEdge (e : Edge) : Edge :=
  {| edge_id := edge_id e; source := source e;
     sourceHandle := sourceHandle e; target := target e;
     targetHandle := targetHandle e; edge_type := edge_type e;
     markerEnd := jsonMarker (markerEnd e); style := jsonStyle (style e);
     edge_selected := edge_selected e |}.

Definition jsonCopy (ns : list Node) (es : list Edge) : HistoryEntry :=
  {| entry_nodes := map jsonNode ns; entry_edges := map jsonEdge es |}.

(** [{ ...n, data: { ...n.data, onChangeLabel: handleLabelChange } }] *)
Definition withCallback (n : Node) : Node :=
  {| id := id n; type := type n; position := position n;
     data := {| label := label (data n); onChangeLabel := true |};
     width := width n; height := height n; selected := selected n |}.

(** [pushHistory] *)
Definition pushHistory (newNodes : list Node) (newEdges : list Edge)
    (s : State) : State :=
  if skipHistoryRef s then s
  else
    let historyPrefix := slice0 (history s) (historyIndex s + 1) in
    {| nodes := nodes s;
       edges := edges s;
       history := historyPrefix ++ [jsonCopy newNodes newEdges];
       historyIndex := historyIndex s + 1;
       skipHistoryRef := skipHistoryRef s |}.

Definition setNodes (v : list Node) (s : State) : State :=
  {| nodes := v; edges := edges s; history := history s;
     historyIndex := historyIndex s; skipHistoryRef := skipHistoryRef s |}.

Definition setEdges (v : list Edge) (s : State) : State :=
  {| nodes := nodes s; edges := v; history := history s;
     historyIndex := historyIndex s; skipHistoryRef := skipHistoryRef s |}.

Definition setHistoryIndex (i : nat) (s : State) : State :=
  {| nodes := nodes s; edges := edges s; history := history s;
     historyIndex := i; skipHistoryRef := skipHistoryRef s |}.

Definition setSkip (b : bool) (s : State) : State :=
  {| nodes := nodes s; edges := edges s; history := history s;
     historyIndex := historyIndex s; skipHistoryRef := b |}.

(** [{ ...n, data: { ...n.data, label: value, onChangeLabel } }] *)
Definition withLabel (value : jsstring) (n : Node) : Node :=
  {| id := id n; type := type n; position := position n;
     data := {| label := value; onChangeLabel := true |};
     width := width n; height := height n; selected := selected n |}.

Definition relabel (i value : jsstring) (nds : list Node) : list Node :=
  map (fun n => if streq (id n) i then withLabel value n else n) nds.

(** [handleLabelChange], as the render of state [s] makes it. *)
Definition handleLabelChange (i value : jsstring) (s : State) : State :=
  let updatedNodes := relabel i value (nodes s) in
  setNodes updatedNodes (pushHistory updatedNodes (edges s) s).

(** The label callback as the nodes hold it.

    [onNodesChange], [onEdgesChange], [onConnect], [onDrop], [undo] and
    [redo] are handed to the canvas and the toolbar anew at every render,
    and their dependency lists name all they read: they run on the
    current state.  [handleLabelChange] is reached another way: through
    [data.onChangeLabel], the function object that [onDrop], [undo],
    [redo], [loadDiagram] or [handleLabelChange] itself stored in the node.
    That function belongs to the render in which it was stored; it has
    closed over [edges] and over [pushHistory], which has closed over
    [historyIndex].  [nodes], [history] and the cursor to be incremented
    come from the updater arguments, [skipHistoryRef.current] is read at
    the call: these are current. *)
Module InNode.

Record Closure := {
  closed_edges : list Edge;
  closed_historyIndex : nat
}.

(** What the functions made by the render of state [s] have closed
    over. *)
Definition closureOf (s : State) : Closure :=
  {| closed_edges := edges s;
     closed_historyIndex := historyIndex s |}.

(** [pushHistory] of a render in which [historyIndex] was [seen], called
    in state [s]. *)
Definition pushHistory (seen : nat) (newNodes : list Node)
    (newEdges : list Edge) (s : State) : State :=
  if skipHistoryRef s then s
  else
    let historyPrefix := slice0 (history s) (seen + 1) in
    {| nodes := nodes s;
       edges := edges s;
       history := historyPrefix ++ [jsonCopy newNodes newEdges];
       historyIndex := historyIndex s + 1;
       skipHistoryRef := skipHistoryRef s |}.

(** [handleLabelChange] of a render with closure [c], called in state
    [s]. *)
Definition handleLabelChange (c : Closure) (i value : jsstring)
    (s : State) : State :=
  let updatedNodes := relabel i value (nodes s) in
  setNodes updatedNodes
    (pushHistory (closed_historyIndex c) updatedNodes (closed_edges c) s).

End InNode.

(** What [onDrop] reads from the drop event: [drop_type] is the [type]
    member of the drag data ([None] when the data is empty or has none),
    [canvas_ready] tells that the canvas bounds and the flow instance are
    there, [drop_position] is the projected position and [drop_now] the
    value of [Date.now()]. *)
Record DropEvent := {
  drop_type : option jsstring;
  canvas_ready : bool;
  drop_position : XYPosition;
  drop_now : Z
}.

(** The type under which [onDrop] goes on; the empty string is falsy. *)
Definition droppedType (ev : DropEvent) : option jsstring :=
  match drop_type ev with
  | Some (c :: t) => if canvas_ready ev then Some (c :: t) else None
  | _ => None
  end.

Definition droppedNode (ty : jsstring) (ev : DropEvent) : Node :=
  {| id := lit "node_" ++ showNumber (drop_now ev);
     type := ty;
     position := drop_position ev;
     data := {| label := []; onChangeLabel := true |};
     width := None; height := None; selected := None |}.

(** [onDrop] *)
Definition onDrop (ev : DropEvent) (s : State) : State :=
  match droppedType ev with
  | None => s
  | Some ty =>
      let newNode := droppedNode ty ev in
      pushHistory (nodes s ++ [newNode]) (edges s)
        (setNodes (nodes s ++ [newNode]) s)
  end.

(** [undo].  Reading [state.nodes] of an entry that is not there raises a
    [TypeError] after the flag was set; the handler ends there. *)
Definition undo (s : State) : State :=
  if (0 <? Z.of_nat (historyIndex s))%Z then
    let newIndex := historyIndex s - 1 in
    match at_ (history s) newIndex with
    | Some state =>
        {| nodes := map withCallback (entry_nodes state);
           edges := entry_edges state;
           history := history s;
           historyIndex := newIndex;
           skipHistoryRef := true |}
    | None => setSkip true s
    end
  else s.

(** [redo] *)
Definition redo (s : State) : State :=
  if (Z.of_nat (historyIndex s) <? Z.of_nat (length (history s)) - 1)%Z then
    let newIndex := historyIndex s + 1 in
    match at_ (history s) newIndex with
    | Some state =>
        {| nodes := map withCallback (entry_nodes state);
           edges := entry_edges state;
           history := history s;
           historyIndex := newIndex;
           skipHistoryRef := true |}
    | None => setSkip true s
    end
  else s.

(** The callback given to [setTimeout] by [undo], [redo] and
    [loadDiagram]. *)
Definition reenableHistory (s : State) : State := setSkip false s.

(** A truthy [nodes] member on which [parsed.nodes.map(...)] throws a
    [TypeError]: a value that is no array and so has no [map] (a number, a
    string, [true], an object), or an array that holds [null], whose
    [data] the callback of [map] reads. *)
Inductive Unmappable :=
| NotAnArray
| HoldsNull.

(** What [loadDiagram] gets from [JSON.parse]: a [SyntaxError]
    ([Unparseable]); the value [null], whose [nodes] cannot be read
    ([ParsedNull]); a value whose [nodes] and [edges] members are arrays
    of nodes and of edges, or are falsy or missing ([None]); or a value
    whose two members are truthy and whose [nodes] member makes [map]
    throw ([Throwing]).  The values that are left, with an [edges] member
    that is truthy and no array of edges, or with elements of [nodes] that
    are not [null] and no nodes either, give no diagram of the types
    above. *)
Inductive FileContent :=
| Unparseable
| Parsed (nodes_member : option (list Node))
         (edges_member : option (list Edge))
| ParsedNull
| Throwing (nodes_member : Unmappable).

(** [loadDiagram], the body of [reader.onload].  [skipHistoryRef.current
    = true] is the first statement after the test of the two members; when
    [parsed.nodes.map] throws after it, the [catch] logs the error and
    nothing else: the flag stays set and no timer is asked for. *)
Definition loadDiagram (file : FileContent) (s : State) : State :=
  match file with
  | Unparseable => s
  | ParsedNull => s
  | Parsed (Some parsedNodes) (Some parsedEdges) =>
      let loadedNodes := map withCallback parsedNodes in
      let loadedEdges := parsedEdges in
      {| nodes := loadedNodes;
         edges := loadedEdges;
         history := [jsonCopy loadedNodes loadedEdges];
         historyIndex := 0;
         skipHistoryRef := true |}
  | Parsed _ _ => s
  | Throwing _ => setSkip true s
  end.

(** [applyNodeChanges], [applyEdgeChanges] and [addEdge] are functions of
    the diagram library, not of this repository; the handlers are stated
    for any such functions. *)
Class ChangeLib := {
  NodeChange : Type;
  EdgeChange : Type;
  applyNodeChanges : list NodeChange -> list Node -> list Node;
  applyEdgeChanges : list EdgeChange -> list Edge -> list Edge;
  addEdge : Edge -> list Edge -> list Edge
}.

(** The edge built by [onConnect]; [now] is the value of [Date.now()]. *)
Definition newEdge (params : Connection) (now : Z) : Edge :=
  {| edge_id := showNullable (conn_source params) ++ lit "-"
                ++ showNullable (conn_target params) ++ lit "-"
                ++ showNumber now;
     source := conn_source params;
     sourceHandle := conn_sourceHandle params;
     target := conn_target params;
     targetHandle := conn_targetHandle params;
     edge_type := lit "default";
     markerEnd := {| marker_type := ArrowClosed;
                     marker_color := lit "#01579B" |};
     style := {| stroke := lit "#01579B"; strokeWidth := 2%Z |};
     edge_selected := None |}.

Section Handlers.
Context {L : ChangeLib}.

(** [onNodesChange] *)
Definition onNodesChange (changes : list NodeChange) (s : State) : State :=
  let updatedNodes := applyNodeChanges changes (nodes s) in
  setNodes updatedNodes (pushHistory updatedNodes (edges s) s).

(** [onEdgesChange] *)
Definition onEdgesChange (changes : list EdgeChange) (s : State) : State :=
  let updatedEdges := applyEdgeChanges changes (edges s) in
  setEdges updatedEdges (pushHistory (nodes s) updatedEdges s).

(** [onConnect] *)
Definition onConnect (params : Connection) (now : Z) (s : State) : State :=
  let updatedEdges := addEdge (newEdge params now) (edges s) in
  setEdges updatedEdges (pushHistory (nodes s) updatedEdges s).

(** The mutations.  A label edit comes with the closure of the callback
    that the edited node holds. *)
Inductive Mutation :=
| NodesChange (changes : list NodeChange)
| EdgesChange (changes : list EdgeChange)
| Connect (params : Connection) (now : Z)
| Drop (ev : DropEvent)
| LabelChange (c : InNode.Closure) (i value : jsstring).

Inductive Event :=
| Mutate (m : Mutation)
| Undo
| Redo
| Load (file : FileContent)
| Timeout.

Definition mutate (m : Mutation) (s : State) : State :=
  match m with
  | NodesChange changes => onNodesChange changes s
  | EdgesChange changes => onEdgesChange changes s
  | Connect params now => onConnect params now s
  | Drop ev => onDrop ev s
  | LabelChange c i value => InNode.handleLabelChange c i value s
  end.

(** The mutations whose handler is a prop of the canvas, made anew at
    every render. *)
Definition fromProps (m : Mutation) : bool :=
  match m with
  | LabelChange _ _ _ => false
  | _ => true
  end.

Definition viaProps (e : Event) : bool :=
  match e with
  | Mutate m => fromProps m
  | _ => true
  end.

(** A drop that returns before [setNodes] changes nothing; every other
    mutation event reaches its state update. *)
Definition takesEffect (m : Mutation) : bool :=
  match m with
  | Drop ev => match droppedType ev with Some _ => true | None => false end
  | _ => true
  end.

Definition handle (e : Event) (s : State) : State :=
  match e with
  | Mutate m => mutate m s
  | Undo => undo s
  | Redo => redo s
  | Load file => loadDiagram file s
  | Timeout => reenableHistory s
  end.

Definition run (es : list Event) (s : State) : State :=
  fold_left (fun st e => handle e st) es s.

End Handlers.

(** The two stacks of the history, read off the array and the cursor: the
    entries undo can still step back to, and the entries redo can still
    step forward to. *)
Definition undoStack (s : State) : list HistoryEntry :=
  firstn (historyIndex s) (history s).

Definition redoStack (s : State) : list HistoryEntry :=
  skipn (S (historyIndex s)) (history s).

(** The entry under the cursor is the copy of the live diagram. *)
Definition inSync (s : State) : Prop :=
  at_ (history s) (historyIndex s) = Some (jsonCopy (nodes s) (edges s)).

(** Every entry is JSON data, as [pushHistory] and [loadDiagram] store
    it. *)
Definition jsonClean (e : HistoryEntry) : Prop :=
  jsonCopy (entry_nodes e) (entry_edges e) = e.

(** Two states show the same diagram and hold the same history.  Nodes
    are compared as JSON data: the callback that [undo], [redo] and
    [loadDiagram] attach again is not part of the diagram. *)
Definition sameEditor (s t : State) : Prop :=
  map jsonNode (nodes s) = map jsonNode (nodes t)
  /\ edges s = edges t
  /\ history s = history t
  /\ historyIndex s = historyIndex t.

(** The states reached by mutations alone: the cursor is on the last
    entry, which is the copy of the live diagram. *)
Definition atTip (s : State) : Prop :=
  skipHistoryRef s = false
  /\ length (history s) = historyIndex s + 1
  /\ inSync s
  /\ Forall jsonClean (history s).

(** An id names a node of the diagram ([null] names none). *)
Definition nodeExists (i : option jsstring) (ns : list Node) : bool :=
  match i with
  | Some j => existsb (fun n => streq (id n) j) ns
  | None => false
  end.

(** [m] is [n] with the label [l], the callback attached, and every other
    member as it was. *)
Definition relabelled (l : jsstring) (n m : Node) : Prop :=
  label (data m) = l
  /\ onChangeLabel (data m) = true
  /\ id m = id n /\ type m = type n /\ position m = position n
  /\ width m = width n /\ height m = height n /\ selected m = selected n.

End Cursor.


(* ------------------------------------------------------------------ *)
(** ** In-place label editing ([BaseShapeNode]) *)

Module BaseShapeNode.
Import Js.

(** The props read by [handleBlur]: [id] and [data], which may be
    missing. *)
Record Props := {
  props_id : jsstring;
  props_data : option Cursor.NodeData
}.

(** What [handleBlur] does: the new value of [editing], and the arguments
    of the call of [data.onChangeLabel], if it is called. *)
Record Blur := {
  editing : bool;
  onChangeLabel_call : option (jsstring * jsstring)
}.

(** [data?.onChangeLabel] is truthy. *)
Definition hasCallback (p : Props) : bool :=
  match props_data p with
  | Some d => Cursor.onChangeLabel d
  | None => false
  end.

(** [handleBlur]; [targetValue] is [e.target.value]. *)
Definition handleBlur (p : Props) (targetValue : jsstring) : Blur :=
  let value := trim targetValue in
  {| editing := false;
     onChangeLabel_call :=
       if hasCallback p then Some (props_id p, value) else None |}.

(** The label edit as the editor sees it: the callback of the node is
    the [handleLabelChange] that was stored in it, whose closure is
    [c]. *)
Definition commitLabel (c : Cursor.InNode.Closure) (p : Props)
    (targetValue : jsstring) (s : Cursor.State) : Cursor.State :=
  match onChangeLabel_call (handleBlur p targetValue) with
  | Some (i, value) => Cursor.InNode.handleLabelChange c i value s
  | None => s
  end.

End BaseShapeNode.

(* ------------------------------------------------------------------ *)
(** ** Arrays as objects

    The handlers above are written on values.  Whether a snapshot shares
    an array with the live diagram is a matter of object identity, so the
    handlers are given a second time over a store of array objects: a
    reference is the index of its array in the store, an array literal, a
    spread, [map], [concat] and [JSON.parse] make a new array, and an
    assignment copies the reference.  The elements of an array stay
    values: no handler writes into a node or an edge. *)

Module Mem.

Definition ref := nat.

Definition store (A : Type) := list (list A).

(** The elements of the array behind a reference. *)
Definition read {A} (h : store A) (r : ref) : list A := nth r h [].

(** A new array object with the given elements. *)
Definition alloc {A} (h : store A) (a : list A) : store A * ref :=
  (h ++ [a], length h).

(** What a library function hands back: the array it was given, or a new
    one. *)
Inductive Returned (A : Type) :=
| SameArray
| NewArray (a : list A).

Arguments SameArray {A}.
Arguments NewArray {A} a.

Definition keep {A} (h : store A) (r : ref) (res : Returned A)
    : store A * ref :=
  match res with
  | SameArray => (h, r)
  | NewArray a => alloc h a
  end.

Definition elements {A} (old : list A) (res : Returned A) : list A :=
  match res with
  | SameArray => old
  | NewArray a => a
  end.

Definition valid {A} (h : store A) (r : ref) : Prop := r < length h.

(** [h'] is [h] with more arrays: every array of [h] is in [h'], under the
    same reference and with the same elements. *)
Definition extends {A} (h h' : store A) : Prop := exists x, h' = h ++ x.

End Mem.

(* ------------------------------------------------------------------ *)
(** ** The two-stack editor over the object store *)

Module TwoStackMem.
Import Js Mem.

Definition Node := TwoStack.Node.

Definition Edge := TwoStack.Edge.

(** [{ nodes, edges }]: two references. *)
Record Snapshot := { snap_nodes : ref; snap_edges : ref }.

Record State := {
  nodeArrays : store Node;
  edgeArrays : store Edge;
  nodes : ref;
  edges : ref;
  historyRef : list Snapshot;
  redoRef : list Snapshot
}.

Definition init : State :=
  {| nodeArrays := [[]]; edgeArrays := [[]];
     nodes := 0; edges := 0; historyRef := []; redoRef := [] |}.

(** [pushToHistory]: the two [JSON.parse] results are new arrays. *)
Definition pushToHistory (s : State) : State :=
  let (hn, rn) := alloc (nodeArrays s)
                    (map TwoStack.jsonNode (read (nodeArrays s) (nodes s))) in
  let (he, re) := alloc (edgeArrays s)
                    (map TwoStack.jsonEdge (read (edgeArrays s) (edges s))) in
  {| nodeArrays := hn; edgeArrays := he;
     nodes := nodes s; edges := edges s;
     historyRef := push (historyRef s)
                     {| snap_nodes := rn; snap_edges := re |};
     redoRef := [] |}.

(** [handleUndo]: [{ nodes, edges }] holds the live arrays themselves. *)
Definition handleUndo (s : State) : State :=
  match pop (historyRef s) with
  | (Some last, rest) =>
      {| nodeArrays := nodeArrays s; edgeArrays := edgeArrays s;
         nodes := snap_nodes last;
         edges := snap_edges last;
         historyRef := rest;
         redoRef := push (redoRef s)
                      {| snap_nodes := nodes s; snap_edges := edges s |} |}
  | (None, rest) =>
      {| nodeArrays := nodeArrays s; edgeArrays := edgeArrays s;
         nodes := nodes s; edges := edges s;
         historyRef := rest; redoRef := redoRef s |}
  end.

(** [handleRedo] *)
Definition handleRedo (s : State) : State :=
  match pop (redoRef s) with
  | (Some next, rest) =>
      {| nodeArrays := nodeArrays s; edgeArrays := edgeArrays s;
         nodes := snap_nodes next;
         edges := snap_edges next;
         historyRef := push (historyRef s)
                         {| snap_nodes := nodes s; snap_edges := edges s |};
         redoRef := rest |}
  | (None, rest) =>
      {| nodeArrays := nodeArrays s; edgeArrays := edgeArrays s;
         nodes := nodes s; edges := edges s;
         historyRef := historyRef s; redoRef := rest |}
  end.

(** [setNodes(f)]: the live reference becomes what [f] returns. *)
Definition setNodes (f : list Node -> Returned Node) (s : State) : State :=
  let (hn, r) := keep (nodeArrays s) (nodes s)
                   (f (read (nodeArrays s) (nodes s))) in
  {| nodeArrays := hn; edgeArrays := edgeArrays s;
     nodes := r; edges := edges s;
     historyRef := historyRef s; redoRef := redoRef s |}.

Definition setEdges (f : list Edge -> Returned Edge) (s : State) : State :=
  let (he, r) := keep (edgeArrays s) (edges s)
                   (f (read (edgeArrays s) (edges s))) in
  {| nodeArrays := nodeArrays s; edgeArrays := he;
     nodes := nodes s; edges := r;
     historyRef := historyRef s; redoRef := redoRef s |}.

(** [onConnect] *)
Definition onConnect (connection : TwoStack.Connection) (uuid : jsstring)
    (s : State) : State :=
  setEdges (fun eds => NewArray (eds ++ [TwoStack.newEdge connection uuid]))
    (pushToHistory s).

(** [createNode] *)
Definition createNode (sh : TwoStack.Shape) (uuid : jsstring)
    (pos : TwoStack.XYPosition) (s : State) : State :=
  setNodes (fun nds => NewArray (nds ++ [TwoStack.newNode sh uuid pos]))
    (pushToHistory s).

(** [onNodeLabelChange] *)
Definition onNodeLabelChange (i l : jsstring) (s : State) : State :=
  setNodes (fun nds => NewArray (TwoStack.relabel i l nds))
    (pushToHistory s).

(** The library functions, telling whether the array they return is the
    one they were given. *)
Class ArrayLib := {
  NodeChange : Type;
  EdgeChange : Type;
  applyNodeChanges : list NodeChange -> list Node -> Returned Node;
  applyEdgeChanges : list EdgeChange -> list Edge -> Returned Edge
}.

(** The same library, seen on values. *)
Definition valueLib (AL : ArrayLib) : TwoStack.ChangeLib :=
  {| TwoStack.NodeChange := NodeChange;
     TwoStack.EdgeChange := EdgeChange;
     TwoStack.applyNodeChanges :=
       fun changes nds => elements nds (applyNodeChanges changes nds);
     TwoStack.applyEdgeChanges :=
       fun changes eds => elements eds (applyEdgeChanges changes eds) |}.

Section Handlers.
Context {AL : ArrayLib}.

(** [onNodesChange] *)
Definition onNodesChange (changes : list NodeChange) (s : State) : State :=
  setNodes (fun nds => applyNodeChanges changes nds) (pushToHistory s).

(** [onEdgesChange] *)
Definition onEdgesChange (changes : list EdgeChange) (s : State) : State :=
  setEdges (fun eds => applyEdgeChanges changes eds) (pushToHistory s).

Definition mutate (m : @TwoStack.Mutation (valueLib AL)) (s : State)
    : State :=
  match m with
  | TwoStack.NodesChange changes => onNodesChange changes s
  | TwoStack.EdgesChange changes => onEdgesChange changes s
  | TwoStack.Connect connection uuid => onConnect connection uuid s
  | TwoStack.CreateNode sh uuid pos => createNode sh uuid pos s
  | TwoStack.NodeLabelChange i l => onNodeLabelChange i l s
  end.

Definition handle (e : @TwoStack.Event (valueLib AL)) (s : State) : State :=
  match e with
  | TwoStack.Mutate m => mutate m s
  | TwoStack.Undo => handleUndo s
  | TwoStack.Redo => handleRedo s
  end.

Definition run (es : list (@TwoStack.Event (valueLib AL))) (s : State)
    : State :=
  fold_left (fun st e => handle e st) es s.

End Handlers.

(** The values behind the references. *)
Definition snapshotValue (s : State) (p : Snapshot) : TwoStack.Snapshot :=
  {| TwoStack.snap_nodes := read (nodeArrays s) (snap_nodes p);
     TwoStack.snap_edges := read (edgeArrays s) (snap_edges p) |}.

Definition value (s : State) : TwoStack.State :=
  {| TwoStack.nodes := read (nodeArrays s) (nodes s);
     TwoStack.edges := read (edgeArrays s) (edges s);
     TwoStack.historyRef := map (snapshotValue s) (historyRef s);
     TwoStack.redoRef := map (snapshotValue s) (redoRef s) |}.

(** The node arrays, and the edge arrays, the editor holds, in the order of
    the states they stand for: the undo stack, the live diagram, and the
    redo stack from its top down. *)
Definition nodeTimeline (s : State) : list ref :=
  map snap_nodes (historyRef s)
  ++ nodes s :: rev (map snap_nodes (redoRef s)).

Definition edgeTimeline (s : State) : list ref :=
  map snap_edges (historyRef s)
  ++ edges s :: rev (map snap_edges (redoRef s)).

(** Every array the editor holds is in the store, and no two of its
    references name the same array. *)
Definition separate (s : State) : Prop :=
  NoDup (nodeTimeline s)
  /\ Forall (valid (nodeArrays s)) (nodeTimeline s)
  /\ NoDup (edgeTimeline s)
  /\ Forall (valid (edgeArrays s)) (edgeTimeline s).

End TwoStackMem.

(* ------------------------------------------------------------------ *)
(** ** The cursor editor over the object store *)

Module CursorMem.
Import Js Mem.

Definition Node := Cursor.Node.

Definition Edge := Cursor.Edge.

Record HistoryEntry := { entry_nodes : ref; entry_edges : ref }.

Record State := {
  nodeArrays : store Node;
  edgeArrays : store Edge;
  nodes : ref;
  edges : ref;
  history : list HistoryEntry;
  historyIndex : nat;
  skipHistoryRef : bool
}.

(** The two arrays of the live diagram and the two of the first entry are
    four array literals. *)
Definition init : State :=
  {| nodeArrays := [[]; []]; edgeArrays := [[]; []];
     nodes := 0; edges := 0;
     history := [ {| entry_nodes := 1; entry_edges := 1 |} ];
     historyIndex := 0;
     skipHistoryRef := false |}.

Definition withStores (hn : store Node) (he : store Edge) (s : State)
    : State :=
  {| nodeArrays := hn; edgeArrays := he; nodes := nodes s; edges := edges s;
     history := history s; historyIndex := historyIndex s;
     skipHistoryRef := skipHistoryRef s |}.

Definition setNodes (r : ref) (s : State) : State :=
  {| nodeArrays := nodeArrays s; edgeArrays := edgeArrays s;
     nodes := r; edges := edges s;
     history := history s; historyIndex := historyIndex s;
     skipHistoryRef := skipHistoryRef s |}.

Definition setEdges (r : ref) (s : State) : State :=
  {| nodeArrays := nodeArrays s; edgeArrays := edgeArrays s;
     nodes := nodes s; edges := r;
     history := history s; historyIndex := historyIndex s;
     skipHistoryRef := skipHistoryRef s |}.

Definition setSkip (b : bool) (s : State) : State :=
  {| nodeArrays := nodeArrays s; edgeArrays := edgeArrays s;
     nodes := nodes s; edges := edges s;
     history := history s; historyIndex := historyIndex s;
     skipHistoryRef := b |}.

(** [pushHistory]: the entry holds the two [JSON.parse] results. *)
Definition pushHistory (newNodes newEdges : ref) (s : State) : State :=
  if skipHistoryRef s then s
  else
    let historyPrefix := slice0 (history s) (historyIndex s + 1) in
    let (hn, rn) := alloc (nodeArrays s)
                      (map Cursor.jsonNode (read (nodeArrays s) newNodes)) in
    let (he, re) := alloc (edgeArrays s)
                      (map Cursor.jsonEdge (read (edgeArrays s) newEdges)) in
    {| nodeArrays := hn; edgeArrays := he;
       nodes := nodes s; edges := edges s;
       history := historyPrefix
                  ++ [ {| entry_nodes := rn; entry_edges := re |} ];
       historyIndex := historyIndex s + 1;
       skipHistoryRef := skipHistoryRef s |}.

(** The label callback as the nodes hold it.  The array of edges it has
    closed over is only read, to be copied; no handler writes into an
    array, so its elements are those it had when the callback was stored,
    and the closure holds them. *)
Module InNode.

(** [pushHistory] of a render in which [historyIndex] was [seen] and the
    elements of [edges] were [closedEdges]. *)
Definition pushHistory (seen : nat) (newNodes : ref)
    (closedEdges : list Edge) (s : State) : State :=
  if skipHistoryRef s then s
  else
    let historyPrefix := slice0 (history s) (seen + 1) in
    let (hn, rn) := alloc (nodeArrays s)
                      (map Cursor.jsonNode (read (nodeArrays s) newNodes)) in
    let (he, re) := alloc (edgeArrays s)
                      (map Cursor.jsonEdge closedEdges) in
    {| nodeArrays := hn; edgeArrays := he;
       nodes := nodes s; edges := edges s;
       history := historyPrefix
                  ++ [ {| entry_nodes := rn; entry_edges := re |} ];
       historyIndex := historyIndex s + 1;
       skipHistoryRef := skipHistoryRef s |}.

(** [handleLabelChange] of a render with closure [c]. *)
Definition handleLabelChange (c : Cursor.InNode.Closure)
    (i value : jsstring) (s : State) : State :=
  let (hn, updatedNodes) :=
    alloc (nodeArrays s)
      (Cursor.relabel i value (read (nodeArrays s) (nodes s))) in
  setNodes updatedNodes
    (pushHistory (Cursor.InNode.closed_historyIndex c) updatedNodes
       (Cursor.InNode.closed_edges c) (withStores hn (edgeArrays s) s)).

End InNode.

(** [onDrop]: [nds.concat(newNode)] and [[...nodes, newNode]] are two
    arrays. *)
Definition onDrop (ev : Cursor.DropEvent) (s : State) : State :=
  match Cursor.droppedType ev with
  | None => s
  | Some ty =>
      let newNode := Cursor.droppedNode ty ev in
      let nds := read (nodeArrays s) (nodes s) in
      let (h1, concatenated) := alloc (nodeArrays s) (nds ++ [newNode]) in
      let (h2, spread) := alloc h1 (nds ++ [newNode]) in
      pushHistory spread (edges s)
        (setNodes concatenated (withStores h2 (edgeArrays s) s))
  end.

(** [undo]: the nodes are mapped into a new array; [setEdges(state.edges)]
    hands over the array of the entry. *)
Definition undo (s : State) : State :=
  if (0 <? Z.of_nat (historyIndex s))%Z then
    let newIndex := historyIndex s - 1 in
    match at_ (history s) newIndex with
    | Some state =>
        let (hn, r) := alloc (nodeArrays s)
                         (map Cursor.withCallback
                            (read (nodeArrays s) (entry_nodes state))) in
        {| nodeArrays := hn; edgeArrays := edgeArrays s;
           nodes := r;
           edges := entry_edges state;
           history := history s;
           historyIndex := newIndex;
           skipHistoryRef := true |}
    | None => setSkip true s
    end
  else s.

(** [redo] *)
Definition redo (s : State) : State :=
  if (Z.of_nat (historyIndex s) <? Z.of_nat (length (history s)) - 1)%Z then
    let newIndex := historyIndex s + 1 in
    match at_ (history s) newIndex with
    | Some state =>
        let (hn, r) := alloc (nodeArrays s)
                         (map Cursor.withCallback
                            (read (nodeArrays s) (entry_nodes state))) in
        {| nodeArrays := hn; edgeArrays := edgeArrays s;
           nodes := r;
           edges := entry_edges state;
           history := history s;
           historyIndex := newIndex;
           skipHistoryRef := true |}
    | None => setSkip true s
    end
  else s.

Definition reenableHistory (s : State) : State := setSkip false s.

(** [loadDiagram]: [parsed.nodes] and [parsed.edges] are arrays made by
    [JSON.parse]; the live nodes are a [map] of the first, the live edges
    are the second itself, and the entry holds copies of both. *)
Definition loadDiagram (file : Cursor.FileContent) (s : State) : State :=
  match file with
  | Cursor.Unparseable => s
  | Cursor.Parsed (Some parsedNodes) (Some parsedEdges) =>
      let (h1, _) := alloc (nodeArrays s) parsedNodes in
      let (h2, loadedNodes) :=
        alloc h1 (map Cursor.withCallback parsedNodes) in
      let (e1, loadedEdges) := alloc (edgeArrays s) parsedEdges in
      let (h3, rn) :=
        alloc h2 (map Cursor.jsonNode (map Cursor.withCallback parsedNodes)) in
      let (e2, re) := alloc e1 (map Cursor.jsonEdge parsedEdges) in
      {| nodeArrays := h3; edgeArrays := e2;
         nodes := loadedNodes;
         edges := loadedEdges;
         history := [ {| entry_nodes := rn; entry_edges := re |} ];
         historyIndex := 0;
         skipHistoryRef := true |}
  | Cursor.Parsed _ _ => s
  | Cursor.ParsedNull => s
  | Cursor.Throwing _ => setSkip true s
  end.

Class ArrayLib := {
  NodeChange : Type;
  EdgeChange : Type;
  applyNodeChanges : list NodeChange -> list Node -> Returned Node;
  applyEdgeChanges : list EdgeChange -> list Edge -> Returned Edge;
  addEdge : Edge -> list Edge -> Returned Edge
}.

Definition valueLib (AL : ArrayLib) : Cursor.ChangeLib :=
  {| Cursor.NodeChange := NodeChange;
     Cursor.EdgeChange := EdgeChange;
     Cursor.applyNodeChanges :=
       fun changes nds => elements nds (applyNodeChanges changes nds);
     Cursor.applyEdgeChanges :=
       fun changes eds => elements eds (applyEdgeChanges changes eds);
     Cursor.addEdge := fun e eds => elements eds (addEdge e eds) |}.

Section Handlers.
Context {AL : ArrayLib}.

(** [onNodesChange] *)
Definition onNodesChange (changes : list NodeChange) (s : State) : State :=
  let (hn, updatedNodes) :=
    keep (nodeArrays s) (nodes s)
      (applyNodeChanges changes (read (nodeArrays s) (nodes s))) in
  setNodes updatedNodes
    (pushHistory updatedNodes (edges s) (withStores hn (edgeArrays s) s)).

(** [onEdgesChange] *)
Definition onEdgesChange (changes : list EdgeChange) (s : State) : State :=
  let (he, updatedEdges) :=
    keep (edgeArrays s) (edges s)
      (applyEdgeChanges changes (read (edgeArrays s) (edges s))) in
  setEdges updatedEdges
    (pushHistory (nodes s) updatedEdges (withStores (nodeArrays s) he s)).

(** [onConnect] *)
Definition onConnect (params : Cursor.Connection) (now : Z) (s : State)
    : State :=
  let (he, updatedEdges) :=
    keep (edgeArrays s) (edges s)
      (addEdge (Cursor.newEdge params now) (read (edgeArrays s) (edges s))) in
  setEdges updatedEdges
    (pushHistory (nodes s) updatedEdges (withStores (nodeArrays s) he s)).

Definition mutate (m : @Cursor.Mutation (valueLib AL)) (s : State) : State :=
  match m with
  | Cursor.NodesChange changes => onNodesChange changes s
  | Cursor.EdgesChange changes => onEdgesChange changes s
  | Cursor.Connect params now => onConnect params now s
  | Cursor.Drop ev => onDrop ev s
  | Cursor.LabelChange c i value => InNode.handleLabelChange c i value s
  end.

Definition handle (e : @Cursor.Event (valueLib AL)) (s : State) : State :=
  match e with
  | Cursor.Mutate m => mutate m s
  | Cursor.Undo => undo s
  | Cursor.Redo => redo s
  | Cursor.Load file => loadDiagram file s
  | Cursor.Timeout => reenableHistory s
  end.

Definition run (es : list (@Cursor.Event (valueLib AL))) (s : State)
    : State :=
  fold_left (fun st e => handle e st) es s.

End Handlers.

Definition entryValue (s : State) (p : HistoryEntry) : Cursor.HistoryEntry :=
  {| Cursor.entry_nodes := read (nodeArrays s) (entry_nodes p);
     Cursor.entry_edges := read (edgeArrays s) (entry_edges p) |}.

Definition value (s : State) : Cursor.State :=
  {| Cursor.nodes := read (nodeArrays s) (nodes s);
     Cursor.edges := read (edgeArrays s) (edges s);
     Cursor.history := map (entryValue s) (history s);
     Cursor.historyIndex := historyIndex s;
     Cursor.skipHistoryRef := skipHistoryRef s |}.

(** Every array the editor holds is in the store. *)
Definition inStore (s : State) : Prop :=
  valid (nodeArrays s) (nodes s)
  /\ valid (edgeArrays s) (edges s)
  /\ Forall (fun p => valid (nodeArrays s) (entry_nodes p)
                      /\ valid (edgeArrays s) (entry_edges p))
       (history s).

(** What holds of every handler: the references stay in the store, the
    store only grows, and the values are those of the editor on values. *)
Definition simulates (s t : State) (v : Cursor.State) : Prop :=
  inStore t
  /\ extends (nodeArrays s) (nodeArrays t)
  /\ extends (edgeArrays s) (edgeArrays t)
  /\ value t = v.

(** What a recorded update appends: an entry of two arrays that were not
    in the store before and are not the live arrays, holding the copies of
    the live arrays. *)
Definition pushesCopy (s t : State) : Prop :=
  exists p,
    history t = slice0 (history s) (historyIndex s + 1) ++ [p]
    /\ ~ valid (nodeArrays s) (entry_nodes p)
    /\ ~ valid (edgeArrays s) (entry_edges p)
    /\ entry_nodes p <> nodes t
    /\ entry_edges p <> edges t
    /\ entryValue t p
       = Cursor.jsonCopy (read (nodeArrays t) (nodes t))
           (read (edgeArrays t) (edges t)).

(** No entry of the history holds the live node array. *)
Definition nodesApart (s : State) : Prop :=
  forall p, In p (history s) -> entry_nodes p <> nodes s.

End CursorMem.

(* ------------------------------------------------------------------ *)
(** ** A small change library, for running the handlers on examples

    Changes in the manner of the diagram library: the first change that
    names an element applies to it; an element no change names is kept. *)

Module Demo.
Import Js.

Inductive Change (P : Type) :=
| Remove (i : jsstring)
| Position (i : jsstring) (p : P)
| Select (i : jsstring) (b : bool).

Arguments Remove {P} i.
Arguments Position {P} i p.
Arguments Select {P} i b.

Definition change_id {P} (c : Change P) : jsstring :=
  match c with
  | Remove i => i
  | Position i _ => i
  | Select i _ => i
  end.

Fixpoint find_change {P} (cs : list (Change P)) (i : jsstring)
    : option (Change P) :=
  match cs with
  | [] => None
  | c :: r => if streq (change_id c) i then Some c else find_change r i
  end.

Fixpoint applyChanges {P E} (ident : E -> jsstring)
    (upd : Change P -> E -> option E)
    (cs : list (Change P)) (els : list E) : list E :=
  match els with
  | [] => []
  | el :: r =>
      match find_change cs (ident el) with
      | Some c =>
          match upd c el with
          | Some el' => el' :: applyChanges ident upd cs r
          | None => applyChanges ident upd cs r
          end
      | None => el :: applyChanges ident upd cs r
      end
  end.

Definition updNode2 (c : Change TwoStack.XYPosition) (n : TwoStack.Node)
    : option TwoStack.Node :=
  match c with
  | Remove _ => None
  | Position _ p =>
      Some {| TwoStack.id := TwoStack.id n; TwoStack.type := TwoStack.type n;
              TwoStack.position := p; TwoStack.data := TwoStack.data n;
              TwoStack.width := TwoStack.width n;
              TwoStack.height := TwoStack.height n;
              TwoStack.selected := TwoStack.selected n |}
  | Select _ b =>
      Some {| TwoStack.id := TwoStack.id n; TwoStack.type := TwoStack.type n;
              TwoStack.position := TwoStack.position n;
              TwoStack.data := TwoStack.data n;
              TwoStack.width := TwoStack.width n;
              TwoStack.height := TwoStack.height n;
              TwoStack.selected := Some b |}
  end.

Definition updEdge2 (c : Change unit) (e : TwoStack.Edge)
    : option TwoStack.Edge :=
  match c with
  | Remove _ => None
  | _ => Some e
  end.

(** The library makes a new array at every call. *)
Definition mem2 : TwoStackMem.ArrayLib :=
  {| TwoStackMem.NodeChange := Change TwoStack.XYPosition;
     TwoStackMem.EdgeChange := Change unit;
     TwoStackMem.applyNodeChanges :=
       fun cs ns => Mem.NewArray (applyChanges TwoStack.id updNode2 cs ns);
     TwoStackMem.applyEdgeChanges :=
       fun cs es =>
         Mem.NewArray (applyChanges TwoStack.edge_id updEdge2 cs es) |}.

#[export] Instance lib2 : TwoStack.ChangeLib := TwoStackMem.valueLib mem2.

Definition updNodeC (c : Change Cursor.XYPosition) (n : Cursor.Node)
    : option Cursor.Node :=
  match c with
  | Remove _ => None
  | Position _ p =>
      Some {| Cursor.id := Cursor.id n; Cursor.type := Cursor.type n;
              Cursor.position := p; Cursor.data := Cursor.data n;
              Cursor.width := Cursor.width n;
              Cursor.height := Cursor.height n;
              Cursor.selected := Cursor.selected n |}
  | Select _ b =>
      Some {| Cursor.id := Cursor.id n; Cursor.type := Cursor.type n;
              Cursor.position := Cursor.position n;
              Cursor.data := Cursor.data n;
              Cursor.width := Cursor.width n;
              Cursor.height := Cursor.height n;
              Cursor.selected := Some b |}
  end.

Definition updEdgeC (c : Change unit) (e : Cursor.Edge)
    : option Cursor.Edge :=
  match c with
  | Remove _ => None
  | _ => Some e
  end.

Definition memC : CursorMem.ArrayLib :=
  {| CursorMem.NodeChange := Change Cursor.XYPosition;
     CursorMem.EdgeChange := Change unit;
     CursorMem.applyNodeChanges :=
       fun cs ns => Mem.NewArray (applyChanges Cursor.id updNodeC cs ns);
     CursorMem.applyEdgeChanges :=
       fun cs es => Mem.NewArray (applyChanges Cursor.edge_id updEdgeC cs es);
     CursorMem.addEdge := fun e es => Mem.NewArray (es ++ [e]) |}.

#[export] Instance libC : Cursor.ChangeLib := CursorMem.valueLib memC.

(** Two nodes and a connection between them, in each editor. *)
Definition at2 (a b : Z) : TwoStack.XYPosition :=
  {| TwoStack.x := a; TwoStack.y := b |}.

Definition conn2 (a b : string) : TwoStack.Connection :=
  {| TwoStack.conn_source := Some (lit a);
     TwoStack.conn_sourceHandle := Some (lit "right");
     TwoStack.conn_target := Some (lit b);
     TwoStack.conn_targetHandle := Some (lit "left") |}.

Definition add_n1 : TwoStack.Mutation :=
  TwoStack.CreateNode TwoStack.rectangle (lit "n1") (at2 10 10).

Definition add_n2 : TwoStack.Mutation :=
  TwoStack.CreateNode TwoStack.circle (lit "n2") (at2 100 10).

Definition join_n1_n2 : TwoStack.Mutation :=
  TwoStack.Connect (conn2 "n1" "n2") (lit "e1").

Definition create_n1 : TwoStack.Event := TwoStack.Mutate add_n1.

Definition create_n2 : TwoStack.Event := TwoStack.Mutate add_n2.

Definition connect_n1_n2 : TwoStack.Event := TwoStack.Mutate join_n1_n2.

Definition undo2 : TwoStack.Event := TwoStack.Undo.

Definition redo2 : TwoStack.Event := TwoStack.Redo.

(** A connection whose source names no node. *)
Definition join_missing_n2 : TwoStack.Connection := conn2 "missing-id" "n2".

Definition dropAt (now : Z) : Cursor.DropEvent :=
  {| Cursor.drop_type := Some (lit "rectangleNode");
     Cursor.canvas_ready := true;
     Cursor.drop_position := {| Cursor.x := 10%Z; Cursor.y := 10%Z |};
     Cursor.drop_now := now |}.

Definition put_1 : Cursor.Mutation := Cursor.Drop (dropAt 1).

Definition put_2 : Cursor.Mutation := Cursor.Drop (dropAt 2).

Definition undoC : Cursor.Event := Cursor.Undo.

Definition redoC : Cursor.Event := Cursor.Redo.

Definition move_1 : Cursor.Mutation :=
  Cursor.NodesChange
    [Position (lit "node_1") {| Cursor.x := 30%Z; Cursor.y := 40%Z |}].

Definition drop_1 : Cursor.Event := Cursor.Mutate put_1.

Definition drop_2 : Cursor.Event := Cursor.Mutate put_2.

(** The label edit of the first node after the second drop was undone,
    through the callback that the undo stored in the node: it belongs to
    the render from before the undo. *)
Definition rename_1_undone : Cursor.Mutation :=
  Cursor.LabelChange
    (Cursor.InNode.closureOf (Cursor.run [drop_1; drop_2] Cursor.init))
    (lit "node_1") (lit "Start").

End Demo.

(* ------------------------------------------------------------------ *)
(** ** The two-stack history read as one sequence of diagrams *)

Module Timeline.
Import Js TwoStack.

(** The live diagram as the snapshot [{ nodes, edges }] that [handleUndo]
    and [handleRedo] push. *)
Definition live (s : State) : Snapshot :=
  {| snap_nodes := nodes s; snap_edges := edges s |}.

(** Every diagram the editor holds, oldest first: the undo stack from its
    bottom, the live diagram, the redo stack from its top. *)
Definition timeline (s : State) : list Snapshot :=
  historyRef s ++ live s :: rev (redoRef s).

Section WithLib.
Context {L : ChangeLib}.

(** The two toolbar events that only move within the history. *)
Definition isHistoryMove (e : Event) : bool :=
  match e with
  | Mutate _ => false
  | Undo => true
  | Redo => true
  end.

End WithLib.

End Timeline.

(* ------------------------------------------------------------------ *)
(** ** The events of the cursor editor, with the stored label callback

    The closure, [pushHistory] and [handleLabelChange] of this module are
    those of [Cursor.InNode]. *)

Module Stored.
Import Js.
Include Cursor.InNode.

(** [data.onChangeLabel] is there: the label of the node can be edited. *)
Definition editable (n : Cursor.Node) : bool :=
  Cursor.onChangeLabel (Cursor.data n).

Section Handlers.
Context {L : Cursor.ChangeLib}.

(** The events of the editor, a label edit coming with the closure of
    the callback that the edited node holds. *)
Inductive Event :=
| FromProps (e : Cursor.Event)
| FromNode (c : Closure) (i value : jsstring).

Definition handle (e : Event) (s : Cursor.State) : Cursor.State :=
  match e with
  | FromProps e' => Cursor.handle e' s
  | FromNode c i value => handleLabelChange c i value s
  end.

Definition run (es : list Event) (s : Cursor.State) : Cursor.State :=
  fold_left (fun st e => handle e st) es s.

(** The events other than a load and the timer callback, the two that
    write [skipHistoryRef] without reading the history. *)
Definition noReset (e : Event) : bool :=
  match e with
  | FromProps (Cursor.Load _) => false
  | FromProps Cursor.Timeout => false
  | _ => true
  end.

End Handlers.

End Stored.

(* ------------------------------------------------------------------ *)
(** ** The development build ([React.StrictMode])

    [index.tsx] renders [<App />] inside [<React.StrictMode>].  In a
    development build React then runs every updater function given to a
    state setter twice, on the same state, and keeps one result.  The
    updaters of [onNodesChange] and [onEdgesChange] call [pushHistory]:
    it is called twice, by the same render and, the library functions
    being functions of their arguments, with the same arrays.  Each call
    hands [setHistory] and [setHistoryIndex] an updater of its own. *)

Module StrictMode.
Import Js.

Section Handlers.
Context {L : Cursor.ChangeLib}.

(** The two calls of [pushHistory] by one render, in state [s]. *)
Definition pushHistoryTwice (newNodes : list Cursor.Node)
    (newEdges : list Cursor.Edge) (s : Cursor.State) : Cursor.State :=
  Cursor.InNode.pushHistory (Cursor.historyIndex s) newNodes newEdges
    (Cursor.InNode.pushHistory (Cursor.historyIndex s) newNodes newEdges s).

(** [onNodesChange] *)
Definition onNodesChange (changes : list Cursor.NodeChange)
    (s : Cursor.State) : Cursor.State :=
  let updatedNodes := Cursor.applyNodeChanges changes (Cursor.nodes s) in
  Cursor.setNodes updatedNodes
    (pushHistoryTwice updatedNodes (Cursor.edges s) s).

(** [onEdgesChange] *)
Definition onEdgesChange (changes : list Cursor.EdgeChange)
    (s : Cursor.State) : Cursor.State :=
  let updatedEdges := Cursor.applyEdgeChanges changes (Cursor.edges s) in
  Cursor.setEdges updatedEdges
    (pushHistoryTwice (Cursor.nodes s) updatedEdges s).

End Handlers.

End StrictMode.

(* ------------------------------------------------------------------ *)
(** ** What a shape node shows ([BaseShapeNode], continued) *)

Module ShapeNode.
Import Js.

(** The props the canvas gives the component of node [n]. *)
Definition propsOf (n : Cursor.Node) : BaseShapeNode.Props :=
  {| BaseShapeNode.props_id := Cursor.id n;
     BaseShapeNode.props_data := Some (Cursor.data n) |}.

(** [handleDoubleClick]: the new value of [editing]. *)
Definition handleDoubleClick (editing : bool) : bool := true.

(** [handleKeyDown]: whether [blur()] is called on the input. *)
Definition handleKeyDown (key : jsstring) : bool := streq key (lit "Enter").

(** [data?.label || alt]; the empty string is falsy. *)
Definition labelOr (p : BaseShapeNode.Props) (alt : jsstring) : jsstring :=
  match BaseShapeNode.props_data p with
  | Some d =>
      match Cursor.label d with
      | [] => alt
      | c :: r => c :: r
      end
  | None => alt
  end.

(** What the component renders inside the shape: the input with its
    [defaultValue], or the text. *)
Inductive Content :=
| Input (defaultValue : jsstring)
| Text (children : jsstring).

Definition render (editing : bool) (p : BaseShapeNode.Props) : Content :=
  if editing then Input (labelOr p [])
  else Text (labelOr p (lit "Double-click to edit")).

(** A key pressed in the input that holds [targetValue].  [blur()] makes
    the browser deliver the blur event, which [handleBlur] handles; the
    call of [data.onChangeLabel] runs the function stored in the node,
    whose closure is [c].  The result is the value of [editing] and the
    state of the editor. *)
Definition keyDown (c : Stored.Closure) (key : jsstring)
    (p : BaseShapeNode.Props) (targetValue : jsstring)
    (editing : bool) (s : Cursor.State) : bool * Cursor.State :=
  if handleKeyDown key then
    let b := BaseShapeNode.handleBlur p targetValue in
    (BaseShapeNode.editing b,
     match BaseShapeNode.onChangeLabel_call b with
     | Some (i, value) => Stored.handleLabelChange c i value s
     | None => s
     end)
  else (editing, s).

End ShapeNode.

(* ------------------------------------------------------------------ *)
(** ** Saving the diagram ([saveDiagram]) *)

Module Files.

(** [saveDiagram] writes [JSON.stringify({ nodes, edges }, null, 2)] to
    [diagram.json].  The file is kept as what [JSON.parse] makes of that
    text, which is what [loadDiagram] reads: both members are arrays, each
    element rebuilt member by member, without the callback. *)
Definition saveDiagram (s : Cursor.State) : Cursor.FileContent :=
  Cursor.Parsed (Some (map Cursor.jsonNode (Cursor.nodes s)))
                (Some (map Cursor.jsonEdge (Cursor.edges s))).

End Files.

(* ------------------------------------------------------------------ *)
(** ** The bytes of the exported image ([exportAsDoc]) *)

Module ExportAsDoc.
Import Js.

(** An element of [byteNumbers]: the hole left by [new Array(n)], or a
    number, which [charCodeAt] makes [NaN] outside the string. *)
Inductive Element :=
| Empty
| NaN
| Num (n : N).

(** [new Array(n)] *)
Definition newArray (n : nat) : list Element := repeat Empty n.

(** [s.charCodeAt(i)] *)
Definition charCodeAt (s : jsstring) (i : nat) : Element :=
  match nth_error s i with
  | Some c => Num c
  | None => NaN
  end.

(** [a[i] = v]; beyond the end the array grows, with holes. *)
Definition assign (a : list Element) (i : nat) (v : Element)
    : list Element :=
  if i <? length a then firstn i a ++ v :: skipn (S i) a
  else a ++ repeat Empty (i - length a) ++ [v].

(** The [for] loop from [i] on; [None] when the fuel runs out. *)
Fixpoint loop (fuel i : nat) (byteCharacters : jsstring)
    (byteNumbers : list Element) : option (list Element) :=
  match fuel with
  | O => None
  | S fuel' =>
      if i <? length byteCharacters then
        loop fuel' (S i) byteCharacters
          (assign byteNumbers i (charCodeAt byteCharacters i))
      else Some byteNumbers
  end.

(** The conversion of one element by [new Uint8Array(a)]: a hole reads as
    [undefined], which like [NaN] becomes 0; a number is taken modulo
    256. *)
Definition toUint8 (e : Element) : N :=
  match e with
  | Num n => (n mod 256)%N
  | _ => 0%N
  end.

Definition Uint8Array (a : list Element) : list N := map toUint8 a.

(** [byteArray], from [byteCharacters]. *)
Definition byteArray (fuel : nat) (byteCharacters : jsstring)
    : option (list N) :=
  option_map Uint8Array
    (loop fuel 0 byteCharacters (newArray (length byteCharacters))).

End ExportAsDoc.

(* ------------------------------------------------------------------ *)
(** ** Further examples *)

Module Examples.
Import Js.

(** The callback that the node dropped on the empty canvas holds. *)
Definition firstClosure : Stored.Closure := Stored.closureOf Cursor.init.

Definition afterDrop : Cursor.State :=
  Cursor.onDrop (Demo.dropAt 1) Cursor.init.

Definition rename_stored (l : string) : @Stored.Event Demo.libC :=
  Stored.FromNode firstClosure (lit "node_1") (lit l).

Definition session : list (@Stored.Event Demo.libC) :=
  [Stored.FromProps Demo.drop_1; rename_stored "Start";
   Stored.FromProps Demo.drop_2; Stored.FromProps Demo.undoC;
   Stored.FromProps (Cursor.Mutate Demo.move_1)].

Definition moves : list (@Cursor.Mutation Demo.libC) :=
  [Demo.put_1; Demo.move_1; Demo.put_2].

(** A node is dropped on the empty canvas and its label is edited
    twice. *)
Definition twoEdits : Cursor.State :=
  Stored.run [Stored.FromProps Demo.drop_1; rename_stored "Start";
              rename_stored "Begin"] Cursor.init.

Definition afterwards : list (@Stored.Event Demo.libC) :=
  [Stored.FromProps (Cursor.Mutate Demo.put_2); Stored.FromProps Demo.redoC;
   rename_stored "End"; Stored.FromProps Demo.undoC].

Definition png : jsstring := [137; 80; 78; 71; 13; 10; 26; 10]%N.

(** The first node is moved. *)
Definition move : list (@Cursor.NodeChange Demo.libC) :=
  [Demo.Position (lit "node_1") {| Cursor.x := 30%Z; Cursor.y := 40%Z |}].

End Examples.


(* ------------------------------------------------------------------ *)
(** ** Facts on arrays and strings *)

Module JsFacts.
Import Js.

Lemma pop_nil {A} : pop (@nil A) = (None, []).
Proof. reflexivity. Qed.

Lemma pop_push {A} (a : list A) (v : A) : pop (push a v) = (Some v, a).
Proof.
  unfold pop, push. rewrite rev_app_distr. simpl.
  now rewrite rev_involutive.
Qed.

Lemma last_split {A} (a : list A) :
  a <> [] -> exists r v, a = push r v.
Proof.
  intros Hne. destruct (exists_last Hne) as (r & v & ->).
  now exists r, v.
Qed.

Lemma push_length {A} (a : list A) (v : A) :
  length (push a v) = S (length a).
Proof. unfold push. rewrite length_app. simpl. lia. Qed.

Lemma push_not_nil {A} (a : list A) (v : A) : push a v <> [].
Proof. unfold push. destruct a; discriminate. Qed.

Lemma iter_succ_r {A} (n : nat) (f : A -> A) (a : A) :
  iter (S n) f a = f (iter n f a).
Proof.
  revert a. induction n as [|n IH]; intros a; [reflexivity|].
  change (iter (S (S n)) f a) with (iter (S n) f (f a)).
  rewrite IH. reflexivity.
Qed.

Lemma streq_refl (a : jsstring) : streq a a = true.
Proof.
  induction a as [|c a IH]; [reflexivity|].
  simpl. now rewrite N.eqb_refl, IH.
Qed.

Lemma streq_eq (a b : jsstring) : streq a b = true <-> a = b.
Proof.
  split.
  - revert b. induction a as [|c a IH]; intros [|d b]; simpl;
      try discriminate; [reflexivity|].
    intros H. apply andb_prop in H as [Hc Hr].
    apply N.eqb_eq in Hc. subst d. f_equal. now apply IH.
  - intros ->. apply streq_refl.
Qed.


Lemma trimStart_prefix (s : jsstring) :
  exists pre, s = pre ++ trimStart s /\ forallb isWhiteSpace pre = true.
Proof.
  induction s as [|c s (pre & Hs & Hp)].
  - now exists [].
  - simpl. destruct (isWhiteSpace c) eqn:E.
    + exists (c :: pre). simpl. rewrite E, Hp. split; [congruence|easy].
    + now exists [].
Qed.

Lemma trimStart_head (s : jsstring) :
  startsWithWhiteSpace (trimStart s) = false.
Proof.
  induction s as [|c s IH]; [reflexivity|].
  simpl. destruct (isWhiteSpace c) eqn:E; [exact IH|exact E].
Qed.

Lemma trimStart_blank (s : jsstring) :
  forallb isWhiteSpace s = true -> trimStart s = [].
Proof.
  induction s as [|c s IH]; [reflexivity|].
  simpl. intros H. apply andb_prop in H as [Hc Hs]. rewrite Hc. now apply IH.
Qed.

Lemma trimStart_keeps_last (s : jsstring) (c : N) :
  isWhiteSpace c = false -> exists q, trimStart (s ++ [c]) = q ++ [c].
Proof.
  intros Hc. induction s as [|d s (q & Hq)]; simpl.
  - rewrite Hc. now exists [].
  - destruct (isWhiteSpace d).
    + now exists q.
    + now exists (d :: s).
Qed.

Lemma trimEnd_suffix (s : jsstring) :
  exists post, s = trimEnd s ++ post /\ forallb isWhiteSpace post = true.
Proof.
  unfold trimEnd. destruct (trimStart_prefix (rev s)) as (pre & Hs & Hp).
  exists (rev pre). split.
  - rewrite <- rev_app_distr, <- Hs. now rewrite rev_involutive.
  - rewrite forallb_forall in *. intros c Hc. apply Hp.
    now apply in_rev in Hc.
Qed.

Lemma trimEnd_last (s : jsstring) : endsWithWhiteSpace (trimEnd s) = false.
Proof.
  unfold endsWithWhiteSpace, trimEnd. rewrite rev_involutive.
  apply trimStart_head.
Qed.

Lemma trimEnd_head (s : jsstring) :
  startsWithWhiteSpace s = false -> startsWithWhiteSpace (trimEnd s) = false.
Proof.
  destruct s as [|c s]; [reflexivity|]. simpl. intros Hc.
  unfold trimEnd. simpl.
  destruct (trimStart_keeps_last (rev s) c Hc) as (q & ->).
  rewrite rev_app_distr. simpl. exact Hc.
Qed.

Lemma trim_split (s : jsstring) :
  exists pre post,
    s = pre ++ trim s ++ post
    /\ forallb isWhiteSpace pre = true
    /\ forallb isWhiteSpace post = true.
Proof.
  destruct (trimStart_prefix s) as (pre & Hs & Hp).
  destruct (trimEnd_suffix (trimStart s)) as (post & Ht & Hq).
  exists pre, post. unfold trim. rewrite <- Ht. auto.
Qed.

Lemma trim_start (s : jsstring) : startsWithWhiteSpace (trim s) = false.
Proof. unfold trim. apply trimEnd_head, trimStart_head. Qed.

Lemma trim_end (s : jsstring) : endsWithWhiteSpace (trim s) = false.
Proof. unfold trim. apply trimEnd_last. Qed.

Lemma trim_blank (s : jsstring) :
  forallb isWhiteSpace s = true -> trim s = [].
Proof. intros H. unfold trim. now rewrite trimStart_blank. Qed.

End JsFacts.

(* ------------------------------------------------------------------ *)
(** ** The two-stack editor: history laws *)

Module TwoStackFacts.
Import Js JsFacts TwoStack.

Lemma ts_jsonNode_same (n : Node) : jsonNode n = n.
Proof. destruct n as [i t [px py] [l sh] w h sel]. reflexivity. Qed.

Lemma ts_jsonEdge_same (e : Edge) : jsonEdge e = e.
Proof. destruct e as [i s sh t th ty [mt mc] [st sw] sel]. reflexivity. Qed.

Lemma ts_jsonCopy_same (ns : list Node) (es : list Edge) :
  jsonCopy ns es = {| snap_nodes := ns; snap_edges := es |}.
Proof.
  unfold jsonCopy. f_equal.
  - rewrite <- (map_id ns) at 2. apply map_ext, ts_jsonNode_same.
  - rewrite <- (map_id es) at 2. apply map_ext, ts_jsonEdge_same.
Qed.

Lemma ts_handleUndo_push (s : State) (r : list Snapshot) (v : Snapshot) :
  historyRef s = push r v ->
  handleUndo s =
    {| nodes := snap_nodes v; edges := snap_edges v; historyRef := r;
       redoRef := push (redoRef s)
                    {| snap_nodes := nodes s; snap_edges := edges s |} |}.
Proof. intros H. unfold handleUndo. now rewrite H, pop_push. Qed.

Lemma ts_handleRedo_push (s : State) (r : list Snapshot) (v : Snapshot) :
  redoRef s = push r v ->
  handleRedo s =
    {| nodes := snap_nodes v; edges := snap_edges v;
       historyRef := push (historyRef s)
                       {| snap_nodes := nodes s; snap_edges := edges s |};
       redoRef := r |}.
Proof. intros H. unfold handleRedo. now rewrite H, pop_push. Qed.

Lemma ts_handleUndo_empty (s : State) : historyRef s = [] -> handleUndo s = s.
Proof.
  intros H. unfold handleUndo. rewrite H, pop_nil.
  destruct s; simpl in *; now subst.
Qed.

Lemma ts_handleRedo_empty (s : State) : redoRef s = [] -> handleRedo s = s.
Proof.
  intros H. unfold handleRedo. rewrite H, pop_nil.
  destruct s; simpl in *; now subst.
Qed.

Lemma ts_redo_undo (s : State) :
  historyRef s <> [] -> handleRedo (handleUndo s) = s.
Proof.
  intros Hne. destruct (last_split _ Hne) as (r & v & Hr).
  rewrite (ts_handleUndo_push s r v Hr).
  erewrite ts_handleRedo_push by reflexivity.
  destruct s as [ns es h rd], v as [vn ve]; simpl in *. now subst.
Qed.

Lemma ts_undo_redo (s : State) :
  redoRef s <> [] -> handleUndo (handleRedo s) = s.
Proof.
  intros Hne. destruct (last_split _ Hne) as (r & v & Hr).
  rewrite (ts_handleRedo_push s r v Hr).
  erewrite ts_handleUndo_push by reflexivity.
  destruct s as [ns es h rd], v as [vn ve]; simpl in *. now subst.
Qed.

Lemma ts_handleUndo_length (s : State) :
  length (historyRef (handleUndo s)) = pred (length (historyRef s)).
Proof.
  destruct (historyRef s) as [|e h] eqn:E.
  - now rewrite ts_handleUndo_empty, E.
  - assert (Hne : historyRef s <> []) by (rewrite E; discriminate).
    destruct (last_split _ Hne) as (r & v & Hr).
    rewrite (ts_handleUndo_push s r v Hr). cbn [historyRef].
    rewrite E in Hr. rewrite Hr, push_length. reflexivity.
Qed.

(** [n] undos followed by [n] redos, when the history holds at least [n]
    snapshots. *)
Lemma ts_redo_n_undo_n (n : nat) (s : State) :
  n <= length (historyRef s) ->
  iter n handleRedo (iter n handleUndo s) = s.
Proof.
  revert s. induction n as [|n IH]; intros s Hn; [reflexivity|].
  rewrite iter_succ_r. simpl.
  rewrite IH.
  - apply ts_redo_undo. destruct (historyRef s); simpl in *; [lia|discriminate].
  - rewrite ts_handleUndo_length. lia.
Qed.

Lemma ts_relabel_absent (i l : jsstring) (ns : list Node) :
  (forall n, In n ns -> id n <> i) -> relabel i l ns = ns.
Proof.
  intros H. unfold relabel. rewrite <- (map_id ns) at 2.
  apply map_ext_in. intros n Hn.
  destruct (streq (id n) i) eqn:E; [|reflexivity].
  apply streq_eq in E. now apply H in Hn.
Qed.



Section WithLib.
Context {L : ChangeLib}.

Lemma ts_mutate_history (m : Mutation) (s : State) :
  historyRef (mutate m s)
  = push (historyRef s) (jsonCopy (nodes s) (edges s)).
Proof. destruct m; reflexivity. Qed.

Lemma ts_mutate_redo (m : Mutation) (s : State) : redoRef (mutate m s) = [].
Proof. destruct m; reflexivity. Qed.

Lemma ts_run_app (es fs : list Event) (s : State) :
  run (es ++ fs) s = run fs (run es s).
Proof. unfold run. apply fold_left_app. Qed.

Lemma ts_run_mutations_length (ms : list Mutation) (s : State) :
  length (historyRef (run (map Mutate ms) s))
  = length (historyRef s) + length ms.
Proof.
  revert s. induction ms as [|m ms IH]; intros s; simpl; [lia|].
  change (run (Mutate m :: map Mutate ms) s)
    with (run (map Mutate ms) (mutate m s)).
  rewrite IH, ts_mutate_history, push_length. lia.
Qed.

End WithLib.

End TwoStackFacts.


(* ------------------------------------------------------------------ *)
(** ** The cursor editor: history laws *)

Module CursorFacts.
Import Js JsFacts Cursor.

Lemma cur_jsonEdge_same (e : Edge) : jsonEdge e = e.
Proof. destruct e as [i s sh t th ty [mt mc] [st sw] sel]. reflexivity. Qed.

Lemma cur_jsonEdges_same (es : list Edge) : map jsonEdge es = es.
Proof. rewrite <- (map_id es) at 2. apply map_ext, cur_jsonEdge_same. Qed.

Lemma cur_jsonNode_idem (n : Node) : jsonNode (jsonNode n) = jsonNode n.
Proof. reflexivity. Qed.

Lemma cur_jsonNode_withCallback (n : Node) :
  jsonNode (withCallback n) = jsonNode n.
Proof. reflexivity. Qed.

Lemma cur_jsonNodes_withCallback (ns : list Node) :
  map jsonNode (map withCallback ns) = map jsonNode ns.
Proof. rewrite map_map. apply map_ext, cur_jsonNode_withCallback. Qed.

Lemma cur_jsonNodes_idem (ns : list Node) :
  map jsonNode (map jsonNode ns) = map jsonNode ns.
Proof. rewrite map_map. apply map_ext, cur_jsonNode_idem. Qed.

Lemma cur_jsonCopy_clean (ns : list Node) (es : list Edge) :
  jsonClean (jsonCopy ns es).
Proof.
  unfold jsonClean, jsonCopy. simpl.
  now rewrite cur_jsonNodes_idem, !cur_jsonEdges_same.
Qed.

Lemma cur_sameEditor_refl (s : State) : sameEditor s s.
Proof. repeat split. Qed.

Lemma cur_sameEditor_trans (s t u : State) :
  sameEditor s t -> sameEditor t u -> sameEditor s u.
Proof.
  intros (a & b & c & d) (a' & b' & c' & d').
  repeat split; congruence.
Qed.

Lemma cur_undo_at (s : State) (e : HistoryEntry) :
  0 < historyIndex s ->
  at_ (history s) (historyIndex s - 1) = Some e ->
  undo s = {| nodes := map withCallback (entry_nodes e);
              edges := entry_edges e;
              history := history s;
              historyIndex := historyIndex s - 1;
              skipHistoryRef := true |}.
Proof.
  intros Hi He. unfold undo.
  destruct (Z.ltb_spec 0 (Z.of_nat (historyIndex s))); [|lia].
  now rewrite He.
Qed.

Lemma cur_redo_at (s : State) (e : HistoryEntry) :
  at_ (history s) (historyIndex s + 1) = Some e ->
  redo s = {| nodes := map withCallback (entry_nodes e);
              edges := entry_edges e;
              history := history s;
              historyIndex := historyIndex s + 1;
              skipHistoryRef := true |}.
Proof.
  intros He. unfold redo.
  assert (Hlt : historyIndex s + 1 < length (history s)).
  { apply nth_error_Some. unfold at_ in He. congruence. }
  destruct (Z.ltb_spec (Z.of_nat (historyIndex s))
              (Z.of_nat (length (history s)) - 1)); [|lia].
  now rewrite He.
Qed.

Lemma cur_undo_first (s : State) : historyIndex s = 0 -> undo s = s.
Proof. intros H. unfold undo. now rewrite H. Qed.

Lemma cur_redo_last (s : State) :
  length (history s) <= historyIndex s + 1 -> redo s = s.
Proof.
  intros H. unfold redo.
  destruct (Z.ltb_spec (Z.of_nat (historyIndex s))
              (Z.of_nat (length (history s)) - 1)); [lia|reflexivity].
Qed.

Lemma cur_at_some {A} (a : list A) (i : nat) :
  i < length a -> exists v, at_ a i = Some v.
Proof.
  intros H. unfold at_. destruct (nth_error a i) eqn:E; [eauto|].
  apply nth_error_None in E. lia.
Qed.

Lemma cur_inSync_lt (s : State) :
  inSync s -> historyIndex s < length (history s).
Proof.
  unfold inSync, at_. intros H. apply nth_error_Some. congruence.
Qed.

(** [undo] and [redo] read the history and the cursor only. *)
Lemma cur_undo_sameEditor (s t : State) :
  sameEditor s t -> sameEditor (undo s) (undo t).
Proof.
  intros (a & b & c & d). unfold undo. rewrite c, d.
  destruct (0 <? Z.of_nat (historyIndex t))%Z; [|now repeat split].
  destruct (at_ (history t) (historyIndex t - 1)); now repeat split.
Qed.

Lemma cur_redo_sameEditor (s t : State) :
  sameEditor s t -> sameEditor (redo s) (redo t).
Proof.
  intros (a & b & c & d). unfold redo. rewrite c, d.
  destruct (Z.of_nat (historyIndex t) <? _)%Z; [|now repeat split].
  destruct (at_ (history t) (historyIndex t + 1)); now repeat split.
Qed.

(** One undo, then one redo. *)
Lemma cur_redo_undo (s : State) :
  0 < historyIndex s -> inSync s -> sameEditor (redo (undo s)) s.
Proof.
  intros Hi Hs. pose proof (cur_inSync_lt s Hs) as Hlt.
  destruct (cur_at_some (history s) (historyIndex s - 1)) as [e He]; [lia|].
  rewrite (cur_undo_at s e Hi He).
  erewrite cur_redo_at.
  2:{ simpl. replace (historyIndex s - 1 + 1) with (historyIndex s) by lia.
      exact Hs. }
  unfold sameEditor. simpl.
  rewrite cur_jsonNodes_withCallback, cur_jsonNodes_idem, cur_jsonEdges_same.
  repeat split. lia.
Qed.

Lemma cur_undo_inSync (s : State) :
  0 < historyIndex s -> historyIndex s <= length (history s) ->
  Forall jsonClean (history s) ->
  inSync (undo s) /\ historyIndex (undo s) = historyIndex s - 1
  /\ history (undo s) = history s.
Proof.
  intros Hi Hlt Hc.
  destruct (cur_at_some (history s) (historyIndex s - 1)) as [e He]; [lia|].
  rewrite (cur_undo_at s e Hi He). unfold inSync. simpl.
  repeat split. rewrite He. f_equal.
  assert (Hin : In e (history s)) by (eapply nth_error_In; exact He).
  rewrite Forall_forall in Hc. specialize (Hc e Hin).
  unfold jsonClean in Hc. rewrite <- Hc at 1.
  unfold jsonCopy. now rewrite cur_jsonNodes_withCallback.
Qed.

(** [n] undos, then [n] redos, when the cursor is at least at [n]. *)
Lemma cur_redo_n_undo_n (n : nat) (s : State) :
  n <= historyIndex s -> inSync s -> Forall jsonClean (history s) ->
  sameEditor (iter n redo (iter n undo s)) s.
Proof.
  revert s. induction n as [|n IH]; intros s Hn Hs Hc.
  - apply cur_sameEditor_refl.
  - rewrite iter_succ_r. simpl.
    pose proof (cur_inSync_lt s Hs) as Hlt.
    destruct (cur_undo_inSync s) as (Hs' & Hi' & Hh'); [lia|lia|exact Hc|].
    eapply cur_sameEditor_trans.
    + apply cur_redo_sameEditor. apply IH.
      * lia.
      * exact Hs'.
      * now rewrite Hh'.
    + apply cur_redo_undo; [lia|exact Hs].
Qed.

Lemma cur_pushHistory_recorded (ns : list Node) (es : list Edge) (s : State) :
  skipHistoryRef s = false ->
  history (pushHistory ns es s)
    = slice0 (history s) (historyIndex s + 1) ++ [jsonCopy ns es]
  /\ historyIndex (pushHistory ns es s) = historyIndex s + 1
  /\ nodes (pushHistory ns es s) = nodes s
  /\ edges (pushHistory ns es s) = edges s
  /\ skipHistoryRef (pushHistory ns es s) = false.
Proof. intros H. unfold pushHistory. rewrite H. simpl. now repeat split. Qed.

Lemma cur_pushHistory_skipped (ns : list Node) (es : list Edge) (s : State) :
  skipHistoryRef s = true -> pushHistory ns es s = s.
Proof. intros H. unfold pushHistory. now rewrite H. Qed.


Lemma cur_relabel_at (i l : jsstring) (ns : list Node) (k : nat) (n : Node) :
  nth_error ns k = Some n ->
  nth_error (relabel i l ns) k
  = Some (if streq (id n) i then withLabel l n else n).
Proof.
  intros H. unfold relabel.
  exact (map_nth_error
           (fun node => if streq (id node) i then withLabel l node else node)
           k ns H).
Qed.


Lemma cur_redoStack_nil (s : State) :
  redoStack s = [] <-> length (history s) <= historyIndex s + 1.
Proof.
  unfold redoStack. split; intros H.
  - apply (f_equal (@length _)) in H. rewrite length_skipn in H.
    simpl in H. lia.
  - apply skipn_all2. lia.
Qed.

Section WithLib.
Context {L : ChangeLib}.

(** What a mutation handled by a prop records when it takes effect and
    the flag is clear: the copy of the diagram it leaves behind, after the
    entries up to the cursor. *)
Lemma cur_mutate_recorded (m : Mutation) (s : State) :
  takesEffect m = true -> fromProps m = true -> skipHistoryRef s = false ->
  history (mutate m s)
    = slice0 (history s) (historyIndex s + 1)
      ++ [jsonCopy (nodes (mutate m s)) (edges (mutate m s))]
  /\ historyIndex (mutate m s) = historyIndex s + 1
  /\ skipHistoryRef (mutate m s) = false.
Proof.
  intros Ht Hp Hk.
  destruct m as [ch|ch|p now|ev|c i v]; simpl in *.
  - unfold onNodesChange.
    destruct (cur_pushHistory_recorded (applyNodeChanges ch (nodes s))
                (edges s) s Hk) as (a & b & c & d & e).
    simpl. rewrite a, b, d, e. now repeat split.
  - unfold onEdgesChange.
    destruct (cur_pushHistory_recorded (nodes s)
                (applyEdgeChanges ch (edges s)) s Hk) as (a & b & c & d & e).
    simpl. rewrite a, b, c, e. now repeat split.
  - unfold onConnect.
    destruct (cur_pushHistory_recorded (nodes s)
                (addEdge (newEdge p now) (edges s)) s Hk)
      as (a & b & c & d & e).
    simpl. rewrite a, b, c, e. now repeat split.
  - unfold onDrop. destruct (droppedType ev) as [ty|]; [|discriminate].
    destruct (cur_pushHistory_recorded (nodes s ++ [droppedNode ty ev])
                (edges s) (setNodes (nodes s ++ [droppedNode ty ev]) s) Hk)
      as (a & b & c & d & e).
    rewrite a, b, c, d, e. simpl. now repeat split.
  - discriminate.
Qed.

(** While the flag is set a mutation changes the diagram and nothing
    else. *)
Lemma cur_mutate_skipped (m : Mutation) (s : State) :
  skipHistoryRef s = true ->
  history (mutate m s) = history s
  /\ historyIndex (mutate m s) = historyIndex s
  /\ skipHistoryRef (mutate m s) = true.
Proof.
  intros Hk.
  destruct m as [ch|ch|p now|ev|c i v]; simpl.
  - unfold onNodesChange. rewrite cur_pushHistory_skipped by exact Hk.
    simpl. auto.
  - unfold onEdgesChange. rewrite cur_pushHistory_skipped by exact Hk.
    simpl. auto.
  - unfold onConnect. rewrite cur_pushHistory_skipped by exact Hk.
    simpl. auto.
  - unfold onDrop. destruct (droppedType ev) as [ty|]; [|auto].
    rewrite cur_pushHistory_skipped by exact Hk. simpl. auto.
  - unfold InNode.handleLabelChange, InNode.pushHistory. rewrite Hk.
    simpl. auto.
Qed.

Lemma cur_mutate_redoStack (m : Mutation) (s : State) :
  takesEffect m = true -> fromProps m = true -> skipHistoryRef s = false ->
  redoStack (mutate m s) = [].
Proof.
  intros Ht Hp Hk.
  destruct (cur_mutate_recorded m s Ht Hp Hk) as (a & b & _).
  apply cur_redoStack_nil. rewrite a, b, length_app. unfold slice0. simpl.
  pose proof (firstn_le_length (historyIndex s + 1) (history s)). lia.
Qed.

Lemma cur_firstn_succ {A} (a : list A) (n : nat) (v : A) :
  nth_error a n = Some v -> firstn (S n) a = firstn n a ++ [v].
Proof.
  revert n. induction a as [|x a IH]; intros [|n] H; simpl in *;
    try discriminate.
  - now inversion H.
  - f_equal. now apply IH.
Qed.

(** Read as stacks: a recorded mutation moves the entry that was under the
    cursor onto the undo stack. *)
Lemma cur_mutate_undoStack (m : Mutation) (s : State) (e : HistoryEntry) :
  takesEffect m = true -> fromProps m = true -> skipHistoryRef s = false ->
  at_ (history s) (historyIndex s) = Some e ->
  undoStack (mutate m s) = undoStack s ++ [e].
Proof.
  intros Ht Hp Hk He.
  destruct (cur_mutate_recorded m s Ht Hp Hk) as (a & b & _).
  assert (Hlt : historyIndex s < length (history s)).
  { apply nth_error_Some. unfold at_ in He. congruence. }
  unfold undoStack. rewrite a, b. unfold slice0.
  rewrite firstn_app, firstn_firstn, Nat.min_id, length_firstn.
  replace (historyIndex s + 1 - Nat.min (historyIndex s + 1)
                                  (length (history s))) with 0 by lia.
  simpl. rewrite app_nil_r.
  replace (historyIndex s + 1) with (S (historyIndex s)) by lia.
  now apply cur_firstn_succ.
Qed.

Lemma cur_run_app (es fs : list Event) (s : State) :
  run (es ++ fs) s = run fs (run es s).
Proof. unfold run. apply fold_left_app. Qed.

Lemma cur_atTip_init : atTip init.
Proof.
  unfold atTip, inSync. simpl. repeat split.
  constructor; [reflexivity|constructor].
Qed.

Lemma cur_atTip_mutate (m : Mutation) (s : State) :
  takesEffect m = true -> fromProps m = true -> atTip s ->
  atTip (mutate m s) /\ historyIndex (mutate m s) = historyIndex s + 1.
Proof.
  intros Ht Hprop (Hk & Hl & Hs & Hc).
  destruct (cur_mutate_recorded m s Ht Hprop Hk) as (a & b & c).
  assert (Hp : slice0 (history s) (historyIndex s + 1) = history s).
  { unfold slice0. apply firstn_all2. lia. }
  rewrite Hp in a.
  split; [|exact b]. unfold atTip, inSync. rewrite a, b, c.
  repeat split.
  - rewrite length_app. simpl. lia.
  - unfold at_. rewrite nth_error_app2 by lia.
    replace (historyIndex s + 1 - length (history s)) with 0 by lia.
    reflexivity.
  - apply Forall_app. split; [exact Hc|].
    constructor; [apply cur_jsonCopy_clean|constructor].
Qed.

Lemma cur_atTip_run (ms : list Mutation) (s : State) :
  forallb takesEffect ms = true -> forallb fromProps ms = true -> atTip s ->
  atTip (run (map Mutate ms) s)
  /\ historyIndex (run (map Mutate ms) s) = historyIndex s + length ms.
Proof.
  revert s. induction ms as [|m ms IH]; intros s Hall Hprops Ht; simpl.
  - split; [exact Ht|lia].
  - simpl in Hall. apply andb_prop in Hall as [Hm Hall].
    simpl in Hprops. apply andb_prop in Hprops as [Hp Hprops].
    destruct (cur_atTip_mutate m s Hm Hp Ht) as (Ht' & Hi').
    change (run (Mutate m :: map Mutate ms) s)
      with (run (map Mutate ms) (mutate m s)).
    destruct (IH (mutate m s) Hall Hprops Ht') as (Ht'' & Hi'').
    split; [exact Ht''|]. rewrite Hi'', Hi'. lia.
Qed.

End WithLib.

End CursorFacts.


(* ------------------------------------------------------------------ *)
(** ** The object store *)

Module MemFacts.
Import Js JsFacts Mem.

Lemma read_old {A} (h x : store A) (r : ref) :
  valid h r -> read (h ++ x) r = read h r.
Proof. intros H. unfold read. now apply app_nth1. Qed.

Lemma read_new {A} (h : store A) (a : list A) :
  read (h ++ [a]) (length h) = a.
Proof. unfold read. rewrite app_nth2 by lia. now rewrite Nat.sub_diag. Qed.

Lemma valid_grow {A} (h x : store A) (r : ref) :
  valid h r -> valid (h ++ x) r.
Proof. unfold valid. rewrite length_app. lia. Qed.

Lemma valid_new {A} (h : store A) (a : list A) :
  valid (h ++ [a]) (length h).
Proof. unfold valid. rewrite length_app. simpl. lia. Qed.

Lemma keep_grows {A} (h : store A) (r : ref) (res : Returned A) :
  exists x, fst (keep h r res) = h ++ x.
Proof.
  destruct res as [|a]; simpl.
  - exists []. now rewrite app_nil_r.
  - now exists [a].
Qed.

Lemma keep_elements {A} (h : store A) (r : ref) (res : Returned A) :
  valid h r ->
  read (fst (keep h r res)) (snd (keep h r res)) = elements (read h r) res.
Proof.
  intros Hr. destruct res as [|a]; simpl; [reflexivity|apply read_new].
Qed.

Lemma keep_valid {A} (h : store A) (r : ref) (res : Returned A) :
  valid h r -> valid (fst (keep h r res)) (snd (keep h r res)).
Proof.
  intros Hr. destruct res as [|a]; simpl; [exact Hr|apply valid_new].
Qed.

Lemma keep_ref {A} (h : store A) (r : ref) (res : Returned A) :
  snd (keep h r res) = r \/ snd (keep h r res) = length h.
Proof. destruct res; simpl; auto. Qed.

Lemma pop_map {A B} (f : A -> B) (a : list A) :
  pop (map f a) = (option_map f (fst (pop a)), map f (snd (pop a))).
Proof.
  unfold pop. rewrite <- map_rev. destruct (rev a) as [|v r]; simpl.
  - reflexivity.
  - now rewrite map_rev.
Qed.

Lemma extends_refl {A} (h : store A) : extends h h.
Proof. exists []. now rewrite app_nil_r. Qed.

Lemma extends_app {A} (h x : store A) : extends h (h ++ x).
Proof. now exists x. Qed.

Lemma extends_trans {A} (h1 h2 h3 : store A) :
  extends h1 h2 -> extends h2 h3 -> extends h1 h3.
Proof.
  intros [x ->] [y ->]. exists (x ++ y). now rewrite app_assoc.
Qed.

Lemma extends_read {A} (h h' : store A) (r : ref) :
  extends h h' -> valid h r -> read h' r = read h r.
Proof. intros [x ->]. apply read_old. Qed.

Lemma extends_valid {A} (h h' : store A) (r : ref) :
  extends h h' -> valid h r -> valid h' r.
Proof. intros [x ->]. apply valid_grow. Qed.

Lemma keep_extends {A} (h : store A) (r : ref) (res : Returned A) :
  extends h (fst (keep h r res)).
Proof. destruct (keep_grows h r res) as [x ->]. apply extends_app. Qed.

(** The references of a timeline after a recorded change: the entries
    before the live one, the new copy [c], and the live array, which is the
    old one or a newer one. *)
Lemma timeline_after_push (before after : list ref) (n c n' : ref)
    (bound bound' : nat) :
  NoDup (before ++ n :: after) ->
  Forall (fun r => r < bound) (before ++ n :: after) ->
  c = bound -> bound < bound' -> n' < bound' ->
  (n' = n \/ bound < n') ->
  NoDup (before ++ [c; n'])
  /\ Forall (fun r => r < bound') (before ++ [c; n']).
Proof.
  intros Hnd Hv -> Hlt Hn'lt Hn'.
  assert (Hb : NoDup before) by (eapply NoDup_app_remove_r; exact Hnd).
  assert (Hnb : ~ In n before).
  { intros Hin. apply NoDup_remove_2 in Hnd. apply Hnd.
    apply in_or_app. now left. }
  rewrite Forall_app in Hv. destruct Hv as [Hvb Hvn].
  apply Forall_inv in Hvn as Hvn0.
  rewrite Forall_forall in Hvb.
  split.
  - apply NoDup_app; [exact Hb| |].
    + constructor; [|constructor; [intros []|constructor]].
      intros [E | []]. destruct Hn' as [-> | Hn']; lia.
    + intros a Ha [<- | [<- | []]].
      * apply Hvb in Ha. lia.
      * destruct Hn' as [-> | Hn']; [contradiction|].
        apply Hvb in Ha. lia.
  - apply Forall_app. split.
    + apply Forall_forall. intros a Ha. apply Hvb in Ha. lia.
    + constructor; [lia|]. constructor; [exact Hn'lt|constructor].
Qed.

End MemFacts.

(* ------------------------------------------------------------------ *)
(** ** The two-stack editor over the object store: sharing *)

Module TwoStackMemFacts.
Import Js JsFacts Mem MemFacts TwoStackMem.

Lemma tsm_pushToHistory_fields (s : State) :
  nodeArrays (pushToHistory s)
    = nodeArrays s
      ++ [map TwoStack.jsonNode (read (nodeArrays s) (nodes s))]
  /\ edgeArrays (pushToHistory s)
     = edgeArrays s
       ++ [map TwoStack.jsonEdge (read (edgeArrays s) (edges s))]
  /\ nodes (pushToHistory s) = nodes s
  /\ edges (pushToHistory s) = edges s
  /\ historyRef (pushToHistory s)
     = push (historyRef s)
         {| snap_nodes := length (nodeArrays s);
            snap_edges := length (edgeArrays s) |}
  /\ redoRef (pushToHistory s) = [].
Proof. unfold pushToHistory. simpl. repeat split. Qed.

Lemma tsm_setNodes_fields (f : list Node -> Returned Node) (s : State) :
  let k := keep (nodeArrays s) (nodes s) (f (read (nodeArrays s) (nodes s)))
  in
  nodeArrays (setNodes f s) = fst k
  /\ nodes (setNodes f s) = snd k
  /\ edgeArrays (setNodes f s) = edgeArrays s
  /\ edges (setNodes f s) = edges s
  /\ historyRef (setNodes f s) = historyRef s
  /\ redoRef (setNodes f s) = redoRef s.
Proof.
  unfold setNodes.
  destruct (keep (nodeArrays s) (nodes s) (f (read (nodeArrays s) (nodes s))))
    as [hn r]. simpl. repeat split.
Qed.

Lemma tsm_setEdges_fields (f : list Edge -> Returned Edge) (s : State) :
  let k := keep (edgeArrays s) (edges s) (f (read (edgeArrays s) (edges s)))
  in
  edgeArrays (setEdges f s) = fst k
  /\ edges (setEdges f s) = snd k
  /\ nodeArrays (setEdges f s) = nodeArrays s
  /\ nodes (setEdges f s) = nodes s
  /\ historyRef (setEdges f s) = historyRef s
  /\ redoRef (setEdges f s) = redoRef s.
Proof.
  unfold setEdges.
  destruct (keep (edgeArrays s) (edges s) (f (read (edgeArrays s) (edges s))))
    as [he r]. simpl. repeat split.
Qed.

Lemma tsm_handleUndo_push (s : State) (r : list Snapshot) (v : Snapshot) :
  historyRef s = push r v ->
  handleUndo s =
    {| nodeArrays := nodeArrays s; edgeArrays := edgeArrays s;
       nodes := snap_nodes v; edges := snap_edges v; historyRef := r;
       redoRef := push (redoRef s)
                    {| snap_nodes := nodes s; snap_edges := edges s |} |}.
Proof. intros H. unfold handleUndo. now rewrite H, pop_push. Qed.

Lemma tsm_handleRedo_push (s : State) (r : list Snapshot) (v : Snapshot) :
  redoRef s = push r v ->
  handleRedo s =
    {| nodeArrays := nodeArrays s; edgeArrays := edgeArrays s;
       nodes := snap_nodes v; edges := snap_edges v;
       historyRef := push (historyRef s)
                       {| snap_nodes := nodes s; snap_edges := edges s |};
       redoRef := r |}.
Proof. intros H. unfold handleRedo. now rewrite H, pop_push. Qed.

Lemma tsm_handleUndo_empty (s : State) : historyRef s = [] -> handleUndo s = s.
Proof.
  intros H. unfold handleUndo. rewrite H, pop_nil.
  destruct s; simpl in *; now subst.
Qed.

Lemma tsm_handleRedo_empty (s : State) : redoRef s = [] -> handleRedo s = s.
Proof.
  intros H. unfold handleRedo. rewrite H, pop_nil.
  destruct s; simpl in *; now subst.
Qed.

(** Undo and redo move the cursor along the timelines and change neither
    the timelines nor the store. *)
Lemma tsm_handleUndo_timeline (s : State) :
  nodeTimeline (handleUndo s) = nodeTimeline s
  /\ edgeTimeline (handleUndo s) = edgeTimeline s
  /\ nodeArrays (handleUndo s) = nodeArrays s
  /\ edgeArrays (handleUndo s) = edgeArrays s.
Proof.
  destruct (historyRef s) as [|e h] eqn:E.
  - rewrite tsm_handleUndo_empty by exact E. repeat split.
  - assert (Hne : historyRef s <> []) by (rewrite E; discriminate).
    destruct (last_split _ Hne) as (r & v & Hr).
    rewrite (tsm_handleUndo_push s r v Hr).
    unfold nodeTimeline, edgeTimeline. simpl. rewrite Hr. unfold push.
    rewrite !map_app, !rev_app_distr. simpl.
    rewrite <- !app_assoc. repeat split.
Qed.

Lemma tsm_handleRedo_timeline (s : State) :
  nodeTimeline (handleRedo s) = nodeTimeline s
  /\ edgeTimeline (handleRedo s) = edgeTimeline s
  /\ nodeArrays (handleRedo s) = nodeArrays s
  /\ edgeArrays (handleRedo s) = edgeArrays s.
Proof.
  destruct (redoRef s) as [|e h] eqn:E.
  - rewrite tsm_handleRedo_empty by exact E. repeat split.
  - assert (Hne : redoRef s <> []) by (rewrite E; discriminate).
    destruct (last_split _ Hne) as (r & v & Hr).
    rewrite (tsm_handleRedo_push s r v Hr).
    unfold nodeTimeline, edgeTimeline. simpl. rewrite Hr. unfold push.
    rewrite !map_app, !rev_app_distr. simpl.
    rewrite <- !app_assoc. repeat split.
Qed.

Lemma tsm_separate_init : separate init.
Proof.
  unfold separate, nodeTimeline, edgeTimeline, valid. simpl.
  repeat split; repeat constructor; auto.
Qed.

Lemma tsm_separate_valid (s : State) :
  separate s ->
  valid (nodeArrays s) (nodes s)
  /\ valid (edgeArrays s) (edges s)
  /\ (forall p, In p (historyRef s ++ redoRef s) ->
        valid (nodeArrays s) (snap_nodes p)
        /\ valid (edgeArrays s) (snap_edges p)).
Proof.
  intros (_ & Hvn & _ & Hve).
  unfold nodeTimeline in Hvn. unfold edgeTimeline in Hve.
  rewrite Forall_forall in Hvn, Hve.
  split; [|split].
  - apply Hvn. apply in_or_app. right. now left.
  - apply Hve. apply in_or_app. right. now left.
  - intros p Hp. apply in_app_or in Hp as [Hp | Hp].
    + split; [apply Hvn|apply Hve]; apply in_or_app; left;
        now apply in_map.
    + split; [apply Hvn|apply Hve]; apply in_or_app; right; right;
        apply -> in_rev; now apply in_map.
Qed.

(** No snapshot of either stack holds an array of the live diagram, and no
    two snapshots hold the same array. *)
Lemma tsm_separate_live (s : State) :
  separate s ->
  forall p, In p (historyRef s ++ redoRef s) ->
    snap_nodes p <> nodes s /\ snap_edges p <> edges s.
Proof.
  intros (Hn & _ & He & _) p Hp.
  unfold nodeTimeline in Hn. unfold edgeTimeline in He.
  apply NoDup_remove_2 in Hn. apply NoDup_remove_2 in He.
  split; intros E.
  - apply Hn. rewrite <- E. apply in_app_or in Hp as [Hp | Hp];
      apply in_or_app; [left|right]; [|apply -> in_rev]; now apply in_map.
  - apply He. rewrite <- E. apply in_app_or in Hp as [Hp | Hp];
      apply in_or_app; [left|right]; [|apply -> in_rev]; now apply in_map.
Qed.

(** The live reference of a timeline is in the store. *)
Lemma tsm_live_valid (before after : list ref) (n bound : nat) :
  Forall (fun r => r < bound) (before ++ n :: after) -> n < bound.
Proof.
  intros H. rewrite Forall_app in H. destruct H as [_ H].
  now apply Forall_inv in H.
Qed.

Ltac tsm_bounds :=
  repeat match goal with
         | H : Forall _ (_ ++ _ :: _) |- _ =>
             apply tsm_live_valid in H; unfold valid in H
         end;
  unfold valid; rewrite ?length_app; simpl; lia.

Ltac tsm_stores :=
  repeat split; try assumption;
  (eapply Forall_impl; [|eassumption]); intros ? ?;
  unfold valid; rewrite ?length_app; cbv beta in *; simpl; lia.

Lemma tsm_setNodes_separate (f : list Node -> Returned Node) (s : State) :
  separate s -> separate (setNodes f (pushToHistory s)).
Proof.
  intros (Hn & Hvn & He & Hve).
  unfold nodeTimeline in Hn, Hvn. unfold edgeTimeline in He, Hve.
  assert (C : NoDup (map snap_edges (historyRef s)
                     ++ [length (edgeArrays s); edges s])
              /\ Forall (fun r => r < S (length (edgeArrays s)))
                   (map snap_edges (historyRef s)
                    ++ [length (edgeArrays s); edges s])).
  { apply (timeline_after_push _ _ _ _ _ _ _ He Hve eq_refl);
      [lia|tsm_bounds|now left]. }
  destruct C as (C & D).
  unfold setNodes, pushToHistory. simpl.
  destruct (f _) as [|a]; simpl;
    unfold separate, nodeTimeline, edgeTimeline; simpl;
    unfold push; rewrite !map_app; simpl; rewrite <- !app_assoc; simpl.
  - destruct (timeline_after_push _ _ _ (length (nodeArrays s)) (nodes s)
                (length (nodeArrays s)) (S (length (nodeArrays s)))
                Hn Hvn eq_refl) as (A & B);
      [lia|tsm_bounds|now left|].
    tsm_stores.
  - destruct (timeline_after_push _ _ _ (length (nodeArrays s))
                (length (nodeArrays s ++ [map TwoStack.jsonNode
                           (read (nodeArrays s) (nodes s))]))
                (length (nodeArrays s)) (S (S (length (nodeArrays s))))
                Hn Hvn eq_refl) as (A & B);
      [lia|tsm_bounds|right; tsm_bounds|].
    tsm_stores.
Qed.

Lemma tsm_setEdges_separate (g : list Edge -> Returned Edge) (s : State) :
  separate s -> separate (setEdges g (pushToHistory s)).
Proof.
  intros (Hn & Hvn & He & Hve).
  unfold nodeTimeline in Hn, Hvn. unfold edgeTimeline in He, Hve.
  assert (A : NoDup (map snap_nodes (historyRef s)
                     ++ [length (nodeArrays s); nodes s])
              /\ Forall (fun r => r < S (length (nodeArrays s)))
                   (map snap_nodes (historyRef s)
                    ++ [length (nodeArrays s); nodes s])).
  { apply (timeline_after_push _ _ _ _ _ _ _ Hn Hvn eq_refl);
      [lia|tsm_bounds|now left]. }
  destruct A as (A & B).
  unfold setEdges, pushToHistory. simpl.
  destruct (g _) as [|a]; simpl;
    unfold separate, nodeTimeline, edgeTimeline; simpl;
    unfold push; rewrite !map_app; simpl; rewrite <- !app_assoc; simpl.
  - destruct (timeline_after_push _ _ _ (length (edgeArrays s)) (edges s)
                (length (edgeArrays s)) (S (length (edgeArrays s)))
                He Hve eq_refl) as (C & D);
      [lia|tsm_bounds|now left|].
    tsm_stores.
  - destruct (timeline_after_push _ _ _ (length (edgeArrays s))
                (length (edgeArrays s ++ [map TwoStack.jsonEdge
                           (read (edgeArrays s) (edges s))]))
                (length (edgeArrays s)) (S (S (length (edgeArrays s))))
                He Hve eq_refl) as (C & D);
      [lia|tsm_bounds|right; tsm_bounds|].
    tsm_stores.
Qed.

Lemma tsm_snapshots_old (s : State) (hn : store Node) (he : store Edge)
    (xn : store Node) (xe : store Edge) (l : list Snapshot) :
  (forall p, In p l ->
     valid hn (snap_nodes p) /\ valid he (snap_edges p)) ->
  map (fun p => {| TwoStack.snap_nodes := read (hn ++ xn) (snap_nodes p);
                   TwoStack.snap_edges := read (he ++ xe) (snap_edges p) |})
      l
  = map (fun p => {| TwoStack.snap_nodes := read hn (snap_nodes p);
                     TwoStack.snap_edges := read he (snap_edges p) |}) l.
Proof.
  intros H. apply map_ext_in. intros p Hp. destruct (H p Hp) as [Hn He].
  now rewrite !read_old.
Qed.

(** A node update after [pushToHistory], on values. *)
Lemma tsm_setNodes_value (f : list Node -> Returned Node) (s : State) :
  separate s ->
  value (setNodes f (pushToHistory s))
  = TwoStack.setNodes (fun nds => elements nds (f nds))
      (TwoStack.pushToHistory (value s)).
Proof.
  intros Hs. destruct (tsm_separate_valid s Hs) as (Hn & He & Hp).
  assert (Hh : forall p, In p (historyRef s) ->
             valid (nodeArrays s) (snap_nodes p)
             /\ valid (edgeArrays s) (snap_edges p)).
  { intros p Hin. apply Hp. apply in_or_app. now left. }
  unfold setNodes, pushToHistory. simpl.
  rewrite (read_old (nodeArrays s) _ (nodes s)) by exact Hn.
  destruct (f (read (nodeArrays s) (nodes s))) as [|a] eqn:Ef;
    unfold value, TwoStack.setNodes, TwoStack.pushToHistory, snapshotValue;
    simpl; rewrite Ef; simpl; unfold push; rewrite map_app; simpl.
  - rewrite !read_old by assumption. rewrite !read_new.
    f_equal. f_equal.
    exact (tsm_snapshots_old s _ _ _ _ _ Hh).
  - rewrite (read_old (edgeArrays s) _ (edges s)) by exact He.
    rewrite read_new.
    rewrite (read_old _ [a]) by apply valid_new.
    rewrite !read_new.
    f_equal. f_equal. rewrite <- app_assoc.
    exact (tsm_snapshots_old s _ _ _ _ _ Hh).
Qed.

(** An edge update after [pushToHistory], on values. *)
Lemma tsm_setEdges_value (g : list Edge -> Returned Edge) (s : State) :
  separate s ->
  value (setEdges g (pushToHistory s))
  = TwoStack.setEdges (fun eds => elements eds (g eds))
      (TwoStack.pushToHistory (value s)).
Proof.
  intros Hs. destruct (tsm_separate_valid s Hs) as (Hn & He & Hp).
  assert (Hh : forall p, In p (historyRef s) ->
             valid (nodeArrays s) (snap_nodes p)
             /\ valid (edgeArrays s) (snap_edges p)).
  { intros p Hin. apply Hp. apply in_or_app. now left. }
  unfold setEdges, pushToHistory. simpl.
  rewrite (read_old (edgeArrays s) _ (edges s)) by exact He.
  destruct (g (read (edgeArrays s) (edges s))) as [|a] eqn:Eg;
    unfold value, TwoStack.setEdges, TwoStack.pushToHistory, snapshotValue;
    simpl; rewrite Eg; simpl; unfold push; rewrite map_app; simpl.
  - rewrite !read_old by assumption. rewrite !read_new.
    f_equal. f_equal.
    exact (tsm_snapshots_old s _ _ _ _ _ Hh).
  - rewrite (read_old (nodeArrays s) _ (nodes s)) by exact Hn.
    rewrite read_new.
    rewrite (read_old _ [a]) by apply valid_new.
    rewrite !read_new.
    f_equal. f_equal. rewrite <- app_assoc.
    exact (tsm_snapshots_old s _ _ _ _ _ Hh).
Qed.

Lemma tsm_handleUndo_value (s : State) :
  value (handleUndo s) = TwoStack.handleUndo (value s).
Proof.
  destruct (historyRef s) as [|e h] eqn:E.
  - rewrite tsm_handleUndo_empty by exact E.
    rewrite TwoStackFacts.ts_handleUndo_empty; [reflexivity|].
    simpl. now rewrite E.
  - assert (Hne : historyRef s <> []) by (rewrite E; discriminate).
    destruct (last_split _ Hne) as (r & v & Hr).
    rewrite (tsm_handleUndo_push s r v Hr).
    rewrite (TwoStackFacts.ts_handleUndo_push (value s)
               (map (snapshotValue s) r) (snapshotValue s v)).
    + unfold value, snapshotValue, push. simpl. now rewrite map_app.
    + simpl. rewrite Hr. unfold push. now rewrite map_app.
Qed.

Lemma tsm_handleRedo_value (s : State) :
  value (handleRedo s) = TwoStack.handleRedo (value s).
Proof.
  destruct (redoRef s) as [|e h] eqn:E.
  - rewrite tsm_handleRedo_empty by exact E.
    rewrite TwoStackFacts.ts_handleRedo_empty; [reflexivity|].
    simpl. now rewrite E.
  - assert (Hne : redoRef s <> []) by (rewrite E; discriminate).
    destruct (last_split _ Hne) as (r & v & Hr).
    rewrite (tsm_handleRedo_push s r v Hr).
    rewrite (TwoStackFacts.ts_handleRedo_push (value s)
               (map (snapshotValue s) r) (snapshotValue s v)).
    + unfold value, snapshotValue, push. simpl. now rewrite map_app.
    + simpl. rewrite Hr. unfold push. now rewrite map_app.
Qed.

Lemma tsm_handleUndo_separate (s : State) :
  separate s -> separate (handleUndo s).
Proof.
  destruct (tsm_handleUndo_timeline s) as (a & b & c & d).
  unfold separate. now rewrite a, b, c, d.
Qed.

Lemma tsm_handleRedo_separate (s : State) :
  separate s -> separate (handleRedo s).
Proof.
  destruct (tsm_handleRedo_timeline s) as (a & b & c & d).
  unfold separate. now rewrite a, b, c, d.
Qed.

Section WithLib.
Context {AL : ArrayLib}.

(** Every mutation is [pushToHistory] followed by one state update. *)
Lemma tsm_mutate_shape (m : @TwoStack.Mutation (valueLib AL)) (s : State) :
  (exists f, mutate m s = setNodes f (pushToHistory s))
  \/ (exists g, mutate m s = setEdges g (pushToHistory s)).
Proof.
  destruct m as [ch|ch|c u|sh u p|i l].
  - left. eexists. reflexivity.
  - right. eexists. reflexivity.
  - right. eexists. reflexivity.
  - left. eexists. reflexivity.
  - left. eexists. reflexivity.
Qed.

Lemma tsm_mutate_separate (m : @TwoStack.Mutation (valueLib AL))
    (s : State) :
  separate s -> separate (mutate m s).
Proof.
  intros Hs. destruct (tsm_mutate_shape m s) as [[f ->] | [g ->]].
  - now apply tsm_setNodes_separate.
  - now apply tsm_setEdges_separate.
Qed.

Lemma tsm_handle_separate (e : @TwoStack.Event (valueLib AL)) (s : State) :
  separate s -> separate (handle e s).
Proof.
  destruct e as [m| |]; simpl.
  - apply tsm_mutate_separate.
  - apply tsm_handleUndo_separate.
  - apply tsm_handleRedo_separate.
Qed.

Lemma tsm_run_separate (es : list (@TwoStack.Event (valueLib AL)))
    (s : State) :
  separate s -> separate (run es s).
Proof.
  revert s. induction es as [|e es IH]; intros s Hs; [exact Hs|].
  apply (IH (handle e s)). now apply tsm_handle_separate.
Qed.

(** The store only grows: no handler writes into an array it holds. *)
Lemma tsm_handle_grows (e : @TwoStack.Event (valueLib AL)) (s : State) :
  exists xn xe,
    nodeArrays (handle e s) = nodeArrays s ++ xn
    /\ edgeArrays (handle e s) = edgeArrays s ++ xe.
Proof.
  destruct e as [m| |]; simpl.
  - destruct (tsm_mutate_shape m s) as [[f ->] | [g ->]].
    + unfold setNodes, pushToHistory. simpl.
      destruct (f _) as [|a]; simpl.
      * eexists; eexists; split; reflexivity.
      * eexists; eexists; split; [|reflexivity].
        rewrite <- app_assoc. reflexivity.
    + unfold setEdges, pushToHistory. simpl.
      destruct (g _) as [|a]; simpl.
      * eexists; eexists; split; reflexivity.
      * eexists; eexists; split; [reflexivity|].
        rewrite <- app_assoc. reflexivity.
  - destruct (tsm_handleUndo_timeline s) as (_ & _ & c & d).
    exists [], []. now rewrite c, d, !app_nil_r.
  - destruct (tsm_handleRedo_timeline s) as (_ & _ & c & d).
    exists [], []. now rewrite c, d, !app_nil_r.
Qed.

(** The editor over the store does what the editor on values does. *)
Lemma tsm_handle_value (e : @TwoStack.Event (valueLib AL)) (s : State) :
  separate s -> value (handle e s) = TwoStack.handle e (value s).
Proof.
  intros Hs. destruct e as [m| |]; simpl.
  - destruct m as [ch|ch|c u|sh u p|i l]; simpl.
    + apply (tsm_setNodes_value _ s Hs).
    + apply (tsm_setEdges_value _ s Hs).
    + apply (tsm_setEdges_value
               (fun eds => NewArray (eds ++ [TwoStack.newEdge c u])) s Hs).
    + apply (tsm_setNodes_value
               (fun nds => NewArray (nds ++ [TwoStack.newNode sh u p]))
               s Hs).
    + apply (tsm_setNodes_value
               (fun nds => NewArray (TwoStack.relabel i l nds)) s Hs).
  - apply tsm_handleUndo_value.
  - apply tsm_handleRedo_value.
Qed.

(** What a mutation pushes is a pair of arrays that were not in the store
    before, holding the copies of the live arrays. *)
Lemma tsm_mutate_pushes_copy (m : @TwoStack.Mutation (valueLib AL))
    (s : State) :
  separate s ->
  exists p,
    historyRef (mutate m s) = push (historyRef s) p
    /\ snap_nodes p = length (nodeArrays s)
    /\ snap_edges p = length (edgeArrays s)
    /\ read (nodeArrays (mutate m s)) (snap_nodes p)
       = map TwoStack.jsonNode (read (nodeArrays s) (nodes s))
    /\ read (edgeArrays (mutate m s)) (snap_edges p)
       = map TwoStack.jsonEdge (read (edgeArrays s) (edges s)).
Proof.
  intros Hs.
  exists {| snap_nodes := length (nodeArrays s);
            snap_edges := length (edgeArrays s) |}.
  destruct (tsm_mutate_shape m s) as [[f ->] | [g ->]].
  - unfold setNodes, pushToHistory. simpl.
    destruct (f _) as [|a]; simpl; repeat split;
      rewrite ?(read_old _ [a]) by apply valid_new; apply read_new.
  - unfold setEdges, pushToHistory. simpl.
    destruct (g _) as [|a]; simpl; repeat split;
      rewrite ?(read_old _ [a]) by apply valid_new; apply read_new.
Qed.

Lemma tsm_run_extends (es : list (@TwoStack.Event (valueLib AL)))
    (s : State) :
  extends (nodeArrays s) (nodeArrays (run es s))
  /\ extends (edgeArrays s) (edgeArrays (run es s)).
Proof.
  revert s. induction es as [|e es IH]; intros s.
  - split; apply extends_refl.
  - destruct (tsm_handle_grows e s) as (xn & xe & Gn & Ge).
    destruct (IH (handle e s)) as (Gn' & Ge').
    split; (eapply extends_trans; [|eassumption]).
    + exists xn. exact Gn.
    + exists xe. exact Ge.
Qed.

(** Whatever happens later, a snapshot of either stack keeps its
    content. *)
Lemma tsm_run_frame (later : list (@TwoStack.Event (valueLib AL)))
    (s : State) (p : Snapshot) :
  separate s -> In p (historyRef s ++ redoRef s) ->
  snapshotValue (run later s) p = snapshotValue s p.
Proof.
  intros Hs Hp. destruct (tsm_run_extends later s) as (Gn & Ge).
  destruct (tsm_separate_valid s Hs) as (_ & _ & Hv).
  destruct (Hv p Hp) as [Hpn Hpe]. unfold snapshotValue.
  now rewrite (extends_read _ _ _ Gn Hpn), (extends_read _ _ _ Ge Hpe).
Qed.

End WithLib.

End TwoStackMemFacts.

(* ------------------------------------------------------------------ *)
(** ** The cursor editor over the object store: sharing *)

Module CursorMemFacts.
Import Js JsFacts Mem MemFacts CursorMem.

Lemma cm_firstn_in {A} (n : nat) (l : list A) (x : A) :
  In x (firstn n l) -> In x l.
Proof.
  intros H. rewrite <- (firstn_skipn n l). apply in_or_app. now left.
Qed.

Lemma cm_inStore_init : inStore init.
Proof.
  unfold inStore, valid. simpl.
  split; [lia|]. split; [lia|].
  constructor; [simpl; lia|constructor].
Qed.

Lemma cm_entries_old (hn xn : store Node) (he xe : store Edge)
    (l : list HistoryEntry) :
  Forall (fun p => valid hn (entry_nodes p) /\ valid he (entry_edges p)) l ->
  map (fun p => {| Cursor.entry_nodes := read (hn ++ xn) (entry_nodes p);
                   Cursor.entry_edges := read (he ++ xe) (entry_edges p) |})
      l
  = map (fun p => {| Cursor.entry_nodes := read hn (entry_nodes p);
                     Cursor.entry_edges := read he (entry_edges p) |}) l.
Proof.
  intros H. rewrite Forall_forall in H.
  apply map_ext_in. intros p Hp. destruct (H p Hp) as [Hn He].
  now rewrite !read_old.
Qed.

Lemma cm_entries_valid_grow (hn xn : store Node) (he xe : store Edge)
    (l : list HistoryEntry) :
  Forall (fun p => valid hn (entry_nodes p) /\ valid he (entry_edges p)) l ->
  Forall (fun p => valid (hn ++ xn) (entry_nodes p)
                   /\ valid (he ++ xe) (entry_edges p)) l.
Proof.
  apply Forall_impl. intros p [Hn He]. split; now apply valid_grow.
Qed.

(** Growing the stores changes neither validity nor the values. *)
Lemma cm_withStores_inStore (hn : store Node) (he : store Edge) (s : State) :
  inStore s -> extends (nodeArrays s) hn -> extends (edgeArrays s) he ->
  inStore (withStores hn he s).
Proof.
  intros (Hn & He & Hh) [xn ->] [xe ->]. unfold inStore. simpl.
  split; [now apply valid_grow|]. split; [now apply valid_grow|].
  now apply cm_entries_valid_grow.
Qed.

Lemma cm_withStores_value (hn : store Node) (he : store Edge) (s : State) :
  inStore s -> extends (nodeArrays s) hn -> extends (edgeArrays s) he ->
  value (withStores hn he s) = value s.
Proof.
  intros (Hn & He & Hh) [xn ->] [xe ->]. unfold value, entryValue. simpl.
  rewrite !read_old by assumption.
  now rewrite (cm_entries_old _ _ _ _ _ Hh).
Qed.

Lemma cm_setNodes_inStore (r : ref) (s : State) :
  inStore s -> valid (nodeArrays s) r -> inStore (setNodes r s).
Proof. intros (Hn & He & Hh) Hr. unfold inStore. simpl. auto. Qed.

Lemma cm_setEdges_inStore (r : ref) (s : State) :
  inStore s -> valid (edgeArrays s) r -> inStore (setEdges r s).
Proof. intros (Hn & He & Hh) Hr. unfold inStore. simpl. auto. Qed.

Lemma cm_setNodes_value (r : ref) (s : State) :
  value (setNodes r s) = Cursor.setNodes (read (nodeArrays s) r) (value s).
Proof. reflexivity. Qed.

Lemma cm_setEdges_value (r : ref) (s : State) :
  value (setEdges r s) = Cursor.setEdges (read (edgeArrays s) r) (value s).
Proof. reflexivity. Qed.

Lemma cm_pushHistory_grows (rn re : ref) (s : State) :
  extends (nodeArrays s) (nodeArrays (pushHistory rn re s))
  /\ extends (edgeArrays s) (edgeArrays (pushHistory rn re s)).
Proof.
  unfold pushHistory. destruct (skipHistoryRef s); simpl.
  - split; apply extends_refl.
  - split; apply extends_app.
Qed.

Lemma cm_pushHistory_inStore (rn re : ref) (s : State) :
  inStore s -> inStore (pushHistory rn re s).
Proof.
  intros (Hn & He & Hh). unfold pushHistory.
  destruct (skipHistoryRef s); [now repeat split|].
  unfold inStore. simpl.
  split; [now apply valid_grow|]. split; [now apply valid_grow|].
  apply Forall_app. split.
  - apply cm_entries_valid_grow. unfold slice0.
    rewrite Forall_forall in *. intros p Hp. apply Hh.
    now apply cm_firstn_in in Hp.
  - constructor; [|constructor]. simpl. split; apply valid_new.
Qed.

Lemma cm_pushHistory_value (rn re : ref) (s : State) :
  inStore s ->
  value (pushHistory rn re s)
  = Cursor.pushHistory (read (nodeArrays s) rn) (read (edgeArrays s) re)
      (value s).
Proof.
  intros (Hn & He & Hh). unfold pushHistory, Cursor.pushHistory. simpl.
  destruct (skipHistoryRef s) eqn:Ek; [reflexivity|].
  unfold value, entryValue. simpl. rewrite ?Ek.
  rewrite !(read_old _ _ (nodes s)), !(read_old _ _ (edges s))
    by assumption.
  f_equal. rewrite map_app. simpl. rewrite !read_new.
  unfold slice0. rewrite firstn_map. f_equal.
  apply cm_entries_old.
  rewrite Forall_forall in *. intros p Hp. apply Hh.
  now apply cm_firstn_in in Hp.
Qed.

Lemma cm_pushHistory_live (rn re : ref) (s : State) :
  nodes (pushHistory rn re s) = nodes s
  /\ edges (pushHistory rn re s) = edges s.
Proof. unfold pushHistory. now destruct (skipHistoryRef s). Qed.

(** [undo] and [redo]: the live edge array is the array of the entry the
    cursor moves to. *)
Lemma cm_undo_at (s : State) (e : HistoryEntry) :
  0 < historyIndex s ->
  at_ (history s) (historyIndex s - 1) = Some e ->
  undo s = {| nodeArrays := nodeArrays s
                            ++ [map Cursor.withCallback
                                  (read (nodeArrays s) (entry_nodes e))];
              edgeArrays := edgeArrays s;
              nodes := length (nodeArrays s);
              edges := entry_edges e;
              history := history s;
              historyIndex := historyIndex s - 1;
              skipHistoryRef := true |}.
Proof.
  intros Hi He. unfold undo.
  destruct (Z.ltb_spec 0 (Z.of_nat (historyIndex s))); [|lia].
  now rewrite He.
Qed.

Lemma cm_redo_at (s : State) (e : HistoryEntry) :
  at_ (history s) (historyIndex s + 1) = Some e ->
  redo s = {| nodeArrays := nodeArrays s
                            ++ [map Cursor.withCallback
                                  (read (nodeArrays s) (entry_nodes e))];
              edgeArrays := edgeArrays s;
              nodes := length (nodeArrays s);
              edges := entry_edges e;
              history := history s;
              historyIndex := historyIndex s + 1;
              skipHistoryRef := true |}.
Proof.
  intros He. unfold redo.
  assert (Hlt : historyIndex s + 1 < length (history s)).
  { apply nth_error_Some. unfold at_ in He. congruence. }
  destruct (Z.ltb_spec (Z.of_nat (historyIndex s))
              (Z.of_nat (length (history s)) - 1)); [|lia].
  now rewrite He.
Qed.

Lemma cm_jump_inStore (s : State) (e : HistoryEntry) (a : list Node)
    (i : nat) (b : bool) :
  inStore s -> In e (history s) ->
  inStore {| nodeArrays := nodeArrays s ++ [a];
             edgeArrays := edgeArrays s;
             nodes := length (nodeArrays s);
             edges := entry_edges e;
             history := history s;
             historyIndex := i;
             skipHistoryRef := b |}.
Proof.
  intros (Hn & He & Hh) Hin. unfold inStore. simpl.
  split; [apply valid_new|]. split.
  - rewrite Forall_forall in Hh. now apply Hh.
  - rewrite <- (app_nil_r (edgeArrays s)).
    now apply cm_entries_valid_grow.
Qed.

Lemma cm_jump_value (s : State) (e : HistoryEntry) (i : nat) (b : bool) :
  inStore s ->
  value {| nodeArrays := nodeArrays s
                         ++ [map Cursor.withCallback
                               (read (nodeArrays s) (entry_nodes e))];
           edgeArrays := edgeArrays s;
           nodes := length (nodeArrays s);
           edges := entry_edges e;
           history := history s;
           historyIndex := i;
           skipHistoryRef := b |}
  = {| Cursor.nodes := map Cursor.withCallback
                         (Cursor.entry_nodes (entryValue s e));
       Cursor.edges := Cursor.entry_edges (entryValue s e);
       Cursor.history := Cursor.history (value s);
       Cursor.historyIndex := i;
       Cursor.skipHistoryRef := b |}.
Proof.
  intros (Hn & He & Hh). unfold value, entryValue. simpl.
  rewrite read_new. f_equal.
  rewrite Forall_forall in Hh.
  apply map_ext_in. intros p Hp. destruct (Hh p Hp) as [Hpn _].
  now rewrite read_old.
Qed.

Lemma cm_at_value (s : State) (i : nat) :
  at_ (Cursor.history (value s)) i
  = option_map (entryValue s) (at_ (history s) i).
Proof. unfold at_. simpl. apply nth_error_map. Qed.

Lemma cm_undo_value (s : State) :
  inStore s -> value (undo s) = Cursor.undo (value s).
Proof.
  intros Hs. unfold Cursor.undo. rewrite cm_at_value.
  change (Cursor.historyIndex (value s)) with (historyIndex s).
  unfold undo.
  destruct (0 <? Z.of_nat (historyIndex s))%Z; [|reflexivity].
  destruct (at_ (history s) (historyIndex s - 1)) as [e|]; simpl;
    [|reflexivity].
  now apply cm_jump_value.
Qed.

Lemma cm_redo_value (s : State) :
  inStore s -> value (redo s) = Cursor.redo (value s).
Proof.
  intros Hs. unfold Cursor.redo. rewrite cm_at_value.
  change (Cursor.historyIndex (value s)) with (historyIndex s).
  change (length (Cursor.history (value s)))
    with (length (map (entryValue s) (history s))).
  rewrite length_map. unfold redo.
  destruct (Z.of_nat (historyIndex s) <? _)%Z; [|reflexivity].
  destruct (at_ (history s) (historyIndex s + 1)) as [e|]; simpl;
    [|reflexivity].
  now apply cm_jump_value.
Qed.

Lemma cm_undo_inStore (s : State) : inStore s -> inStore (undo s).
Proof.
  intros Hs. unfold undo.
  destruct (0 <? Z.of_nat (historyIndex s))%Z; [|exact Hs].
  destruct (at_ (history s) (historyIndex s - 1)) as [e|] eqn:E; simpl.
  - apply cm_jump_inStore; [exact Hs|]. eapply nth_error_In. exact E.
  - exact Hs.
Qed.

Lemma cm_redo_inStore (s : State) : inStore s -> inStore (redo s).
Proof.
  intros Hs. unfold redo.
  destruct (Z.of_nat (historyIndex s) <? _)%Z; [|exact Hs].
  destruct (at_ (history s) (historyIndex s + 1)) as [e|] eqn:E; simpl.
  - apply cm_jump_inStore; [exact Hs|]. eapply nth_error_In. exact E.
  - exact Hs.
Qed.

(** A node update: the stores have grown to hold the new node array [r],
    the history is pushed, and [r] becomes the live node array. *)
Lemma cm_nodeUpdate (hn : store Node) (r : ref) (s : State) :
  inStore s -> extends (nodeArrays s) hn -> valid hn r ->
  let t := setNodes r
             (pushHistory r (edges s) (withStores hn (edgeArrays s) s)) in
  inStore t
  /\ extends (nodeArrays s) (nodeArrays t)
  /\ extends (edgeArrays s) (edgeArrays t)
  /\ value t
     = Cursor.setNodes (read hn r)
         (Cursor.pushHistory (read hn r) (Cursor.edges (value s)) (value s)).
Proof.
  intros Hs Hx Hr t.
  pose (s1 := withStores hn (edgeArrays s) s).
  assert (Hs1 : inStore s1)
    by (apply cm_withStores_inStore; auto using extends_refl).
  assert (Hv1 : value s1 = value s)
    by (apply cm_withStores_value; auto using extends_refl).
  pose (t0 := pushHistory r (edges s) s1).
  assert (Ht0 : inStore t0) by now apply cm_pushHistory_inStore.
  destruct (cm_pushHistory_grows r (edges s) s1) as [Gn Ge].
  fold t0 in Gn, Ge. simpl in Gn, Ge.
  assert (Hv0 : value t0
                = Cursor.pushHistory (read hn r) (Cursor.edges (value s))
                    (value s)).
  { unfold t0. rewrite cm_pushHistory_value by exact Hs1.
    now rewrite Hv1. }
  split; [|split; [|split]].
  - apply cm_setNodes_inStore; [exact Ht0|].
    now apply (extends_valid hn).
  - simpl. now apply (extends_trans _ hn).
  - exact Ge.
  - unfold t. fold s1. fold t0. rewrite cm_setNodes_value, Hv0.
    now rewrite (extends_read hn _ r Gn Hr).
Qed.

Lemma cm_edgeUpdate (he : store Edge) (r : ref) (s : State) :
  inStore s -> extends (edgeArrays s) he -> valid he r ->
  let t := setEdges r
             (pushHistory (nodes s) r (withStores (nodeArrays s) he s)) in
  inStore t
  /\ extends (nodeArrays s) (nodeArrays t)
  /\ extends (edgeArrays s) (edgeArrays t)
  /\ value t
     = Cursor.setEdges (read he r)
         (Cursor.pushHistory (Cursor.nodes (value s)) (read he r) (value s)).
Proof.
  intros Hs Hx Hr t.
  pose (s1 := withStores (nodeArrays s) he s).
  assert (Hs1 : inStore s1)
    by (apply cm_withStores_inStore; auto using extends_refl).
  assert (Hv1 : value s1 = value s)
    by (apply cm_withStores_value; auto using extends_refl).
  pose (t0 := pushHistory (nodes s) r s1).
  assert (Ht0 : inStore t0) by now apply cm_pushHistory_inStore.
  destruct (cm_pushHistory_grows (nodes s) r s1) as [Gn Ge].
  fold t0 in Gn, Ge. simpl in Gn, Ge.
  assert (Hv0 : value t0
                = Cursor.pushHistory (Cursor.nodes (value s)) (read he r)
                    (value s)).
  { unfold t0. rewrite cm_pushHistory_value by exact Hs1.
    now rewrite Hv1. }
  split; [|split; [|split]].
  - apply cm_setEdges_inStore; [exact Ht0|].
    now apply (extends_valid he).
  - exact Gn.
  - simpl. now apply (extends_trans _ he).
  - unfold t. fold s1. fold t0. rewrite cm_setEdges_value, Hv0.
    now rewrite (extends_read he _ r Ge Hr).
Qed.

Lemma cm_simulates_same (s : State) : inStore s -> simulates s s (value s).
Proof.
  intros Hs. split; [exact Hs|]. split; [apply extends_refl|].
  split; [apply extends_refl|reflexivity].
Qed.

(** [pushHistory] of the stored callback. *)
Lemma cm_stored_grows (seen : nat) (rn : ref) (ce : list Edge) (s : State) :
  extends (nodeArrays s) (nodeArrays (InNode.pushHistory seen rn ce s))
  /\ extends (edgeArrays s) (edgeArrays (InNode.pushHistory seen rn ce s)).
Proof.
  unfold InNode.pushHistory. destruct (skipHistoryRef s); simpl.
  - split; apply extends_refl.
  - split; apply extends_app.
Qed.

Lemma cm_stored_inStore (seen : nat) (rn : ref) (ce : list Edge)
    (s : State) :
  inStore s -> inStore (InNode.pushHistory seen rn ce s).
Proof.
  intros (Hn & He & Hh). unfold InNode.pushHistory.
  destruct (skipHistoryRef s); [now repeat split|].
  unfold inStore. simpl.
  split; [now apply valid_grow|]. split; [now apply valid_grow|].
  apply Forall_app. split.
  - apply cm_entries_valid_grow. unfold slice0.
    rewrite Forall_forall in *. intros p Hp. apply Hh.
    now apply cm_firstn_in in Hp.
  - constructor; [|constructor]. simpl. split; apply valid_new.
Qed.

Lemma cm_stored_value (seen : nat) (rn : ref) (ce : list Edge) (s : State) :
  inStore s ->
  value (InNode.pushHistory seen rn ce s)
  = Cursor.InNode.pushHistory seen (read (nodeArrays s) rn) ce (value s).
Proof.
  intros (Hn & He & Hh).
  unfold InNode.pushHistory, Cursor.InNode.pushHistory. simpl.
  destruct (skipHistoryRef s) eqn:Ek; [reflexivity|].
  unfold value, entryValue. simpl. rewrite ?Ek.
  rewrite !(read_old _ _ (nodes s)), !(read_old _ _ (edges s))
    by assumption.
  f_equal. rewrite map_app. simpl. rewrite !read_new.
  unfold slice0. rewrite firstn_map. f_equal.
  apply cm_entries_old.
  rewrite Forall_forall in *. intros p Hp. apply Hh.
  now apply cm_firstn_in in Hp.
Qed.

Lemma cm_stored_live (seen : nat) (rn : ref) (ce : list Edge) (s : State) :
  nodes (InNode.pushHistory seen rn ce s) = nodes s
  /\ edges (InNode.pushHistory seen rn ce s) = edges s.
Proof. unfold InNode.pushHistory. now destruct (skipHistoryRef s). Qed.

Lemma cm_stored_history (seen : nat) (rn : ref) (ce : list Edge)
    (s : State) (p : HistoryEntry) :
  In p (history (InNode.pushHistory seen rn ce s)) ->
  In p (history s)
  \/ p = {| entry_nodes := length (nodeArrays s);
            entry_edges := length (edgeArrays s) |}.
Proof.
  unfold InNode.pushHistory. destruct (skipHistoryRef s); simpl; [now left|].
  intros H. apply in_app_or in H as [H | [<- | []]].
  - left. now apply cm_firstn_in in H.
  - now right.
Qed.

Lemma cm_handleLabelChange_sim (c : Cursor.InNode.Closure)
    (i v : jsstring) (s : State) :
  inStore s ->
  simulates s (InNode.handleLabelChange c i v s)
    (Cursor.InNode.handleLabelChange c i v (value s)).
Proof.
  intros Hs. unfold InNode.handleLabelChange, alloc.
  set (a := Cursor.relabel i v (read (nodeArrays s) (nodes s))).
  set (hn := nodeArrays s ++ [a]).
  set (seen := Cursor.InNode.closed_historyIndex c).
  set (ce := Cursor.InNode.closed_edges c).
  pose (s1 := withStores hn (edgeArrays s) s).
  assert (Hx : extends (nodeArrays s) hn) by apply extends_app.
  assert (Hr : valid hn (length (nodeArrays s))) by apply valid_new.
  assert (Hs1 : inStore s1)
    by (apply cm_withStores_inStore; auto using extends_refl).
  assert (Hv1 : value s1 = value s)
    by (apply cm_withStores_value; auto using extends_refl).
  pose (t0 := InNode.pushHistory seen (length (nodeArrays s)) ce s1).
  assert (Ht0 : inStore t0) by now apply cm_stored_inStore.
  destruct (cm_stored_grows seen (length (nodeArrays s)) ce s1) as [Gn Ge].
  fold t0 in Gn, Ge. simpl in Gn, Ge.
  assert (Hv0 : value t0
                = Cursor.InNode.pushHistory seen a ce (value s)).
  { unfold t0. rewrite cm_stored_value by exact Hs1.
    rewrite Hv1. f_equal. unfold s1, hn. simpl. apply read_new. }
  fold s1. fold t0.
  split; [|split; [|split]].
  - apply cm_setNodes_inStore; [exact Ht0|].
    now apply (extends_valid hn).
  - simpl. now apply (extends_trans _ hn).
  - exact Ge.
  - change (value (setNodes (length (nodeArrays s)) t0)
            = Cursor.InNode.handleLabelChange c i v (value s)).
    rewrite cm_setNodes_value, Hv0.
    rewrite (extends_read hn _ _ Gn Hr). unfold hn. rewrite read_new.
    reflexivity.
Qed.

Lemma cm_label_apart (c : Cursor.InNode.Closure) (i v : jsstring)
    (s : State) :
  inStore s -> nodesApart (InNode.handleLabelChange c i v s).
Proof.
  intros (_ & _ & Hh). unfold InNode.handleLabelChange, alloc.
  intros p Hp. simpl in *.
  apply cm_stored_history in Hp as [Hp | ->]; simpl in *.
  - rewrite Forall_forall in Hh. destruct (Hh p Hp) as [Hv _].
    unfold valid in Hv. lia.
  - rewrite length_app. simpl. lia.
Qed.

Lemma cm_onDrop_sim (ev : Cursor.DropEvent) (s : State) :
  inStore s -> simulates s (onDrop ev s) (Cursor.onDrop ev (value s)).
Proof.
  intros Hs. unfold onDrop, Cursor.onDrop.
  destruct (Cursor.droppedType ev) as [ty|]; [|now apply cm_simulates_same].
  unfold alloc.
  set (a := read (nodeArrays s) (nodes s) ++ [Cursor.droppedNode ty ev]).
  set (h2 := (nodeArrays s ++ [a]) ++ [a]).
  assert (Hx : extends (nodeArrays s) h2).
  { unfold h2. rewrite <- app_assoc. apply extends_app. }
  pose (s1 := withStores h2 (edgeArrays s) s).
  assert (Hs1 : inStore s1)
    by (apply cm_withStores_inStore; auto using extends_refl).
  assert (Hv1 : value s1 = value s)
    by (apply cm_withStores_value; auto using extends_refl).
  assert (Hr1 : valid h2 (length (nodeArrays s))).
  { unfold h2, valid. rewrite !length_app. simpl. lia. }
  pose (s2 := setNodes (length (nodeArrays s)) s1).
  assert (Hs2 : inStore s2) by now apply cm_setNodes_inStore.
  assert (Hv2 : value s2 = Cursor.setNodes a (value s)).
  { unfold s2. rewrite cm_setNodes_value, Hv1. f_equal.
    unfold s1, h2. simpl. rewrite read_old by apply valid_new.
    apply read_new. }
  fold s1. fold s2.
  destruct (cm_pushHistory_grows (length (nodeArrays s ++ [a])) (edges s) s2)
    as [Gn Ge]. simpl in Gn, Ge.
  split; [now apply cm_pushHistory_inStore|].
  split; [now apply (extends_trans _ h2)|]. split; [exact Ge|].
  rewrite cm_pushHistory_value by exact Hs2. rewrite Hv2.
  f_equal. unfold s2, s1, h2. simpl. apply read_new.
Qed.

Lemma cm_loadDiagram_sim (file : Cursor.FileContent) (s : State) :
  inStore s ->
  simulates s (loadDiagram file s) (Cursor.loadDiagram file (value s)).
Proof.
  intros Hs. unfold loadDiagram, Cursor.loadDiagram.
  destruct file as [|[ns|] [es|]| |bad]; try now apply cm_simulates_same.
  2:{ destruct Hs as (a & b & c). repeat split; auto using extends_refl. }
  unfold alloc, simulates. simpl.
  split; [|split; [|split]].
  - unfold inStore, valid. simpl. rewrite !length_app. simpl.
    split; [lia|]. split; [lia|].
    constructor; [simpl; lia|constructor].
  - rewrite <- !app_assoc. apply extends_app.
  - rewrite <- !app_assoc. apply extends_app.
  - unfold value, entryValue. simpl. f_equal.
    + rewrite read_old by apply valid_new. apply read_new.
    + rewrite read_old by apply valid_new. apply read_new.
    + unfold Cursor.jsonCopy. now rewrite !read_new.
Qed.

Lemma cm_undo_sim (s : State) :
  inStore s -> simulates s (undo s) (Cursor.undo (value s)).
Proof.
  intros Hs. split; [now apply cm_undo_inStore|].
  split; [|split; [|now apply cm_undo_value]]; unfold undo;
    destruct (0 <? Z.of_nat (historyIndex s))%Z;
    try apply extends_refl;
    destruct (at_ (history s) (historyIndex s - 1)); simpl;
    auto using extends_refl, extends_app.
Qed.

Lemma cm_redo_sim (s : State) :
  inStore s -> simulates s (redo s) (Cursor.redo (value s)).
Proof.
  intros Hs. split; [now apply cm_redo_inStore|].
  split; [|split; [|now apply cm_redo_value]]; unfold redo;
    destruct (Z.of_nat (historyIndex s) <? _)%Z;
    try apply extends_refl;
    destruct (at_ (history s) (historyIndex s + 1)); simpl;
    auto using extends_refl, extends_app.
Qed.

Lemma cm_nodeUpdate_entry (hn : store Node) (r : ref) (s : State) :
  inStore s -> extends (nodeArrays s) hn -> valid hn r ->
  skipHistoryRef s = false ->
  pushesCopy s
    (setNodes r (pushHistory r (edges s) (withStores hn (edgeArrays s) s))).
Proof.
  intros (_ & He & _) [x ->] Hr Hk.
  exists {| entry_nodes := length (nodeArrays s ++ x);
            entry_edges := length (edgeArrays s) |}.
  unfold setNodes, pushHistory, withStores, entryValue. simpl.
  rewrite Hk. simpl. rewrite !read_new.
  rewrite (read_old (nodeArrays s ++ x) [_] r) by exact Hr.
  rewrite (read_old _ _ (edges s)) by exact He.
  unfold valid in *. rewrite length_app in *.
  repeat split; lia.
Qed.

Lemma cm_edgeUpdate_entry (he : store Edge) (r : ref) (s : State) :
  inStore s -> extends (edgeArrays s) he -> valid he r ->
  skipHistoryRef s = false ->
  pushesCopy s
    (setEdges r (pushHistory (nodes s) r (withStores (nodeArrays s) he s))).
Proof.
  intros (Hn & _ & _) [x ->] Hr Hk.
  exists {| entry_nodes := length (nodeArrays s);
            entry_edges := length (edgeArrays s ++ x) |}.
  unfold setEdges, pushHistory, withStores, entryValue. simpl.
  rewrite Hk. simpl. rewrite !read_new.
  rewrite (read_old (edgeArrays s ++ x) [_] r) by exact Hr.
  rewrite (read_old _ _ (nodes s)) by exact Hn.
  unfold valid in *. rewrite length_app in *.
  repeat split; lia.
Qed.

Lemma cm_onDrop_entry (ev : Cursor.DropEvent) (ty : jsstring) (s : State) :
  inStore s -> Cursor.droppedType ev = Some ty ->
  skipHistoryRef s = false ->
  pushesCopy s (onDrop ev s).
Proof.
  intros (_ & He & _) Ht Hk. unfold onDrop. rewrite Ht.
  unfold alloc.
  exists {| entry_nodes :=
              length ((nodeArrays s
                       ++ [read (nodeArrays s) (nodes s)
                           ++ [Cursor.droppedNode ty ev]])
                      ++ [read (nodeArrays s) (nodes s)
                          ++ [Cursor.droppedNode ty ev]]);
            entry_edges := length (edgeArrays s) |}.
  unfold setNodes, pushHistory, withStores, entryValue. simpl.
  rewrite Hk. simpl. unfold valid in He.
  repeat (rewrite read_new
          || rewrite read_old
               by (unfold valid; rewrite ?length_app; simpl; lia)).
  unfold valid. rewrite !length_app. simpl.
  repeat split; lia.
Qed.

Lemma cm_pushHistory_history (rn re : ref) (s : State) (p : HistoryEntry) :
  In p (history (pushHistory rn re s)) ->
  In p (history s)
  \/ p = {| entry_nodes := length (nodeArrays s);
            entry_edges := length (edgeArrays s) |}.
Proof.
  unfold pushHistory. destruct (skipHistoryRef s); simpl; [now left|].
  intros H. apply in_app_or in H as [H | [<- | []]].
  - left. now apply cm_firstn_in in H.
  - now right.
Qed.

(** A node update keeps the live node array apart from the entries when
    the new live array is the old one or one that was not in the store. *)
Lemma cm_nodeUpdate_apart (hn : store Node) (r : ref) (s : State) :
  inStore s -> nodesApart s ->
  extends (nodeArrays s) hn -> valid hn r ->
  (r = nodes s \/ ~ valid (nodeArrays s) r) ->
  nodesApart
    (setNodes r (pushHistory r (edges s) (withStores hn (edgeArrays s) s))).
Proof.
  intros (_ & _ & Hh) Ha Hx Hr Hfresh p Hp. simpl in *.
  apply cm_pushHistory_history in Hp as [Hp | ->]; simpl in *.
  - destruct Hfresh as [-> | Hf]; [now apply Ha|].
    rewrite Forall_forall in Hh. destruct (Hh p Hp) as [Hv _].
    intros E. apply Hf. now rewrite <- E.
  - unfold valid in Hr. lia.
Qed.

Lemma cm_edgeUpdate_apart (he : store Edge) (r : ref) (s : State) :
  inStore s -> nodesApart s ->
  nodesApart
    (setEdges r (pushHistory (nodes s) r (withStores (nodeArrays s) he s))).
Proof.
  intros (Hn & _ & _) Ha p Hp. simpl in *.
  rewrite (proj1 (cm_pushHistory_live _ _ _)). simpl.
  apply cm_pushHistory_history in Hp as [Hp | ->]; simpl in *.
  - now apply Ha.
  - unfold valid in Hn. lia.
Qed.

Lemma cm_jump_apart (s : State) (e : HistoryEntry) (a : list Node)
    (i : nat) (b : bool) :
  inStore s ->
  nodesApart {| nodeArrays := nodeArrays s ++ [a];
                edgeArrays := edgeArrays s;
                nodes := length (nodeArrays s);
                edges := entry_edges e;
                history := history s;
                historyIndex := i;
                skipHistoryRef := b |}.
Proof.
  intros (_ & _ & Hh) p Hp. simpl in *.
  rewrite Forall_forall in Hh. destruct (Hh p Hp) as [Hv _].
  unfold valid in Hv. lia.
Qed.

Lemma cm_undo_apart (s : State) :
  inStore s -> nodesApart s -> nodesApart (undo s).
Proof.
  intros Hs Ha. unfold undo.
  destruct (0 <? Z.of_nat (historyIndex s))%Z; [|exact Ha].
  destruct (at_ (history s) (historyIndex s - 1)) as [e|]; simpl.
  - now apply cm_jump_apart.
  - exact Ha.
Qed.

Lemma cm_redo_apart (s : State) :
  inStore s -> nodesApart s -> nodesApart (redo s).
Proof.
  intros Hs Ha. unfold redo.
  destruct (Z.of_nat (historyIndex s) <? _)%Z; [|exact Ha].
  destruct (at_ (history s) (historyIndex s + 1)) as [e|]; simpl.
  - now apply cm_jump_apart.
  - exact Ha.
Qed.

Lemma cm_onDrop_apart (ev : Cursor.DropEvent) (s : State) :
  inStore s -> nodesApart s -> nodesApart (onDrop ev s).
Proof.
  intros (_ & _ & Hh) Ha. unfold onDrop.
  destruct (Cursor.droppedType ev) as [ty|]; [|exact Ha].
  unfold alloc. intros p Hp.
  rewrite (proj1 (cm_pushHistory_live _ _ _)). simpl.
  apply cm_pushHistory_history in Hp as [Hp | ->]; simpl in *.
  - rewrite Forall_forall in Hh. destruct (Hh p Hp) as [Hv _].
    unfold valid in Hv. lia.
  - rewrite !length_app. simpl. lia.
Qed.

Lemma cm_loadDiagram_apart (file : Cursor.FileContent) (s : State) :
  nodesApart s -> nodesApart (loadDiagram file s).
Proof.
  intros Ha. unfold loadDiagram.
  destruct file as [|[ns|] [es|]| |bad]; try exact Ha.
  unfold alloc. intros p [<- | []]. simpl. rewrite !length_app. simpl. lia.
Qed.

Section WithLib.
Context {AL : ArrayLib}.

Lemma cm_onNodesChange_sim (changes : list NodeChange) (s : State) :
  inStore s ->
  simulates s (onNodesChange changes s)
    (@Cursor.onNodesChange (valueLib AL) changes (value s)).
Proof.
  intros Hs. pose proof Hs as (Hn & _ & _). unfold onNodesChange.
  pose proof (keep_extends (nodeArrays s) (nodes s)
                (applyNodeChanges changes (read (nodeArrays s) (nodes s))))
    as Hx.
  pose proof (keep_valid (nodeArrays s) (nodes s)
                (applyNodeChanges changes (read (nodeArrays s) (nodes s)))
                Hn) as Hr.
  pose proof (keep_elements (nodeArrays s) (nodes s)
                (applyNodeChanges changes (read (nodeArrays s) (nodes s)))
                Hn) as He.
  destruct (keep _ _ _) as [hn r]. simpl in Hx, Hr, He.
  destruct (cm_nodeUpdate hn r s Hs Hx Hr) as (a & b & c & d).
  split; [exact a|]. split; [exact b|]. split; [exact c|].
  etransitivity; [exact d|]. rewrite He. reflexivity.
Qed.

Lemma cm_onEdgesChange_sim (changes : list EdgeChange) (s : State) :
  inStore s ->
  simulates s (onEdgesChange changes s)
    (@Cursor.onEdgesChange (valueLib AL) changes (value s)).
Proof.
  intros Hs. pose proof Hs as (_ & Hn & _). unfold onEdgesChange.
  pose proof (keep_extends (edgeArrays s) (edges s)
                (applyEdgeChanges changes (read (edgeArrays s) (edges s))))
    as Hx.
  pose proof (keep_valid (edgeArrays s) (edges s)
                (applyEdgeChanges changes (read (edgeArrays s) (edges s)))
                Hn) as Hr.
  pose proof (keep_elements (edgeArrays s) (edges s)
                (applyEdgeChanges changes (read (edgeArrays s) (edges s)))
                Hn) as He.
  destruct (keep _ _ _) as [he r]. simpl in Hx, Hr, He.
  destruct (cm_edgeUpdate he r s Hs Hx Hr) as (a & b & c & d).
  split; [exact a|]. split; [exact b|]. split; [exact c|].
  etransitivity; [exact d|]. rewrite He. reflexivity.
Qed.

Lemma cm_onConnect_sim (params : Cursor.Connection) (now : Z) (s : State) :
  inStore s ->
  simulates s (onConnect params now s)
    (@Cursor.onConnect (valueLib AL) params now (value s)).
Proof.
  intros Hs. pose proof Hs as (_ & Hn & _). unfold onConnect.
  pose proof (keep_extends (edgeArrays s) (edges s)
                (addEdge (Cursor.newEdge params now)
                   (read (edgeArrays s) (edges s)))) as Hx.
  pose proof (keep_valid (edgeArrays s) (edges s)
                (addEdge (Cursor.newEdge params now)
                   (read (edgeArrays s) (edges s))) Hn) as Hr.
  pose proof (keep_elements (edgeArrays s) (edges s)
                (addEdge (Cursor.newEdge params now)
                   (read (edgeArrays s) (edges s))) Hn) as He.
  destruct (keep _ _ _) as [he r]. simpl in Hx, Hr, He.
  destruct (cm_edgeUpdate he r s Hs Hx Hr) as (a & b & c & d).
  split; [exact a|]. split; [exact b|]. split; [exact c|].
  etransitivity; [exact d|]. rewrite He. reflexivity.
Qed.

(** Every event, over the store and on values. *)
Lemma cm_handle_sim (e : @Cursor.Event (valueLib AL)) (s : State) :
  inStore s -> simulates s (handle e s) (Cursor.handle e (value s)).
Proof.
  intros Hs. destruct e as [m| | |file|]; simpl.
  - destruct m as [ch|ch|p now|ev|c i v]; simpl.
    + now apply cm_onNodesChange_sim.
    + now apply cm_onEdgesChange_sim.
    + now apply cm_onConnect_sim.
    + now apply cm_onDrop_sim.
    + now apply cm_handleLabelChange_sim.
  - now apply cm_undo_sim.
  - now apply cm_redo_sim.
  - now apply cm_loadDiagram_sim.
  - destruct Hs as (a & b & c). repeat split; auto using extends_refl.
Qed.

Lemma cm_run_inStore (es : list (@Cursor.Event (valueLib AL))) (s : State) :
  inStore s -> inStore (run es s).
Proof.
  revert s. induction es as [|e es IH]; intros s Hs; [exact Hs|].
  apply (IH (handle e s)). now destruct (cm_handle_sim e s Hs).
Qed.

Lemma cm_mutate_pushes_copy (m : @Cursor.Mutation (valueLib AL))
    (s : State) :
  inStore s -> Cursor.takesEffect m = true -> Cursor.fromProps m = true ->
  skipHistoryRef s = false ->
  pushesCopy s (mutate m s).
Proof.
  intros Hs Ht Hp Hk. pose proof Hs as (Hn & He & _).
  destruct m as [ch|ch|p now|ev|c i v]; simpl.
  - unfold onNodesChange.
    pose proof (keep_extends (nodeArrays s) (nodes s)
                  (applyNodeChanges ch (read (nodeArrays s) (nodes s))))
      as Hx.
    pose proof (keep_valid (nodeArrays s) (nodes s)
                  (applyNodeChanges ch (read (nodeArrays s) (nodes s)))
                  Hn) as Hr.
    destruct (keep _ _ _) as [hn r]. now apply cm_nodeUpdate_entry.
  - unfold onEdgesChange.
    pose proof (keep_extends (edgeArrays s) (edges s)
                  (applyEdgeChanges ch (read (edgeArrays s) (edges s))))
      as Hx.
    pose proof (keep_valid (edgeArrays s) (edges s)
                  (applyEdgeChanges ch (read (edgeArrays s) (edges s)))
                  He) as Hr.
    destruct (keep _ _ _) as [he r]. now apply cm_edgeUpdate_entry.
  - unfold onConnect.
    pose proof (keep_extends (edgeArrays s) (edges s)
                  (addEdge (Cursor.newEdge p now)
                     (read (edgeArrays s) (edges s)))) as Hx.
    pose proof (keep_valid (edgeArrays s) (edges s)
                  (addEdge (Cursor.newEdge p now)
                     (read (edgeArrays s) (edges s))) He) as Hr.
    destruct (keep _ _ _) as [he r]. now apply cm_edgeUpdate_entry.
  - simpl in Ht. destruct (Cursor.droppedType ev) as [ty|] eqn:E;
      [|discriminate].
    now apply (cm_onDrop_entry ev ty).
  - discriminate.
Qed.

Lemma cm_run_extends (es : list (@Cursor.Event (valueLib AL))) (s : State) :
  inStore s ->
  extends (nodeArrays s) (nodeArrays (run es s))
  /\ extends (edgeArrays s) (edgeArrays (run es s)).
Proof.
  revert s. induction es as [|e es IH]; intros s Hs.
  - split; apply extends_refl.
  - destruct (cm_handle_sim e s Hs) as (Hs' & Gn & Ge & _).
    destruct (IH (handle e s) Hs') as (Gn' & Ge').
    split; eapply extends_trans; eassumption.
Qed.

(** Whatever happens later, an entry of the history keeps its content. *)
Lemma cm_run_frame (later : list (@Cursor.Event (valueLib AL)))
    (s : State) (p : HistoryEntry) :
  inStore s -> In p (history s) ->
  entryValue (run later s) p = entryValue s p.
Proof.
  intros Hs Hp. destruct (cm_run_extends later s Hs) as (Gn & Ge).
  destruct Hs as (_ & _ & Hh). rewrite Forall_forall in Hh.
  destruct (Hh p Hp) as [Hpn Hpe]. unfold entryValue.
  now rewrite (extends_read _ _ _ Gn Hpn), (extends_read _ _ _ Ge Hpe).
Qed.

Lemma cm_keep_fresh {A} (h : store A) (r : ref) (res : Returned A) :
  snd (keep h r res) = r \/ ~ valid h (snd (keep h r res)).
Proof.
  destruct (keep_ref h r res) as [-> | ->]; [now left|right].
  unfold valid. lia.
Qed.

Lemma cm_handle_apart (e : @Cursor.Event (valueLib AL)) (s : State) :
  inStore s -> nodesApart s -> nodesApart (handle e s).
Proof.
  intros Hs Ha. pose proof Hs as (Hn & He & _).
  destruct e as [m| | |file|]; simpl.
  - destruct m as [ch|ch|p now|ev|c i v]; simpl.
    + unfold onNodesChange.
      pose proof (keep_extends (nodeArrays s) (nodes s)
                    (applyNodeChanges ch (read (nodeArrays s) (nodes s))))
        as Hx.
      pose proof (keep_valid (nodeArrays s) (nodes s)
                    (applyNodeChanges ch (read (nodeArrays s) (nodes s)))
                    Hn) as Hr.
      pose proof (cm_keep_fresh (nodeArrays s) (nodes s)
                    (applyNodeChanges ch (read (nodeArrays s) (nodes s))))
        as Hf.
      destruct (keep _ _ _) as [hn r]. now apply cm_nodeUpdate_apart.
    + unfold onEdgesChange. destruct (keep _ _ _) as [he r].
      now apply cm_edgeUpdate_apart.
    + unfold onConnect. destruct (keep _ _ _) as [he r].
      now apply cm_edgeUpdate_apart.
    + now apply cm_onDrop_apart.
    + now apply cm_label_apart.
  - now apply cm_undo_apart.
  - now apply cm_redo_apart.
  - now apply cm_loadDiagram_apart.
  - exact Ha.
Qed.

Lemma cm_run_apart (es : list (@Cursor.Event (valueLib AL))) (s : State) :
  inStore s -> nodesApart s -> nodesApart (run es s).
Proof.
  revert s. induction es as [|e es IH]; intros s Hs Ha; [exact Ha|].
  apply (IH (handle e s)).
  - now destruct (cm_handle_sim e s Hs).
  - now apply cm_handle_apart.
Qed.

Lemma cm_init_apart : nodesApart init.
Proof. intros p [<- | []]. discriminate. Qed.

End WithLib.

End CursorMemFacts.

(* ------------------------------------------------------------------ *)
(** ** The laws of the history, for both editors *)

(** C1, amended: wherever undo has a snapshot to return to, or redo has
    none, undo followed at once by redo gives back the state it started
    from; and after any mutations M1..Mn applied to the empty diagram,
    n undos followed by n redos give back the state after Mn.  In the
    two-stack editor the whole state comes back; in the cursor editor the
    diagram (nodes as JSON data, edges), the history and the cursor come
    back, for a state whose entry under the cursor is the copy of the live
    diagram, and the mutations M1..Mn are those that a prop of the canvas
    handles (node changes, edge changes, connections, drops that add a
    node), each recorded by one run of its updater.  What a label edit
    through the callback stored in a node does to the history is left
    out. *)
Theorem undo_redo_round_trip
    (L2 : TwoStack.ChangeLib) (LC : Cursor.ChangeLib) :
  (forall s : TwoStack.State,
      TwoStack.historyRef s <> [] \/ TwoStack.redoRef s = [] ->
      TwoStack.handleRedo (TwoStack.handleUndo s) = s)
  /\ (forall ms : list TwoStack.Mutation,
        let s := TwoStack.run (map TwoStack.Mutate ms) TwoStack.init in
        Js.iter (length ms) TwoStack.handleRedo
          (Js.iter (length ms) TwoStack.handleUndo s) = s)
  /\ (forall s : Cursor.State,
        0 < Cursor.historyIndex s \/ Cursor.redoStack s = [] ->
        Cursor.inSync s ->
        Cursor.sameEditor (Cursor.redo (Cursor.undo s)) s)
  /\ (forall ms : list Cursor.Mutation,
        forallb Cursor.takesEffect ms = true ->
        forallb Cursor.fromProps ms = true ->
        let s := Cursor.run (map Cursor.Mutate ms) Cursor.init in
        Cursor.sameEditor
          (Js.iter (length ms) Cursor.redo
             (Js.iter (length ms) Cursor.undo s)) s).
Proof.
  split; [|split; [|split]].
  - intros s [Hne | Hr].
    + now apply TwoStackFacts.ts_redo_undo.
    + destruct (TwoStack.historyRef s) eqn:E.
      * rewrite (TwoStackFacts.ts_handleUndo_empty s E).
        now apply TwoStackFacts.ts_handleRedo_empty.
      * apply TwoStackFacts.ts_redo_undo. rewrite E. discriminate.
  - intros ms s. apply TwoStackFacts.ts_redo_n_undo_n.
    subst s. rewrite TwoStackFacts.ts_run_mutations_length. simpl. lia.
  - intros s [Hi | Hr] Hs.
    + now apply CursorFacts.cur_redo_undo.
    + destruct (Cursor.historyIndex s) eqn:E.
      * rewrite (CursorFacts.cur_undo_first s E).
        rewrite CursorFacts.cur_redo_last.
        -- apply CursorFacts.cur_sameEditor_refl.
        -- now apply CursorFacts.cur_redoStack_nil.
      * apply CursorFacts.cur_redo_undo; [lia|exact Hs].
  - intros ms Hall Hprops s.
    destruct (CursorFacts.cur_atTip_run ms Cursor.init Hall Hprops
                CursorFacts.cur_atTip_init) as ((_ & _ & Hs & Hc) & Hi).
    apply CursorFacts.cur_redo_n_undo_n; [|exact Hs|exact Hc].
    subst s. rewrite Hi. simpl. lia.
Qed.

Lemma undo_redo_round_trip_witness :
  let s2 := TwoStack.run [Demo.create_n1; Demo.connect_n1_n2] TwoStack.init in
  let sc := Cursor.run [Demo.drop_1; Demo.drop_2] Cursor.init in
  ((TwoStack.historyRef s2 <> [] \/ TwoStack.redoRef s2 = [])
   /\ TwoStack.handleRedo (TwoStack.handleUndo s2) = s2)
  /\ ((0 < Cursor.historyIndex sc \/ Cursor.redoStack sc = [])
      /\ Cursor.inSync sc
      /\ Cursor.sameEditor (Cursor.redo (Cursor.undo sc)) sc)
  /\ (forallb Cursor.takesEffect
        [Demo.put_1; Demo.put_2] = true
      /\ forallb Cursor.fromProps [Demo.put_1; Demo.put_2] = true
      /\ Cursor.sameEditor
           (Js.iter 2 Cursor.redo (Js.iter 2 Cursor.undo sc)) sc).
Proof.
  pose proof (undo_redo_round_trip Demo.lib2 Demo.libC) as (A & _ & C & D).
  intros s2 sc.
  assert (H2 : TwoStack.historyRef s2 <> [] \/ TwoStack.redoRef s2 = [])
    by (left; discriminate).
  assert (Hc : 0 < Cursor.historyIndex sc \/ Cursor.redoStack sc = [])
    by (left; exact (Nat.lt_0_succ 1)).
  assert (Hs : Cursor.inSync sc) by reflexivity.
  exact (conj (conj H2 (A s2 H2))
           (conj (conj Hc (conj Hs (C sc Hc Hs)))
              (conj eq_refl
                 (conj eq_refl
                    (D [Demo.put_1; Demo.put_2] eq_refl eq_refl))))).
Defined.

(** C1 as stated fails where the undo stack is empty and the redo stack is
    not: after one node was added and undone, undo does nothing and redo
    brings the node back. *)
Lemma undo_redo_at_empty_history :
  let s := TwoStack.run [Demo.create_n1; Demo.undo2] TwoStack.init in
  TwoStack.historyRef s = []
  /\ TwoStack.nodes s = []
  /\ TwoStack.nodes (TwoStack.handleRedo (TwoStack.handleUndo s))
     <> TwoStack.nodes s.
Proof. repeat split. discriminate. Qed.

(** C2, amended: in the two-stack editor every mutation leaves the redo
    stack empty, and a redo after it does nothing.  In the cursor editor
    this holds for a mutation that a prop of the canvas handles (a node
    change, an edge change, a connection, a drop) and that takes effect,
    recorded by one run of its updater, in a state whose [skipHistoryRef]
    flag is clear; while the flag is set a mutation, a label edit
    included, leaves the history and the cursor as they are.  What a label
    edit through the callback stored in a node does to the redo stack
    while the flag is clear is left out. *)
Theorem redo_cleared_by_mutation
    (L2 : TwoStack.ChangeLib) (LC : Cursor.ChangeLib) :
  (forall (m : TwoStack.Mutation) (s : TwoStack.State),
      TwoStack.redoRef (TwoStack.mutate m s) = []
      /\ TwoStack.handleRedo (TwoStack.mutate m s) = TwoStack.mutate m s)
  /\ (forall (m : Cursor.Mutation) (s : Cursor.State),
        Cursor.takesEffect m = true ->
        Cursor.fromProps m = true ->
        Cursor.skipHistoryRef s = false ->
        Cursor.redoStack (Cursor.mutate m s) = []
        /\ Cursor.redo (Cursor.mutate m s) = Cursor.mutate m s)
  /\ (forall (m : Cursor.Mutation) (s : Cursor.State),
        Cursor.skipHistoryRef s = true ->
        Cursor.history (Cursor.mutate m s) = Cursor.history s
        /\ Cursor.historyIndex (Cursor.mutate m s) = Cursor.historyIndex s).
Proof.
  split; [|split].
  - intros m s. split.
    + apply TwoStackFacts.ts_mutate_redo.
    + apply TwoStackFacts.ts_handleRedo_empty, TwoStackFacts.ts_mutate_redo.
  - intros m s Ht Hp Hk.
    pose proof (CursorFacts.cur_mutate_redoStack m s Ht Hp Hk) as Hr.
    split; [exact Hr|].
    now apply CursorFacts.cur_redo_last, CursorFacts.cur_redoStack_nil.
  - intros m s Hk.
    destruct (CursorFacts.cur_mutate_skipped m s Hk) as (a & b & _).
    now split.
Qed.

Lemma redo_cleared_by_mutation_witness :
  let s := Cursor.run [Demo.drop_1; Demo.drop_2; Demo.undoC; Cursor.Timeout]
             Cursor.init in
  let t := Cursor.run [Demo.drop_1; Demo.drop_2; Demo.undoC] Cursor.init in
  (Cursor.takesEffect Demo.move_1 = true
   /\ Cursor.fromProps Demo.move_1 = true
   /\ Cursor.skipHistoryRef s = false
   /\ Cursor.redoStack s <> []
   /\ Cursor.redoStack (Cursor.mutate Demo.move_1 s) = []
   /\ Cursor.redo (Cursor.mutate Demo.move_1 s)
      = Cursor.mutate Demo.move_1 s)
  /\ (Cursor.skipHistoryRef t = true
      /\ Cursor.history (Cursor.mutate Demo.rename_1_undone t)
         = Cursor.history t
      /\ Cursor.historyIndex (Cursor.mutate Demo.rename_1_undone t)
         = Cursor.historyIndex t).
Proof.
  pose proof (redo_cleared_by_mutation Demo.lib2 Demo.libC) as (_ & B & C).
  intros s t.
  assert (Hs : Cursor.skipHistoryRef s = false) by reflexivity.
  assert (Ht : Cursor.skipHistoryRef t = true) by reflexivity.
  assert (Hn : Cursor.redoStack s <> []) by discriminate.
  exact (conj
           (conj eq_refl
              (conj eq_refl
                 (conj Hs (conj Hn (B Demo.move_1 s eq_refl eq_refl Hs)))))
           (conj Ht (C Demo.rename_1_undone t Ht))).
Defined.

(** C2 as stated fails in the cursor editor while [skipHistoryRef] is set:
    straight after an undo, a node that is moved leaves the undone entry
    in the history, and redo still steps forward to it. *)
Lemma redo_left_by_skipped_mutation :
  let s := Cursor.run [Demo.drop_1; Demo.drop_2; Demo.undoC] Cursor.init in
  let s' := Cursor.mutate Demo.move_1 s in
  Cursor.skipHistoryRef s = true
  /\ Cursor.nodes s' <> Cursor.nodes s
  /\ Cursor.redoStack s' <> []
  /\ Cursor.historyIndex s' = 1
  /\ Cursor.historyIndex (Cursor.redo s') = 2.
Proof. repeat split; discriminate. Qed.

(** C3, amended: [onConnect] checks no id.  For every store and every
    connection, whether or not its source and target name nodes of the
    store, the nodes are left as they are and no error is signalled; the
    two-stack editor appends one edge with the source, target and handles
    of the connection, and the cursor editor hands the edge it builds to
    the library's [addEdge]. *)
Theorem connect_is_unchecked
    (L2 : TwoStack.ChangeLib) (LC : Cursor.ChangeLib) :
  (forall (c : TwoStack.Connection) (uuid : Js.jsstring)
          (s : TwoStack.State),
      let s' := TwoStack.onConnect c uuid s in
      TwoStack.nodes s' = TwoStack.nodes s
      /\ TwoStack.edges s' = TwoStack.edges s ++ [TwoStack.newEdge c uuid]
      /\ TwoStack.source (TwoStack.newEdge c uuid) = TwoStack.conn_source c
      /\ TwoStack.target (TwoStack.newEdge c uuid) = TwoStack.conn_target c
      /\ TwoStack.sourceHandle (TwoStack.newEdge c uuid)
         = TwoStack.conn_sourceHandle c
      /\ TwoStack.targetHandle (TwoStack.newEdge c uuid)
         = TwoStack.conn_targetHandle c
      /\ length (TwoStack.edges s') = S (length (TwoStack.edges s)))
  /\ (forall (p : Cursor.Connection) (now : Z) (s : Cursor.State),
        let s' := Cursor.onConnect p now s in
        Cursor.nodes s' = Cursor.nodes s
        /\ Cursor.edges s'
           = Cursor.addEdge (Cursor.newEdge p now) (Cursor.edges s)
        /\ Cursor.source (Cursor.newEdge p now) = Cursor.conn_source p
        /\ Cursor.target (Cursor.newEdge p now) = Cursor.conn_target p).
Proof.
  split.
  - intros c uuid s s'. subst s'. simpl.
    rewrite length_app. simpl. repeat split. lia.
  - intros p now s s'. subst s'. unfold Cursor.onConnect. simpl.
    unfold Cursor.pushHistory.
    destruct (Cursor.skipHistoryRef s); repeat split.
Qed.

(** C3 as stated fails: a connection from an id that names no node is
    accepted, and its edge is appended. *)
Lemma connect_from_missing_node :
  let s := TwoStack.run [Demo.create_n2] TwoStack.init in
  let c := Demo.join_missing_n2 in
  let s' := TwoStack.onConnect c (Js.lit "e1") s in
  TwoStack.nodeExists (TwoStack.conn_source c) (TwoStack.nodes s) = false
  /\ TwoStack.edges s = []
  /\ TwoStack.edges s' = [TwoStack.newEdge c (Js.lit "e1")]
  /\ TwoStack.source (TwoStack.newEdge c (Js.lit "e1"))
     = Some (Js.lit "missing-id").
Proof. repeat split. Qed.

(** C5, amended: in the two-stack editor the entry every mutation appends
    to the undo stack is the copy of the store as it stood before the
    mutation.  In the cursor editor, with [skipHistoryRef] clear, the entry
    that a mutation handled by a prop of the canvas (a node change, an
    edge change, a connection, a drop) appends to [history], by one run of
    its updater, is the copy of the store as the mutation leaves it; the
    entry that joins the entries undo can step back to is the one that was
    under the cursor, which is the copy of the store before the mutation
    when the two were in sync.  What a label edit through the callback
    stored in a node appends is left out. *)
Theorem history_entry_of_mutation
    (L2 : TwoStack.ChangeLib) (LC : Cursor.ChangeLib) :
  (forall (m : TwoStack.Mutation) (s : TwoStack.State),
      TwoStack.historyRef (TwoStack.mutate m s)
      = Js.push (TwoStack.historyRef s)
          {| TwoStack.snap_nodes := TwoStack.nodes s;
             TwoStack.snap_edges := TwoStack.edges s |})
  /\ (forall (m : Cursor.Mutation) (s : Cursor.State),
        Cursor.takesEffect m = true ->
        Cursor.fromProps m = true ->
        Cursor.skipHistoryRef s = false ->
        Cursor.history (Cursor.mutate m s)
        = Js.slice0 (Cursor.history s) (Cursor.historyIndex s + 1)
          ++ [Cursor.jsonCopy (Cursor.nodes (Cursor.mutate m s))
                (Cursor.edges (Cursor.mutate m s))])
  /\ (forall (m : Cursor.Mutation) (s : Cursor.State),
        Cursor.takesEffect m = true ->
        Cursor.fromProps m = true ->
        Cursor.skipHistoryRef s = false ->
        Cursor.inSync s ->
        Cursor.undoStack (Cursor.mutate m s)
        = Cursor.undoStack s
          ++ [Cursor.jsonCopy (Cursor.nodes s) (Cursor.edges s)]).
Proof.
  split; [|split].
  - intros m s. rewrite TwoStackFacts.ts_mutate_history.
    now rewrite TwoStackFacts.ts_jsonCopy_same.
  - intros m s Ht Hp Hk.
    now destruct (CursorFacts.cur_mutate_recorded m s Ht Hp Hk) as (a & _).
  - intros m s Ht Hp Hk Hs.
    now apply CursorFacts.cur_mutate_undoStack.
Qed.

Lemma history_entry_of_mutation_witness :
  let s := Cursor.run [Demo.drop_1] Cursor.init in
  Cursor.takesEffect Demo.put_2 = true
  /\ Cursor.fromProps Demo.put_2 = true
  /\ Cursor.skipHistoryRef s = false
  /\ Cursor.inSync s
  /\ Cursor.history (Cursor.mutate Demo.put_2 s)
     = Js.slice0 (Cursor.history s) (Cursor.historyIndex s + 1)
       ++ [Cursor.jsonCopy (Cursor.nodes (Cursor.mutate Demo.put_2 s))
             (Cursor.edges (Cursor.mutate Demo.put_2 s))]
  /\ Cursor.undoStack (Cursor.mutate Demo.put_2 s)
     = Cursor.undoStack s
       ++ [Cursor.jsonCopy (Cursor.nodes s) (Cursor.edges s)].
Proof.
  pose proof (history_entry_of_mutation Demo.lib2 Demo.libC) as (_ & B & C).
  intros s.
  assert (Hk : Cursor.skipHistoryRef s = false) by reflexivity.
  assert (Hs : Cursor.inSync s) by reflexivity.
  exact (conj eq_refl
           (conj eq_refl
              (conj Hk
                 (conj Hs
                    (conj (B Demo.put_2 s eq_refl eq_refl Hk)
                          (C Demo.put_2 s eq_refl eq_refl Hk Hs)))))).
Defined.

(** C5 as stated fails in the cursor editor: the entry appended by the
    first drop holds the dropped node, while the store before the drop was
    empty. *)
Lemma drop_records_the_new_diagram :
  let s := Cursor.init in
  let s' := Cursor.mutate Demo.put_1 s in
  Cursor.nodes s = []
  /\ length (Cursor.history s') = S (length (Cursor.history s))
  /\ Js.at_ (Cursor.history s') 1
     = Some (Cursor.jsonCopy (Cursor.nodes s') (Cursor.edges s'))
  /\ length (Cursor.nodes s') = 1
  /\ Js.at_ (Cursor.history s') 1
     <> Some (Cursor.jsonCopy (Cursor.nodes s) (Cursor.edges s)).
Proof. repeat split. discriminate. Qed.

(** C6: undo with nothing to undo, and redo with nothing to redo, change
    nothing: the diagram and the whole history stay as they are.  In the
    two-stack editor the stacks are [historyRef] and [redoRef]; in the
    cursor editor nothing is left to undo when the cursor is on the first
    entry, and nothing to redo when no entry follows the cursor. *)
Theorem undo_redo_at_the_ends :
  (forall s : TwoStack.State,
      TwoStack.historyRef s = [] -> TwoStack.handleUndo s = s)
  /\ (forall s : TwoStack.State,
        TwoStack.redoRef s = [] -> TwoStack.handleRedo s = s)
  /\ (forall s : Cursor.State,
        Cursor.historyIndex s = 0 -> Cursor.undo s = s)
  /\ (forall s : Cursor.State,
        Cursor.redoStack s = [] -> Cursor.redo s = s).
Proof.
  split; [|split; [|split]].
  - exact TwoStackFacts.ts_handleUndo_empty.
  - exact TwoStackFacts.ts_handleRedo_empty.
  - exact CursorFacts.cur_undo_first.
  - intros s H. now apply CursorFacts.cur_redo_last,
      CursorFacts.cur_redoStack_nil.
Qed.

Lemma undo_redo_at_the_ends_witness :
  let s2 := TwoStack.init in
  let r2 := TwoStack.run [Demo.create_n1] TwoStack.init in
  let sc := Cursor.run [Demo.drop_1; Demo.undoC] Cursor.init in
  let rc := Cursor.run [Demo.drop_1] Cursor.init in
  (TwoStack.historyRef s2 = [] /\ TwoStack.handleUndo s2 = s2)
  /\ (TwoStack.redoRef r2 = [] /\ TwoStack.handleRedo r2 = r2)
  /\ (Cursor.historyIndex sc = 0 /\ Cursor.undo sc = sc)
  /\ (Cursor.redoStack rc = [] /\ Cursor.redo rc = rc).
Proof.
  pose proof undo_redo_at_the_ends as (A & B & C & D).
  intros s2 r2 sc rc.
  exact (conj (conj eq_refl (A s2 eq_refl))
           (conj (conj eq_refl (B r2 eq_refl))
              (conj (conj eq_refl (C sc eq_refl))
                 (conj eq_refl (D rc eq_refl))))).
Defined.

(** C7: loading a file whose [nodes] and [edges] are arrays of N nodes and
    M edges makes exactly these the live diagram (each node with the label
    callback attached) and replaces the history by the single entry that
    copies them, with the cursor on it, so that neither undo nor redo has
    anywhere to go; loading a file that does not parse, that holds
    [null], or that lacks one of the two members changes nothing at all.
    A file that parses and has both members, but whose [nodes] member
    makes [map] throw, is not loaded either, and yet the load is not undone
    as a whole: the diagram, the history and the cursor stay as they are,
    but [skipHistoryRef] stays set, and no mutation that follows is
    recorded. *)
Theorem load_replaces_or_leaves (L : Cursor.ChangeLib) :
  (forall (ns : list Cursor.Node) (es : list Cursor.Edge)
          (s : Cursor.State),
      let s' := Cursor.loadDiagram (Cursor.Parsed (Some ns) (Some es)) s in
      Cursor.nodes s' = map Cursor.withCallback ns
      /\ map Cursor.jsonNode (Cursor.nodes s') = map Cursor.jsonNode ns
      /\ length (Cursor.nodes s') = length ns
      /\ Cursor.edges s' = es
      /\ Cursor.history s' = [Cursor.jsonCopy ns es]
      /\ Cursor.historyIndex s' = 0
      /\ Cursor.undoStack s' = []
      /\ Cursor.redoStack s' = []
      /\ Cursor.undo s' = s'
      /\ Cursor.redo s' = s')
  /\ (forall s : Cursor.State, Cursor.loadDiagram Cursor.Unparseable s = s)
  /\ (forall s : Cursor.State,
        Cursor.loadDiagram Cursor.ParsedNull s = s
        /\ (forall es, Cursor.loadDiagram (Cursor.Parsed None es) s = s)
        /\ (forall ns, Cursor.loadDiagram (Cursor.Parsed ns None) s = s))
  /\ (forall (bad : Cursor.Unmappable) (s : Cursor.State),
        let s' := Cursor.loadDiagram (Cursor.Throwing bad) s in
        Cursor.nodes s' = Cursor.nodes s
        /\ Cursor.edges s' = Cursor.edges s
        /\ Cursor.history s' = Cursor.history s
        /\ Cursor.historyIndex s' = Cursor.historyIndex s
        /\ Cursor.skipHistoryRef s' = true
        /\ forall m : Cursor.Mutation,
             Cursor.history (Cursor.mutate m s') = Cursor.history s
             /\ Cursor.historyIndex (Cursor.mutate m s')
                = Cursor.historyIndex s).
Proof.
  split; [|split; [|split]].
  - intros ns es s s'. subst s'. simpl.
    rewrite CursorFacts.cur_jsonNodes_withCallback, length_map.
    unfold Cursor.jsonCopy.
    rewrite CursorFacts.cur_jsonNodes_withCallback.
    repeat split.
  - reflexivity.
  - intros s. split; [reflexivity|]. split.
    + reflexivity.
    + intros [ns|]; reflexivity.
  - intros bad s s'. subst s'. simpl.
    repeat (split; [reflexivity|]).
    intros m.
    destruct (CursorFacts.cur_mutate_skipped m (Cursor.setSkip true s)
                eq_refl) as (a & b & _).
    now split.
Qed.

(** C7 at a failing input: a file whose [nodes] and [edges] members are
    both the number 5, loaded after one node was dropped.  The test of the
    two members passes, the flag is set, [parsed.nodes.map] throws, and
    the flag stays set: the node dropped next is on the canvas and in no
    entry of the history. *)
Lemma failed_load_leaves_the_flag_set :
  let s := Cursor.run [Demo.drop_1] Cursor.init in
  let s' := Cursor.loadDiagram (Cursor.Throwing Cursor.NotAnArray) s in
  let t := Cursor.run [Demo.drop_2] s' in
  Cursor.skipHistoryRef s = false
  /\ Cursor.nodes s' = Cursor.nodes s
  /\ Cursor.history s' = Cursor.history s
  /\ Cursor.skipHistoryRef s' = true
  /\ length (Cursor.nodes t) = 2
  /\ Cursor.history t = Cursor.history s
  /\ Cursor.historyIndex t = Cursor.historyIndex s
  /\ Cursor.skipHistoryRef t = true.
Proof. repeat split. Qed.



(** C9: in the two-stack editor a relabel that names no node still pushes
    the copy of the current store on the undo stack and empties the redo
    stack, while nodes and edges stay as they are: one more undo step, and
    whatever could be redone is gone. *)
Theorem relabel_of_missing_node_is_recorded
    (i l : Js.jsstring) (s : TwoStack.State) :
  (forall n, In n (TwoStack.nodes s) -> TwoStack.id n <> i) ->
  let s' := TwoStack.onNodeLabelChange i l s in
  TwoStack.nodes s' = TwoStack.nodes s
  /\ TwoStack.edges s' = TwoStack.edges s
  /\ TwoStack.historyRef s'
     = Js.push (TwoStack.historyRef s)
         {| TwoStack.snap_nodes := TwoStack.nodes s;
            TwoStack.snap_edges := TwoStack.edges s |}
  /\ length (TwoStack.historyRef s') = S (length (TwoStack.historyRef s))
  /\ TwoStack.redoRef s' = []
  /\ TwoStack.handleRedo s' = s'.
Proof.
  intros Hno s'. subst s'. simpl.
  rewrite TwoStackFacts.ts_relabel_absent by exact Hno.
  rewrite TwoStackFacts.ts_jsonCopy_same, JsFacts.push_length.
  repeat (split; [reflexivity|]).
  apply TwoStackFacts.ts_handleRedo_empty. reflexivity.
Qed.

Lemma relabel_of_missing_node_is_recorded_witness :
  let s := TwoStack.run [Demo.create_n1; Demo.undo2] TwoStack.init in
  let s' := TwoStack.onNodeLabelChange (Js.lit "nonexistent") (Js.lit "X")
              s in
  (forall n, In n (TwoStack.nodes s) ->
             TwoStack.id n <> Js.lit "nonexistent")
  /\ length (TwoStack.redoRef s) = 1
  /\ TwoStack.nodes s' = TwoStack.nodes s
  /\ length (TwoStack.historyRef s') = S (length (TwoStack.historyRef s))
  /\ TwoStack.redoRef s' = [].
Proof.
  intros s s'.
  assert (Hno : forall n, In n (TwoStack.nodes s) ->
                          TwoStack.id n <> Js.lit "nonexistent").
  { intros n []. }
  destruct (relabel_of_missing_node_is_recorded
              (Js.lit "nonexistent") (Js.lit "X") s Hno)
    as (a & _ & _ & d & e & _).
  exact (conj Hno (conj eq_refl (conj a (conj d e)))).
Defined.

(** C10: when label editing ends, the label handed to the relabel callback
    is the text of the input with the white space at its two ends removed:
    it is [trim] of the text, it neither begins nor ends with white space,
    the text is the label between two runs of white space, and an input of
    white space alone commits the empty label.  The callback is called
    whenever the node has one; it is the function stored in the node, and
    whichever render that function belongs to, the nodes of the editor
    are then the nodes relabelled with that trimmed text, and the edges
    are as they were. *)
Theorem committed_label_is_trimmed
    (p : BaseShapeNode.Props) (t : Js.jsstring) :
  (BaseShapeNode.hasCallback p = true ->
   BaseShapeNode.onChangeLabel_call (BaseShapeNode.handleBlur p t)
   = Some (BaseShapeNode.props_id p, Js.trim t)
   /\ forall (c : Cursor.InNode.Closure) (s : Cursor.State),
        Cursor.nodes (BaseShapeNode.commitLabel c p t s)
        = Cursor.relabel (BaseShapeNode.props_id p) (Js.trim t)
            (Cursor.nodes s)
        /\ Cursor.edges (BaseShapeNode.commitLabel c p t s)
           = Cursor.edges s)
  /\ (forall i v,
        BaseShapeNode.onChangeLabel_call (BaseShapeNode.handleBlur p t)
        = Some (i, v) ->
        i = BaseShapeNode.props_id p
        /\ v = Js.trim t
        /\ Js.startsWithWhiteSpace v = false
        /\ Js.endsWithWhiteSpace v = false
        /\ (forallb Js.isWhiteSpace t = true -> v = [])
        /\ exists pre post,
             t = pre ++ v ++ post
             /\ forallb Js.isWhiteSpace pre = true
             /\ forallb Js.isWhiteSpace post = true).
Proof.
  split.
  - intros Hc. unfold BaseShapeNode.commitLabel, BaseShapeNode.handleBlur.
    simpl. rewrite Hc. split; [reflexivity|]. intros c s.
    unfold Cursor.InNode.handleLabelChange, Cursor.InNode.pushHistory.
    destruct (Cursor.skipHistoryRef s); split; reflexivity.
  - intros i v. unfold BaseShapeNode.handleBlur. simpl.
    destruct (BaseShapeNode.hasCallback p); [|discriminate].
    intros H. inversion H; subst. clear H.
    split; [reflexivity|]. split; [reflexivity|].
    split; [apply JsFacts.trim_start|].
    split; [apply JsFacts.trim_end|].
    split; [apply JsFacts.trim_blank|apply JsFacts.trim_split].
Qed.

Lemma committed_label_is_trimmed_witness :
  let p := {| BaseShapeNode.props_id := Js.lit "node_1";
              BaseShapeNode.props_data :=
                Some {| Cursor.label := [];
                        Cursor.onChangeLabel := true |} |} in
  BaseShapeNode.hasCallback p = true
  /\ BaseShapeNode.onChangeLabel_call
       (BaseShapeNode.handleBlur p (Js.lit "  Start here	 "))
     = Some (Js.lit "node_1", Js.lit "Start here")
  /\ BaseShapeNode.onChangeLabel_call
       (BaseShapeNode.handleBlur p (Js.lit "   "))
     = Some (Js.lit "node_1", []).
Proof.
  intros p.
  assert (Hc : BaseShapeNode.hasCallback p = true) by reflexivity.
  exact (conj Hc
           (conj (proj1 (proj1 (committed_label_is_trimmed p
                                  (Js.lit "  Start here	 ")) Hc))
                 (proj1 (proj1 (committed_label_is_trimmed p
                                  (Js.lit "   ")) Hc)))).
Defined.

(** C4, amended: the entry a mutation pushes (and in the cursor editor a
    mutation handled by a prop of the canvas, by one run of its updater,
    appends) is made of arrays that were not in the store before, are not
    the live arrays, and hold the copies of the live arrays; and whatever
    events follow, label edits through stored callbacks included, every
    snapshot the history holds keeps its content, because every handler
    makes new arrays and writes into none.  In the two-stack editor,
    moreover, no snapshot of either stack ever holds an array of the live
    diagram.  In the cursor editor no entry ever holds the live node
    array; the same does not hold of the edge array, which undo and redo
    hand from the entry to the live diagram.  What the entry of a label
    edit holds is left out. *)
Theorem history_entries_keep_their_content
    (A2 : TwoStackMem.ArrayLib) (AC : CursorMem.ArrayLib) :
  (forall (es later : list TwoStack.Event) (p : TwoStackMem.Snapshot),
      let s := TwoStackMem.run es TwoStackMem.init in
      In p (TwoStackMem.historyRef s ++ TwoStackMem.redoRef s) ->
      TwoStackMem.snap_nodes p <> TwoStackMem.nodes s
      /\ TwoStackMem.snap_edges p <> TwoStackMem.edges s
      /\ TwoStackMem.snapshotValue (TwoStackMem.run later s) p
         = TwoStackMem.snapshotValue s p)
  /\ (forall (es : list TwoStack.Event) (m : TwoStack.Mutation),
        let s := TwoStackMem.run es TwoStackMem.init in
        let t := TwoStackMem.mutate m s in
        exists p,
          TwoStackMem.historyRef t = Js.push (TwoStackMem.historyRef s) p
          /\ ~ Mem.valid (TwoStackMem.nodeArrays s) (TwoStackMem.snap_nodes p)
          /\ ~ Mem.valid (TwoStackMem.edgeArrays s) (TwoStackMem.snap_edges p)
          /\ TwoStackMem.snapshotValue t p
             = TwoStack.jsonCopy (TwoStack.nodes (TwoStackMem.value s))
                 (TwoStack.edges (TwoStackMem.value s)))
  /\ (forall (es later : list Cursor.Event) (p : CursorMem.HistoryEntry),
        let s := CursorMem.run es CursorMem.init in
        In p (CursorMem.history s) ->
        CursorMem.entry_nodes p <> CursorMem.nodes s
        /\ CursorMem.entryValue (CursorMem.run later s) p
           = CursorMem.entryValue s p)
  /\ (forall (es : list Cursor.Event) (m : Cursor.Mutation),
        let s := CursorMem.run es CursorMem.init in
        Cursor.takesEffect m = true ->
        Cursor.fromProps m = true ->
        CursorMem.skipHistoryRef s = false ->
        CursorMem.pushesCopy s (CursorMem.mutate m s)).
Proof.
  split; [|split; [|split]].
  - intros es later p s Hp.
    assert (Hs : TwoStackMem.separate s)
      by apply TwoStackMemFacts.tsm_run_separate,
               TwoStackMemFacts.tsm_separate_init.
    destruct (TwoStackMemFacts.tsm_separate_live s Hs p Hp) as [Hn He].
    split; [exact Hn|]. split; [exact He|].
    now apply TwoStackMemFacts.tsm_run_frame.
  - intros es m s t.
    assert (Hs : TwoStackMem.separate s)
      by apply TwoStackMemFacts.tsm_run_separate,
               TwoStackMemFacts.tsm_separate_init.
    destruct (TwoStackMemFacts.tsm_mutate_pushes_copy m s Hs)
      as (p & a & b & c & d & e).
    exists p. split; [exact a|].
    split; [unfold Mem.valid; rewrite b; lia|].
    split; [unfold Mem.valid; rewrite c; lia|].
    unfold TwoStackMem.snapshotValue. subst t. now rewrite d, e.
  - intros es later p s Hp.
    assert (Hs : CursorMem.inStore s)
      by apply CursorMemFacts.cm_run_inStore, CursorMemFacts.cm_inStore_init.
    split.
    + apply (CursorMemFacts.cm_run_apart es CursorMem.init
               CursorMemFacts.cm_inStore_init CursorMemFacts.cm_init_apart).
      exact Hp.
    + now apply CursorMemFacts.cm_run_frame.
  - intros es m s Ht Hp Hk.
    apply CursorMemFacts.cm_mutate_pushes_copy; [|exact Ht|exact Hp|exact Hk].
    apply CursorMemFacts.cm_run_inStore, CursorMemFacts.cm_inStore_init.
Qed.

Lemma history_entries_keep_their_content_witness :
  let s2 := @TwoStackMem.run Demo.mem2 [Demo.create_n1; Demo.create_n2]
              TwoStackMem.init in
  let p2 := {| TwoStackMem.snap_nodes := 1; TwoStackMem.snap_edges := 1 |} in
  let sc := @CursorMem.run Demo.memC [Demo.drop_1; Demo.drop_2]
              CursorMem.init in
  let pc := {| CursorMem.entry_nodes := 4; CursorMem.entry_edges := 2 |} in
  (In p2 (TwoStackMem.historyRef s2 ++ TwoStackMem.redoRef s2)
   /\ TwoStackMem.snap_nodes p2 <> TwoStackMem.nodes s2
   /\ TwoStackMem.snapshotValue
        (@TwoStackMem.run Demo.mem2 [Demo.connect_n1_n2; Demo.undo2] s2) p2
      = TwoStackMem.snapshotValue s2 p2)
  /\ (In pc (CursorMem.history sc)
      /\ CursorMem.entry_nodes pc <> CursorMem.nodes sc
      /\ CursorMem.entryValue
           (@CursorMem.run Demo.memC [Demo.undoC; Demo.redoC] sc) pc
         = CursorMem.entryValue sc pc)
  /\ (Cursor.takesEffect Demo.move_1 = true
      /\ Cursor.fromProps Demo.move_1 = true
      /\ CursorMem.skipHistoryRef sc = false
      /\ CursorMem.pushesCopy sc
           (@CursorMem.mutate Demo.memC Demo.move_1 sc)).
Proof.
  pose proof (history_entries_keep_their_content Demo.mem2 Demo.memC)
    as (A & _ & C & D).
  intros s2 p2 sc pc.
  assert (H2 : In p2 (TwoStackMem.historyRef s2 ++ TwoStackMem.redoRef s2))
    by (left; reflexivity).
  assert (Hc : In pc (CursorMem.history sc))
    by (right; left; reflexivity).
  assert (Hk : CursorMem.skipHistoryRef sc = false) by reflexivity.
  destruct (A [Demo.create_n1; Demo.create_n2]
              [Demo.connect_n1_n2; Demo.undo2] p2 H2) as (a & _ & c).
  exact (conj (conj H2 (conj a c))
           (conj (conj Hc
                    (C [Demo.drop_1; Demo.drop_2]
                       [Demo.undoC; Demo.redoC] pc Hc))
              (conj eq_refl
                 (conj eq_refl
                    (conj Hk
                       (D [Demo.drop_1; Demo.drop_2] Demo.move_1
                          eq_refl eq_refl Hk)))))).
Defined.

(** C4 as stated fails: after an undo in the cursor editor the live edge
    array is the very array of the entry under the cursor; and the
    snapshot that undo pushes in the two-stack editor is no copy, it holds
    the arrays that were live. *)
Lemma undo_shares_the_edge_array :
  let s := @CursorMem.run Demo.memC [Demo.drop_1; Demo.undoC]
             CursorMem.init in
  let before := @TwoStackMem.run Demo.mem2 [Demo.create_n1]
                  TwoStackMem.init in
  let after := TwoStackMem.handleUndo before in
  (exists p, Js.at_ (CursorMem.history s) (CursorMem.historyIndex s) = Some p
             /\ In p (CursorMem.history s)
             /\ CursorMem.entry_edges p = CursorMem.edges s)
  /\ TwoStackMem.redoRef after
     = [ {| TwoStackMem.snap_nodes := TwoStackMem.nodes before;
            TwoStackMem.snap_edges := TwoStackMem.edges before |} ].
Proof.
  split; [|reflexivity].
  eexists. split; [reflexivity|]. split; [left; reflexivity|reflexivity].
Qed.

(* ------------------------------------------------------------------ *)
(** ** The two readings of each editor agree, and a worked session *)

(** Run from the start, the two-stack editor over the object store holds,
    behind its references, exactly the state of the two-stack editor on
    values. *)
Theorem two_stack_store_agrees_with_values
    (AL : TwoStackMem.ArrayLib) (es : list TwoStack.Event) :
  TwoStackMem.value (TwoStackMem.run es TwoStackMem.init)
  = TwoStack.run es TwoStack.init.
Proof.
  change TwoStack.init with (TwoStackMem.value TwoStackMem.init).
  generalize TwoStackMemFacts.tsm_separate_init.
  generalize TwoStackMem.init.
  induction es as [|e es IH]; intros s Hs; [reflexivity|].
  change (TwoStackMem.run (e :: es) s)
    with (TwoStackMem.run es (TwoStackMem.handle e s)).
  change (TwoStack.run (e :: es) (TwoStackMem.value s))
    with (TwoStack.run es (TwoStack.handle e (TwoStackMem.value s))).
  rewrite <- (TwoStackMemFacts.tsm_handle_value e s Hs).
  apply IH. now apply TwoStackMemFacts.tsm_handle_separate.
Qed.

(** Run from the start, the cursor editor over the object store holds,
    behind its references, exactly the state of the cursor editor on
    values. *)
Theorem cursor_store_agrees_with_values
    (AL : CursorMem.ArrayLib) (es : list Cursor.Event) :
  CursorMem.value (CursorMem.run es CursorMem.init)
  = Cursor.run es Cursor.init.
Proof.
  change Cursor.init with (CursorMem.value CursorMem.init).
  generalize CursorMemFacts.cm_inStore_init.
  generalize CursorMem.init.
  induction es as [|e es IH]; intros s Hs; [reflexivity|].
  change (CursorMem.run (e :: es) s)
    with (CursorMem.run es (CursorMem.handle e s)).
  change (Cursor.run (e :: es) (CursorMem.value s))
    with (Cursor.run es (Cursor.handle e (CursorMem.value s))).
  destruct (CursorMemFacts.cm_handle_sim e s Hs) as (Hs' & _ & _ & Hv).
  rewrite <- Hv. now apply IH.
Qed.

(** The session of the specification, in the two-stack editor: two nodes
    are added and connected; the first undo removes the edge, the second
    removes the second node, and two redos bring both back, to the very
    state the three steps had reached. *)
Theorem worked_session :
  let s3 := TwoStack.run [Demo.create_n1; Demo.create_n2;
                          Demo.connect_n1_n2] TwoStack.init in
  let u1 := TwoStack.handleUndo s3 in
  let u2 := TwoStack.handleUndo u1 in
  (map TwoStack.id (TwoStack.nodes s3) = [Js.lit "n1"; Js.lit "n2"]
   /\ map (fun e => (TwoStack.source e, TwoStack.target e))
        (TwoStack.edges s3)
      = [(Some (Js.lit "n1"), Some (Js.lit "n2"))])
  /\ (length (TwoStack.nodes u1) = 2 /\ TwoStack.edges u1 = [])
  /\ map TwoStack.id (TwoStack.nodes u2) = [Js.lit "n1"]
  /\ TwoStack.handleRedo u2 = u1
  /\ TwoStack.handleRedo (TwoStack.handleRedo u2) = s3.
Proof. repeat split. Qed.

(* ------------------------------------------------------------------ *)
(** ** The two-stack history as a sequence *)

Module TimelineFacts.
Import Js JsFacts TwoStack TwoStackFacts Timeline.

Lemma tl_handleUndo (s : State) : timeline (handleUndo s) = timeline s.
Proof.
  destruct (historyRef s) as [|e h] eqn:E.
  - now rewrite ts_handleUndo_empty.
  - assert (Hne : historyRef s <> []) by (rewrite E; discriminate).
    destruct (last_split _ Hne) as (r & v & Hr).
    rewrite (ts_handleUndo_push s r v Hr). unfold timeline, live. simpl.
    rewrite Hr. unfold push. rewrite rev_app_distr, <- app_assoc.
    destruct v. reflexivity.
Qed.

Lemma tl_handleRedo (s : State) : timeline (handleRedo s) = timeline s.
Proof.
  destruct (redoRef s) as [|e h] eqn:E.
  - now rewrite ts_handleRedo_empty.
  - assert (Hne : redoRef s <> []) by (rewrite E; discriminate).
    destruct (last_split _ Hne) as (r & v & Hr).
    rewrite (ts_handleRedo_push s r v Hr). unfold timeline, live. simpl.
    rewrite Hr. unfold push. rewrite rev_app_distr, <- app_assoc.
    destruct v. reflexivity.
Qed.

Lemma tl_handleRedo_length (s : State) :
  length (historyRef (handleRedo s)) + length (redoRef (handleRedo s))
  = length (historyRef s) + length (redoRef s).
Proof.
  destruct (redoRef s) as [|e h] eqn:E.
  - rewrite ts_handleRedo_empty by exact E. now rewrite E.
  - assert (Hne : redoRef s <> []) by (rewrite E; discriminate).
    destruct (last_split _ Hne) as (r & v & Hr).
    rewrite <- E. rewrite (ts_handleRedo_push s r v Hr). simpl.
    rewrite Hr, !push_length. lia.
Qed.

Lemma tl_handleUndo_total (s : State) :
  length (historyRef (handleUndo s)) + length (redoRef (handleUndo s))
  = length (historyRef s) + length (redoRef s).
Proof.
  destruct (historyRef s) as [|e h] eqn:E.
  - rewrite ts_handleUndo_empty by exact E. now rewrite E.
  - assert (Hne : historyRef s <> []) by (rewrite E; discriminate).
    destruct (last_split _ Hne) as (r & v & Hr).
    rewrite <- E. rewrite (ts_handleUndo_push s r v Hr). simpl.
    rewrite Hr, !push_length. lia.
Qed.

(** [n] undos on a history that ends with the [n] snapshots [v :: l]. *)
Lemma tl_undo_n (l : list Snapshot) :
  forall (h : list Snapshot) (v : Snapshot) (s : State),
    historyRef s = h ++ v :: l ->
    let t := iter (S (length l)) handleUndo s in
    historyRef t = h /\ live t = v
    /\ length (redoRef t) = length (redoRef s) + S (length l).
Proof.
  induction l as [|w l IH] using rev_ind; intros h v s Hh t; subst t.
  - simpl. rewrite (ts_handleUndo_push s h v Hh). unfold live. simpl.
    rewrite push_length. destruct v. repeat split. lia.
  - replace (length (l ++ [w])) with (S (length l))
      by (rewrite length_app; simpl; lia).
    change (iter (S (S (length l))) handleUndo s)
      with (iter (S (length l)) handleUndo (handleUndo s)).
    assert (Hp : historyRef s = push (h ++ v :: l) w).
    { rewrite Hh. unfold push. now rewrite <- app_assoc. }
    destruct (IH h v (handleUndo s)) as (a & b & c).
    { rewrite (ts_handleUndo_push s _ w Hp). reflexivity. }
    split; [exact a|]. split; [exact b|].
    rewrite c, (ts_handleUndo_push s _ w Hp). simpl.
    rewrite push_length. lia.
Qed.

Section WithLib.
Context {L : ChangeLib}.

Lemma tl_handle_move (e : Event) (s : State) :
  isHistoryMove e = true ->
  timeline (handle e s) = timeline s
  /\ length (historyRef (handle e s)) + length (redoRef (handle e s))
     = length (historyRef s) + length (redoRef s).
Proof.
  destruct e; simpl; intros H; try discriminate.
  - split; [apply tl_handleUndo|apply tl_handleUndo_total].
  - split; [apply tl_handleRedo|apply tl_handleRedo_length].
Qed.

(** What a run of mutations leaves on the undo stack: the diagram it
    started from, then one snapshot for each mutation but the last. *)
Lemma tl_run_history (ms : list Mutation) :
  forall (m : Mutation) (s : State),
    exists l,
      historyRef (run (map Mutate (m :: ms)) s) = historyRef s ++ live s :: l
      /\ length l = length ms.
Proof.
  induction ms as [|m' ms IH]; intros m s.
  - exists []. split; [|reflexivity].
    change (run (map Mutate [m]) s) with (mutate m s).
    rewrite ts_mutate_history, ts_jsonCopy_same. reflexivity.
  - change (run (map Mutate (m :: m' :: ms)) s)
      with (run (map Mutate (m' :: ms)) (mutate m s)).
    destruct (IH m' (mutate m s)) as (l & Hl & Hn).
    exists (live (mutate m s) :: l). split; [|simpl; now rewrite Hn].
    rewrite Hl, ts_mutate_history, ts_jsonCopy_same. unfold push.
    rewrite <- app_assoc. reflexivity.
Qed.

End WithLib.

End TimelineFacts.

(** Undo and redo lose and create nothing: the sequence of diagrams made
    of the undo stack, the live diagram and the redo stack is the same
    after any run of undo and redo events, and so is the number of
    snapshots on the two stacks. *)
Theorem undo_redo_keep_the_timeline
    (L : TwoStack.ChangeLib) (es : list TwoStack.Event) (s : TwoStack.State) :
  forallb Timeline.isHistoryMove es = true ->
  Timeline.timeline (TwoStack.run es s) = Timeline.timeline s
  /\ length (TwoStack.historyRef (TwoStack.run es s))
     + length (TwoStack.redoRef (TwoStack.run es s))
     = length (TwoStack.historyRef s) + length (TwoStack.redoRef s).
Proof.
  revert s. induction es as [|e es IH]; intros s H; [now split|].
  simpl in H. apply andb_prop in H as [He Hes].
  change (TwoStack.run (e :: es) s)
    with (TwoStack.run es (TwoStack.handle e s)).
  destruct (IH (TwoStack.handle e s) Hes) as [a b].
  destruct (TimelineFacts.tl_handle_move e s He) as [c d].
  split; congruence.
Qed.

Lemma undo_redo_keep_the_timeline_witness :
  let s := TwoStack.run [Demo.create_n1; Demo.create_n2; Demo.connect_n1_n2]
             TwoStack.init in
  let es := [Demo.undo2; Demo.undo2; Demo.redo2; Demo.undo2; Demo.undo2;
             Demo.undo2] in
  forallb Timeline.isHistoryMove es = true
  /\ TwoStack.nodes (TwoStack.run es s) = []
  /\ Timeline.timeline (TwoStack.run es s) = Timeline.timeline s
  /\ length (TwoStack.historyRef (TwoStack.run es s))
     + length (TwoStack.redoRef (TwoStack.run es s))
     = length (TwoStack.historyRef s) + length (TwoStack.redoRef s).
Proof.
  intros s es.
  exact (conj eq_refl
           (conj eq_refl (undo_redo_keep_the_timeline Demo.lib2 es s eq_refl))).
Defined.

(** As many undos as there were mutations give back the diagram and the
    undo stack from before the first of them, whatever the state they
    started from; each undone diagram is then on the redo stack. *)
Theorem undo_returns_to_the_state_before
    (L : TwoStack.ChangeLib) (ms : list TwoStack.Mutation)
    (s : TwoStack.State) :
  let t := Js.iter (length ms) TwoStack.handleUndo
             (TwoStack.run (map TwoStack.Mutate ms) s) in
  TwoStack.nodes t = TwoStack.nodes s
  /\ TwoStack.edges t = TwoStack.edges s
  /\ TwoStack.historyRef t = TwoStack.historyRef s
  /\ length (TwoStack.redoRef t)
     = match ms with
       | [] => length (TwoStack.redoRef s)
       | _ :: _ => length ms
       end.
Proof.
  destruct ms as [|m ms]; [now repeat split|].
  intros t.
  destruct (TimelineFacts.tl_run_history ms m s) as (l & Hl & Hn).
  assert (Hr : TwoStack.redoRef (TwoStack.run (map TwoStack.Mutate (m :: ms)) s)
               = []).
  { clear. revert m s. induction ms as [|m' ms IH]; intros m s.
    - apply TwoStackFacts.ts_mutate_redo.
    - apply (IH m' (TwoStack.mutate m s)). }
  pose proof (TimelineFacts.tl_undo_n l (TwoStack.historyRef s)
                (Timeline.live s) _ Hl) as (a & b & c).
  subst t. change (length (m :: ms)) with (S (length ms)).
  rewrite <- Hn. rewrite Hr in c. injection b as bn be.
  split; [exact bn|]. split; [exact be|]. split; [exact a|].
  rewrite c. simpl. lia.
Qed.

(* ------------------------------------------------------------------ *)
(** ** The cursor and the length of the history *)

Module StoredFacts.
Import Js JsFacts Cursor CursorFacts.

Lemma st_undo_n (n : nat) :
  forall s : State,
    S n <= historyIndex s -> historyIndex s <= length (history s) ->
    exists e,
      at_ (history s) (historyIndex s - S n) = Some e
      /\ iter (S n) undo s
         = {| nodes := map withCallback (entry_nodes e);
              edges := entry_edges e;
              history := history s;
              historyIndex := historyIndex s - S n;
              skipHistoryRef := true |}.
Proof.
  induction n as [|n IH]; intros s Hn Hl.
  - destruct (cur_at_some (history s) (historyIndex s - 1)) as [e He]; [lia|].
    exists e. split; [exact He|]. simpl. apply cur_undo_at; [lia|exact He].
  - destruct (cur_at_some (history s) (historyIndex s - 1)) as [e He]; [lia|].
    change (iter (S (S n)) undo s) with (iter (S n) undo (undo s)).
    rewrite (cur_undo_at s e) by (lia || exact He).
    match goal with |- context [iter (S n) undo ?u] =>
      destruct (IH u) as (e' & He' & Hu); [simpl; lia|simpl; lia|]
    end.
    simpl history in *. simpl historyIndex in *.
    exists e'. split.
    + rewrite <- He'. f_equal. lia.
    + rewrite Hu. f_equal. lia.
Qed.

Lemma st_undo_outside (s : State) :
  length (history s) < historyIndex s -> undo s = setSkip true s.
Proof.
  intros H. unfold undo.
  destruct (Z.ltb_spec 0 (Z.of_nat (historyIndex s))); [|lia].
  destruct (at_ (history s) (historyIndex s - 1)) eqn:E; [|reflexivity].
  assert (historyIndex s - 1 < length (history s)); [|lia].
  apply nth_error_Some. unfold at_ in E. congruence.
Qed.

Lemma st_undo_bounds (s : State) :
  historyIndex s < length (history s) ->
  historyIndex (undo s) < length (history (undo s)).
Proof.
  intros H. unfold undo.
  destruct (0 <? Z.of_nat (historyIndex s))%Z; [|exact H].
  destruct (at_ (history s) (historyIndex s - 1)); simpl; lia.
Qed.

Lemma st_redo_bounds (s : State) :
  historyIndex s < length (history s) ->
  historyIndex (redo s) < length (history (redo s)).
Proof.
  intros H. unfold redo.
  destruct (Z.ltb_spec (Z.of_nat (historyIndex s))
              (Z.of_nat (length (history s)) - 1)); [|exact H].
  destruct (at_ (history s) (historyIndex s + 1)); simpl; lia.
Qed.

Lemma st_load_bounds (file : FileContent) (s : State) :
  historyIndex s < length (history s) ->
  historyIndex (loadDiagram file s) < length (history (loadDiagram file s)).
Proof.
  intros H. destruct file as [|[ns|] [es|]| |bad]; simpl; auto.
Qed.

Section WithLib.
Context {L : ChangeLib}.

Lemma st_not_effective (m : Mutation) (s : State) :
  takesEffect m = false -> mutate m s = s.
Proof.
  destruct m as [ch|ch|p now|ev|c i v]; simpl; try discriminate.
  unfold onDrop. destruct (droppedType ev); [discriminate|reflexivity].
Qed.

Lemma st_mutate_bounds (m : Mutation) (s : State) :
  fromProps m = true ->
  historyIndex s < length (history s) ->
  historyIndex (mutate m s) < length (history (mutate m s)).
Proof.
  intros Hp H.
  destruct (takesEffect m) eqn:Ht; [|now rewrite st_not_effective].
  destruct (skipHistoryRef s) eqn:Hk.
  - destruct (cur_mutate_skipped m s Hk) as (a & b & _). now rewrite a, b.
  - destruct (cur_mutate_recorded m s Ht Hp Hk) as (a & b & _).
    rewrite a, b, length_app. unfold slice0. rewrite length_firstn.
    simpl. lia.
Qed.

Lemma st_handle_bounds (e : Event) (s : State) :
  viaProps e = true ->
  historyIndex s < length (history s) ->
  historyIndex (handle e s) < length (history (handle e s)).
Proof.
  destruct e as [m| | |file|]; simpl; intros Hp.
  - now apply st_mutate_bounds.
  - apply st_undo_bounds.
  - apply st_redo_bounds.
  - apply st_load_bounds.
  - auto.
Qed.

Lemma st_run_bounds (es : list Event) (s : State) :
  forallb viaProps es = true ->
  historyIndex s < length (history s) ->
  historyIndex (run es s) < length (history (run es s)).
Proof.
  revert s. induction es as [|e es IH]; intros s Hall H; [exact H|].
  simpl in Hall. apply andb_prop in Hall as [He Hall].
  change (run (e :: es) s) with (run es (handle e s)).
  apply IH; [exact Hall|]. now apply st_handle_bounds.
Qed.

(** What recorded mutations leave of the history they found: the entries
    up to the cursor they started from. *)
Lemma st_run_recorded (ms : list Mutation) :
  forall s : State,
    forallb takesEffect ms = true -> forallb fromProps ms = true ->
    skipHistoryRef s = false ->
    historyIndex s < length (history s) ->
    let u := run (map Mutate ms) s in
    skipHistoryRef u = false
    /\ historyIndex u = historyIndex s + length ms
    /\ historyIndex u < length (history u)
    /\ firstn (S (historyIndex s)) (history u)
       = firstn (S (historyIndex s)) (history s).
Proof.
  induction ms as [|m ms IH]; intros s Hall Hprops Hk Hl u; subst u.
  - simpl. repeat split; auto; lia.
  - simpl in Hall. apply andb_prop in Hall as [Hm Hall].
    simpl in Hprops. apply andb_prop in Hprops as [Hp Hprops].
    change (run (map Mutate (m :: ms)) s)
      with (run (map Mutate ms) (mutate m s)).
    destruct (cur_mutate_recorded m s Hm Hp Hk) as (a & b & c).
    destruct (IH (mutate m s) Hall Hprops c (st_mutate_bounds m s Hp Hl))
      as (d & e & f & g).
    split; [exact d|]. split; [rewrite e, b; simpl; lia|].
    split; [exact f|].
    rewrite b in g.
    apply (f_equal (firstn (S (historyIndex s)))) in g.
    rewrite !firstn_firstn in g.
    replace (Nat.min (S (historyIndex s)) (S (historyIndex s + 1)))
      with (S (historyIndex s)) in g by lia.
    rewrite g, a. unfold slice0.
    replace (historyIndex s + 1) with (S (historyIndex s)) by lia.
    rewrite firstn_app, firstn_firstn, Nat.min_id, length_firstn.
    replace (S (historyIndex s) - Nat.min (S (historyIndex s))
                                    (length (history s))) with 0 by lia.
    simpl. apply app_nil_r.
Qed.

End WithLib.

End StoredFacts.

(** Redo followed at once by undo gives back the state it started from,
    wherever redo has a diagram to go to or undo has none to return to:
    the whole state in the two-stack editor; the diagram as JSON data,
    the history and the cursor in the cursor editor, for a state whose
    entry under the cursor is the copy of the live diagram. *)
Theorem redo_undo_round_trip :
  (forall s : TwoStack.State,
      TwoStack.redoRef s <> [] \/ TwoStack.historyRef s = [] ->
      TwoStack.handleUndo (TwoStack.handleRedo s) = s)
  /\ (forall s : Cursor.State,
        Cursor.redoStack s <> [] \/ Cursor.historyIndex s = 0 ->
        Cursor.inSync s ->
        Cursor.sameEditor (Cursor.undo (Cursor.redo s)) s).
Proof.
  split.
  - intros s [Hne | Hh].
    + now apply TwoStackFacts.ts_undo_redo.
    + destruct (TwoStack.redoRef s) eqn:E.
      * rewrite (TwoStackFacts.ts_handleRedo_empty s E).
        now apply TwoStackFacts.ts_handleUndo_empty.
      * apply TwoStackFacts.ts_undo_redo. rewrite E. discriminate.
  - intros s Hr Hs.
    destruct (Nat.le_gt_cases (length (Cursor.history s))
                (Cursor.historyIndex s + 1)) as [Hlast | Hmore].
    + rewrite (CursorFacts.cur_redo_last s Hlast).
      destruct Hr as [Hr | H0].
      * exfalso. apply Hr. now apply CursorFacts.cur_redoStack_nil.
      * rewrite (CursorFacts.cur_undo_first s H0).
        apply CursorFacts.cur_sameEditor_refl.
    + destruct (CursorFacts.cur_at_some (Cursor.history s)
                  (Cursor.historyIndex s + 1) Hmore) as [e He].
      rewrite (CursorFacts.cur_redo_at s e He).
      erewrite CursorFacts.cur_undo_at.
      2:{ simpl. lia. }
      2:{ simpl. replace (Cursor.historyIndex s + 1 - 1)
            with (Cursor.historyIndex s) by lia. exact Hs. }
      unfold Cursor.sameEditor. simpl.
      rewrite CursorFacts.cur_jsonNodes_withCallback,
        CursorFacts.cur_jsonNodes_idem, CursorFacts.cur_jsonEdges_same.
      repeat split. lia.
Qed.

Lemma redo_undo_round_trip_witness :
  let s2 := TwoStack.run [Demo.create_n1; Demo.connect_n1_n2; Demo.undo2]
              TwoStack.init in
  let sc := Cursor.run [Demo.drop_1; Demo.drop_2; Demo.undoC] Cursor.init in
  ((TwoStack.redoRef s2 <> [] \/ TwoStack.historyRef s2 = [])
   /\ TwoStack.handleUndo (TwoStack.handleRedo s2) = s2)
  /\ ((Cursor.redoStack sc <> [] \/ Cursor.historyIndex sc = 0)
      /\ Cursor.inSync sc
      /\ Cursor.sameEditor (Cursor.undo (Cursor.redo sc)) sc).
Proof.
  pose proof redo_undo_round_trip as (A & B).
  intros s2 sc.
  assert (H2 : TwoStack.redoRef s2 <> [] \/ TwoStack.historyRef s2 = [])
    by (left; discriminate).
  assert (Hc : Cursor.redoStack sc <> [] \/ Cursor.historyIndex sc = 0)
    by (left; discriminate).
  assert (Hs : Cursor.inSync sc) by reflexivity.
  exact (conj (conj H2 (A s2 H2)) (conj Hc (conj Hs (B sc Hc Hs)))).
Defined.

(** Where React runs every updater once (a production build; the
    development build under [React.StrictMode] runs them twice), and as
    long as no label is edited, the cursor of the editor of [src/App.tsx]
    stays on an entry of the history: after any run of node and edge
    changes, connections, drops, undos, redos, loads and timer callbacks
    from the start, [historyIndex] is below [history.length], and an undo
    away from the first entry finds the entry it shows. *)
Theorem cursor_stays_inside_history
    (L : Cursor.ChangeLib) (es : list Cursor.Event) :
  forallb Cursor.viaProps es = true ->
  let s := Cursor.run es Cursor.init in
  Cursor.historyIndex s < length (Cursor.history s)
  /\ (0 < Cursor.historyIndex s ->
      exists e,
        Js.at_ (Cursor.history s) (Cursor.historyIndex s - 1) = Some e
        /\ Cursor.nodes (Cursor.undo s)
           = map Cursor.withCallback (Cursor.entry_nodes e)
        /\ Cursor.edges (Cursor.undo s) = Cursor.entry_edges e
        /\ Cursor.historyIndex (Cursor.undo s) = Cursor.historyIndex s - 1).
Proof.
  intros Hall s.
  assert (H : Cursor.historyIndex s < length (Cursor.history s)).
  { apply StoredFacts.st_run_bounds; [exact Hall|]. simpl. lia. }
  split; [exact H|]. intros Hpos.
  destruct (CursorFacts.cur_at_some (Cursor.history s)
              (Cursor.historyIndex s - 1)) as [e He]; [lia|].
  exists e. split; [exact He|].
  rewrite (CursorFacts.cur_undo_at s e Hpos He). now repeat split.
Qed.

Lemma cursor_stays_inside_history_witness :
  let es := [Demo.drop_1; Demo.drop_2; Demo.undoC; Cursor.Timeout;
             Cursor.Mutate Demo.move_1; Demo.redoC] in
  let s := Cursor.run es Cursor.init in
  forallb Cursor.viaProps es = true
  /\ Cursor.historyIndex s = 2
  /\ Cursor.historyIndex s < length (Cursor.history s)
  /\ (0 < Cursor.historyIndex s ->
      exists e,
        Js.at_ (Cursor.history s) (Cursor.historyIndex s - 1) = Some e
        /\ Cursor.nodes (Cursor.undo s)
           = map Cursor.withCallback (Cursor.entry_nodes e)
        /\ Cursor.edges (Cursor.undo s) = Cursor.entry_edges e
        /\ Cursor.historyIndex (Cursor.undo s) = Cursor.historyIndex s - 1).
Proof.
  intros es s.
  exact (conj eq_refl
           (conj eq_refl (cursor_stays_inside_history Demo.libC es eq_refl))).
Defined.

(** In the cursor editor, where React runs every updater once (a
    production build; the development build under [React.StrictMode] runs
    them twice), after mutations that were recorded, as many undos as
    there were mutations show the diagram from before the first of them,
    as JSON data, with the cursor where it was.  The mutations are those
    whose handler the canvas gets as a prop; the editor starts with the
    flag clear and the entry under the cursor in sync. *)
Theorem undo_returns_to_the_diagram_before
    (L : Cursor.ChangeLib) (ms : list Cursor.Mutation) (s : Cursor.State) :
  forallb Cursor.takesEffect ms = true ->
  forallb Cursor.fromProps ms = true ->
  Cursor.skipHistoryRef s = false ->
  Cursor.inSync s ->
  let t := Js.iter (length ms) Cursor.undo
             (Cursor.run (map Cursor.Mutate ms) s) in
  map Cursor.jsonNode (Cursor.nodes t) = map Cursor.jsonNode (Cursor.nodes s)
  /\ Cursor.edges t = Cursor.edges s
  /\ Cursor.historyIndex t = Cursor.historyIndex s.
Proof.
  intros Hall Hprops Hk Hs t.
  destruct ms as [|m ms]; [now repeat split|].
  pose proof (CursorFacts.cur_inSync_lt s Hs) as Hl.
  destruct (StoredFacts.st_run_recorded (m :: ms) s Hall Hprops Hk Hl)
    as (_ & b & c & d).
  set (u := Cursor.run (map Cursor.Mutate (m :: ms)) s) in *.
  change (length (m :: ms)) with (S (length ms)) in *.
  destruct (StoredFacts.st_undo_n (length ms) u) as (e & He & Hu);
    [lia|lia|].
  subst t. rewrite Hu. simpl.
  assert (Hi : Cursor.historyIndex u - S (length ms) = Cursor.historyIndex s)
    by lia.
  rewrite Hi in He.
  assert (Hee : e = Cursor.jsonCopy (Cursor.nodes s) (Cursor.edges s)).
  { unfold Js.at_ in He.
    assert (Hf : nth_error (firstn (S (Cursor.historyIndex s))
                              (Cursor.history u)) (Cursor.historyIndex s)
                 = Some e).
    { rewrite nth_error_firstn.
      destruct (Nat.ltb_spec (Cursor.historyIndex s)
                  (S (Cursor.historyIndex s))); [exact He|lia]. }
    rewrite d, nth_error_firstn in Hf.
    destruct (Nat.ltb_spec (Cursor.historyIndex s)
                (S (Cursor.historyIndex s))); [|lia].
    unfold Cursor.inSync, Js.at_ in Hs. congruence. }
  subst e. simpl.
  rewrite CursorFacts.cur_jsonNodes_withCallback,
    CursorFacts.cur_jsonNodes_idem, CursorFacts.cur_jsonEdges_same.
  repeat split. exact Hi.
Qed.

Lemma undo_returns_to_the_diagram_before_witness :
  let s := Cursor.run [Demo.drop_1; Demo.drop_2; Demo.undoC; Cursor.Timeout]
             Cursor.init in
  let t := Js.iter 3 Cursor.undo
             (Cursor.run (map Cursor.Mutate Examples.moves) s) in
  forallb Cursor.takesEffect Examples.moves = true
  /\ forallb Cursor.fromProps Examples.moves = true
  /\ Cursor.skipHistoryRef s = false
  /\ Cursor.inSync s
  /\ length (Cursor.nodes s) = 1
  /\ map Cursor.jsonNode (Cursor.nodes t) = map Cursor.jsonNode (Cursor.nodes s)
  /\ Cursor.edges t = Cursor.edges s
  /\ Cursor.historyIndex t = Cursor.historyIndex s.
Proof.
  intros s t.
  assert (Hk : Cursor.skipHistoryRef s = false) by reflexivity.
  assert (Hs : Cursor.inSync s) by reflexivity.
  exact (conj eq_refl
           (conj eq_refl
              (conj Hk
                 (conj Hs
                    (conj eq_refl
                       (undo_returns_to_the_diagram_before Demo.libC
                          Examples.moves s eq_refl eq_refl Hk Hs)))))).
Defined.

(* ------------------------------------------------------------------ *)
(** ** The label callback of an earlier render *)

Module ClosureFacts.
Import Js JsFacts Cursor CursorFacts.

(** The stored callback does what [handleLabelChange] of the present
    render would do when it has closed over the present cursor and edges,
    and whenever the flag is set. *)
Lemma cl_current (c : Stored.Closure) (i value : jsstring) (s : State) :
  skipHistoryRef s = true
  \/ (Stored.closed_historyIndex c = historyIndex s
      /\ Stored.closed_edges c = edges s) ->
  Stored.handleLabelChange c i value s = handleLabelChange i value s.
Proof.
  unfold Stored.handleLabelChange, handleLabelChange, Stored.pushHistory,
    pushHistory.
  intros [Hk | [Hi He]]; [now rewrite Hk|now rewrite Hi, He].
Qed.

Lemma cl_pushHistory_nodes (seen : nat) (ns : list Node) (es : list Edge)
    (s : State) :
  nodes (Stored.pushHistory seen ns es s) = nodes s
  /\ edges (Stored.pushHistory seen ns es s) = edges s
  /\ skipHistoryRef (Stored.pushHistory seen ns es s) = skipHistoryRef s.
Proof.
  unfold Stored.pushHistory. destruct (skipHistoryRef s) eqn:E; simpl; auto.
Qed.

Lemma cl_label_recorded (c : Stored.Closure) (i value : jsstring)
    (s : State) :
  skipHistoryRef s = false ->
  let s' := Stored.handleLabelChange c i value s in
  nodes s' = relabel i value (nodes s)
  /\ edges s' = edges s
  /\ history s'
     = firstn (S (Stored.closed_historyIndex c)) (history s)
       ++ [jsonCopy (nodes s') (Stored.closed_edges c)]
  /\ historyIndex s' = historyIndex s + 1
  /\ skipHistoryRef s' = false.
Proof.
  intros Hk s'. subst s'. unfold Stored.handleLabelChange, Stored.pushHistory.
  rewrite Hk. unfold slice0. simpl.
  replace (Stored.closed_historyIndex c + 1)
    with (S (Stored.closed_historyIndex c)) by lia.
  now repeat split.
Qed.

Lemma cl_label_skipped (c : Stored.Closure) (i value : jsstring)
    (s : State) :
  skipHistoryRef s = true ->
  Stored.handleLabelChange c i value s = setNodes (relabel i value (nodes s)) s.
Proof.
  intros Hk. unfold Stored.handleLabelChange, Stored.pushHistory.
  now rewrite Hk.
Qed.

Lemma cl_relabel_editable (i value : jsstring) (ns : list Node) :
  forallb Stored.editable ns = true ->
  forallb Stored.editable (relabel i value ns) = true.
Proof.
  unfold relabel. induction ns as [|n ns IH]; simpl; [auto|].
  intros H. apply andb_prop in H as [Hn Hns].
  rewrite (IH Hns), andb_true_r.
  destruct (streq (id n) i); [reflexivity|exact Hn].
Qed.

Lemma cl_withCallback_editable (ns : list Node) :
  forallb Stored.editable (map withCallback ns) = true.
Proof. induction ns as [|n ns IH]; simpl; auto. Qed.

Lemma cl_undo_editable (s : State) :
  forallb Stored.editable (nodes s) = true ->
  forallb Stored.editable (nodes (undo s)) = true.
Proof.
  intros H. unfold undo.
  destruct (0 <? Z.of_nat (historyIndex s))%Z; [|exact H].
  destruct (at_ (history s) (historyIndex s - 1)); simpl;
    [apply cl_withCallback_editable|exact H].
Qed.

Lemma cl_redo_editable (s : State) :
  forallb Stored.editable (nodes s) = true ->
  forallb Stored.editable (nodes (redo s)) = true.
Proof.
  intros H. unfold redo.
  destruct (Z.of_nat (historyIndex s) <? _)%Z; [|exact H].
  destruct (at_ (history s) (historyIndex s + 1)); simpl;
    [apply cl_withCallback_editable|exact H].
Qed.

Lemma cl_load_editable (file : FileContent) (s : State) :
  forallb Stored.editable (nodes s) = true ->
  forallb Stored.editable (nodes (loadDiagram file s)) = true.
Proof.
  intros H. destruct file as [|[ns|] [es|]| |bad]; simpl; auto.
  apply cl_withCallback_editable.
Qed.

Lemma cl_pushHistory_same_nodes (ns : list Node) (es : list Edge)
    (s : State) :
  nodes (pushHistory ns es s) = nodes s.
Proof. unfold pushHistory. destruct (skipHistoryRef s); reflexivity. Qed.

Lemma cl_drop_editable (ev : DropEvent) (s : State) :
  forallb Stored.editable (nodes s) = true ->
  forallb Stored.editable (nodes (onDrop ev s)) = true.
Proof.
  intros H. unfold onDrop. destruct (droppedType ev) as [ty|]; [|exact H].
  rewrite cl_pushHistory_same_nodes. simpl.
  rewrite forallb_app, H. reflexivity.
Qed.

Lemma cl_demo_keeps_callbacks
    (cs : list (Demo.Change XYPosition)) (ns : list Node) :
  forallb Stored.editable ns = true ->
  forallb Stored.editable (Demo.applyChanges id Demo.updNodeC cs ns) = true.
Proof.
  induction ns as [|n ns IH]; simpl; [auto|].
  intros H. apply andb_prop in H as [Hn Hns]. specialize (IH Hns).
  destruct (Demo.find_change cs (id n)) as [[j|j p|j b]|]; simpl;
    try exact IH; rewrite IH, andb_true_r; exact Hn.
Qed.

Section WithLib.
Context {L : ChangeLib}.

Lemma cl_mutate_editable (m : Mutation) (s : State) :
  (forall cs ns, forallb Stored.editable ns = true ->
                 forallb Stored.editable (applyNodeChanges cs ns) = true) ->
  forallb Stored.editable (nodes s) = true ->
  forallb Stored.editable (nodes (mutate m s)) = true.
Proof.
  intros Hlib H. destruct m as [ch|ch|p now|ev|c i v]; simpl.
  - unfold onNodesChange. simpl. now apply Hlib.
  - unfold onEdgesChange. simpl. now rewrite cl_pushHistory_same_nodes.
  - unfold onConnect. simpl. now rewrite cl_pushHistory_same_nodes.
  - now apply cl_drop_editable.
  - unfold InNode.handleLabelChange. simpl. now apply cl_relabel_editable.
Qed.

Lemma cl_handle_editable (e : Stored.Event) (s : State) :
  (forall cs ns, forallb Stored.editable ns = true ->
                 forallb Stored.editable (applyNodeChanges cs ns) = true) ->
  forallb Stored.editable (nodes s) = true ->
  forallb Stored.editable (nodes (Stored.handle e s)) = true.
Proof.
  intros Hlib H. destruct e as [[m| | |file|]|c i v]; simpl.
  - now apply cl_mutate_editable.
  - now apply cl_undo_editable.
  - now apply cl_redo_editable.
  - now apply cl_load_editable.
  - exact H.
  - unfold Stored.handleLabelChange. simpl. now apply cl_relabel_editable.
Qed.

(** While the flag is set and the cursor is beyond the history, an event
    other than a load and the timer callback leaves the history, the
    cursor and the flag as they are. *)
Lemma cl_handle_frozen (e : Stored.Event) (s : State) :
  Stored.noReset e = true ->
  length (history s) < historyIndex s -> skipHistoryRef s = true ->
  history (Stored.handle e s) = history s
  /\ historyIndex (Stored.handle e s) = historyIndex s
  /\ skipHistoryRef (Stored.handle e s) = true.
Proof.
  intros He Hl Hk. destruct e as [[m| | |file|]|c i v];
    try discriminate He; unfold Stored.handle, handle.
  - apply (cur_mutate_skipped m s Hk).
  - rewrite StoredFacts.st_undo_outside by exact Hl. simpl. auto.
  - rewrite cur_redo_last by lia. auto.
  - rewrite cl_label_skipped by exact Hk. simpl. auto.
Qed.

Lemma cl_run_frozen (es : list Stored.Event) :
  forall s : State,
    forallb Stored.noReset es = true ->
    length (history s) < historyIndex s -> skipHistoryRef s = true ->
    history (Stored.run es s) = history s
    /\ historyIndex (Stored.run es s) = historyIndex s
    /\ skipHistoryRef (Stored.run es s) = true.
Proof.
  induction es as [|e es IH]; intros s Hall Hl Hk; [auto|].
  simpl in Hall. apply andb_prop in Hall as [He Hall].
  change (Stored.run (e :: es) s) with (Stored.run es (Stored.handle e s)).
  destruct (cl_handle_frozen e s He Hl Hk) as (a & b & c).
  destruct (IH (Stored.handle e s) Hall) as (a' & b' & c');
    [rewrite a, b; exact Hl|exact c|].
  split; [congruence|]. split; [congruence|exact c'].
Qed.

End WithLib.

End ClosureFacts.

(** A label edit reaches the editor through the callback stored in the
    node.  When that callback was made by a render whose cursor was
    before the present one, and the flag is clear, the edit cuts the
    history after the entry that render had under its cursor, appends
    the copy of the relabelled nodes with the edges of that render, and
    adds one to the present cursor: the cursor is then at or beyond the
    end of the history, no entry is under it, and redo does nothing. *)
Theorem stale_label_callback_leaves_the_history
    (c : Stored.Closure) (i value : Js.jsstring) (s : Cursor.State) :
  Cursor.skipHistoryRef s = false ->
  Stored.closed_historyIndex c < Cursor.historyIndex s ->
  let s' := Stored.handleLabelChange c i value s in
  Cursor.nodes s' = Cursor.relabel i value (Cursor.nodes s)
  /\ Cursor.history s'
     = firstn (S (Stored.closed_historyIndex c)) (Cursor.history s)
       ++ [Cursor.jsonCopy (Cursor.nodes s') (Stored.closed_edges c)]
  /\ Cursor.historyIndex s' = Cursor.historyIndex s + 1
  /\ length (Cursor.history s') <= Cursor.historyIndex s'
  /\ Js.at_ (Cursor.history s') (Cursor.historyIndex s') = None
  /\ Cursor.redo s' = s'.
Proof.
  intros Hk Hc s'.
  destruct (ClosureFacts.cl_label_recorded c i value s Hk)
    as (a & _ & b & d & _).
  fold s' in a, b, d.
  assert (Hlen : length (Cursor.history s') <= Cursor.historyIndex s').
  { pose proof (f_equal (@length _) b) as Hb.
    rewrite length_app, length_firstn in Hb. cbn [length] in Hb. lia. }
  split; [exact a|]. split; [exact b|]. split; [exact d|].
  split; [exact Hlen|]. split.
  - unfold Js.at_. now apply nth_error_None.
  - apply CursorFacts.cur_redo_last. lia.
Qed.

Lemma stale_label_callback_leaves_the_history_witness :
  let s := Examples.afterDrop in
  let s' := Stored.handleLabelChange Examples.firstClosure
              (Js.lit "node_1") (Js.lit "Start") s in
  Cursor.skipHistoryRef s = false
  /\ Stored.closed_historyIndex Examples.firstClosure < Cursor.historyIndex s
  /\ Cursor.nodes s' = Cursor.relabel (Js.lit "node_1") (Js.lit "Start")
                         (Cursor.nodes s)
  /\ Cursor.history s'
     = firstn (S (Stored.closed_historyIndex Examples.firstClosure))
         (Cursor.history s)
       ++ [Cursor.jsonCopy (Cursor.nodes s')
             (Stored.closed_edges Examples.firstClosure)]
  /\ Cursor.historyIndex s' = Cursor.historyIndex s + 1
  /\ length (Cursor.history s') <= Cursor.historyIndex s'
  /\ Js.at_ (Cursor.history s') (Cursor.historyIndex s') = None
  /\ Cursor.redo s' = s'.
Proof.
  intros s s'.
  assert (Hk : Cursor.skipHistoryRef s = false) by reflexivity.
  assert (Hc : Stored.closed_historyIndex Examples.firstClosure
               < Cursor.historyIndex s) by exact (Nat.lt_0_succ 0).
  exact (conj Hk
           (conj Hc
              (stale_label_callback_leaves_the_history
                 Examples.firstClosure (Js.lit "node_1") (Js.lit "Start")
                 s Hk Hc))).
Defined.

(** The node that [onDrop] makes holds the callback of the render that
    handled the drop, whose cursor is the one from before the drop was
    recorded.  A label edit of the new node therefore replaces the entry
    of the drop by the entry of the edit: the history holds no diagram
    with the node as it was dropped, the cursor is one beyond the last
    entry, and the next undo shows the diagram the edit left. *)
Theorem label_edit_after_drop_replaces_the_drop
    (ev : Cursor.DropEvent) (ty value : Js.jsstring) (s : Cursor.State) :
  Cursor.skipHistoryRef s = false ->
  Cursor.historyIndex s < length (Cursor.history s) ->
  Cursor.droppedType ev = Some ty ->
  let s1 := Cursor.onDrop ev s in
  let s2 := Stored.handleLabelChange (Stored.closureOf s)
              (Cursor.id (Cursor.droppedNode ty ev)) value s1 in
  Cursor.history s1
  = firstn (S (Cursor.historyIndex s)) (Cursor.history s)
    ++ [Cursor.jsonCopy (Cursor.nodes s1) (Cursor.edges s1)]
  /\ Cursor.history s2
     = firstn (S (Cursor.historyIndex s)) (Cursor.history s)
       ++ [Cursor.jsonCopy (Cursor.nodes s2) (Cursor.edges s2)]
  /\ Cursor.historyIndex s2 = length (Cursor.history s2)
  /\ map Cursor.jsonNode (Cursor.nodes (Cursor.undo s2))
     = map Cursor.jsonNode (Cursor.nodes s2)
  /\ Cursor.edges (Cursor.undo s2) = Cursor.edges s2
  /\ Cursor.historyIndex (Cursor.undo s2) = Cursor.historyIndex s1.
Proof.
  intros Hk Hl Hty s1 s2.
  assert (H1 : Cursor.history s1
               = firstn (S (Cursor.historyIndex s)) (Cursor.history s)
                 ++ [Cursor.jsonCopy (Cursor.nodes s1) (Cursor.edges s1)]
               /\ Cursor.historyIndex s1 = Cursor.historyIndex s + 1
               /\ Cursor.skipHistoryRef s1 = false
               /\ Cursor.edges s1 = Cursor.edges s).
  { subst s1. unfold Cursor.onDrop, Cursor.pushHistory. rewrite Hty.
    simpl. rewrite Hk. unfold Js.slice0. simpl.
    replace (Cursor.historyIndex s + 1) with (S (Cursor.historyIndex s))
      by lia.
    now repeat split. }
  destruct H1 as (h1 & i1 & k1 & e1).
  destruct (ClosureFacts.cl_label_recorded (Stored.closureOf s)
              (Cursor.id (Cursor.droppedNode ty ev)) value s1 k1)
    as (_ & e2 & h2 & i2 & _).
  fold s2 in e2, h2, i2.
  change (Stored.closed_historyIndex (Stored.closureOf s))
    with (Cursor.historyIndex s) in h2.
  change (Stored.closed_edges (Stored.closureOf s))
    with (Cursor.edges s) in h2.
  assert (Hh : Cursor.history s2
               = firstn (S (Cursor.historyIndex s)) (Cursor.history s)
                 ++ [Cursor.jsonCopy (Cursor.nodes s2) (Cursor.edges s2)]).
  { rewrite h2, h1, e2, e1.
    rewrite firstn_app, firstn_firstn, Nat.min_id, length_firstn.
    replace (S (Cursor.historyIndex s)
             - Nat.min (S (Cursor.historyIndex s))
                 (length (Cursor.history s))) with 0 by lia.
    simpl. now rewrite app_nil_r. }
  assert (Hn : Cursor.historyIndex s2 = length (Cursor.history s2)).
  { pose proof (f_equal (@length _) Hh) as Hb.
    rewrite length_app, length_firstn in Hb. cbn [length] in Hb. lia. }
  split; [exact h1|]. split; [exact Hh|]. split; [exact Hn|].
  rewrite (CursorFacts.cur_undo_at s2
             (Cursor.jsonCopy (Cursor.nodes s2) (Cursor.edges s2))).
  - cbn [Cursor.nodes Cursor.edges Cursor.historyIndex].
    unfold Cursor.jsonCopy. cbn [Cursor.entry_nodes Cursor.entry_edges].
    rewrite CursorFacts.cur_jsonNodes_withCallback,
      CursorFacts.cur_jsonNodes_idem, CursorFacts.cur_jsonEdges_same.
    split; [reflexivity|]. split; [reflexivity|lia].
  - lia.
  - unfold Js.at_. rewrite Hh at 1.
    rewrite nth_error_app2 by (rewrite length_firstn; lia).
    rewrite length_firstn.
    replace (Cursor.historyIndex s2 - 1
             - Nat.min (S (Cursor.historyIndex s))
                 (length (Cursor.history s))) with 0 by lia.
    reflexivity.
Qed.

Lemma label_edit_after_drop_replaces_the_drop_witness :
  let s := Cursor.init in
  let ev := Demo.dropAt 1 in
  let ty := Js.lit "rectangleNode" in
  let s1 := Cursor.onDrop ev s in
  let s2 := Stored.handleLabelChange (Stored.closureOf s)
              (Cursor.id (Cursor.droppedNode ty ev)) (Js.lit "Start") s1 in
  Cursor.skipHistoryRef s = false
  /\ Cursor.historyIndex s < length (Cursor.history s)
  /\ Cursor.droppedType ev = Some ty
  /\ length (Cursor.history s2) = 2
  /\ Cursor.history s1
     = firstn (S (Cursor.historyIndex s)) (Cursor.history s)
       ++ [Cursor.jsonCopy (Cursor.nodes s1) (Cursor.edges s1)]
  /\ Cursor.history s2
     = firstn (S (Cursor.historyIndex s)) (Cursor.history s)
       ++ [Cursor.jsonCopy (Cursor.nodes s2) (Cursor.edges s2)]
  /\ Cursor.historyIndex s2 = length (Cursor.history s2)
  /\ map Cursor.jsonNode (Cursor.nodes (Cursor.undo s2))
     = map Cursor.jsonNode (Cursor.nodes s2)
  /\ Cursor.edges (Cursor.undo s2) = Cursor.edges s2
  /\ Cursor.historyIndex (Cursor.undo s2) = Cursor.historyIndex s1.
Proof.
  intros s ev ty s1 s2.
  assert (Hk : Cursor.skipHistoryRef s = false) by reflexivity.
  assert (Hl : Cursor.historyIndex s < length (Cursor.history s))
    by exact (Nat.lt_0_succ 0).
  assert (Hty : Cursor.droppedType ev = Some ty) by reflexivity.
  exact (conj Hk
           (conj Hl
              (conj Hty
                 (conj eq_refl
                    (label_edit_after_drop_replaces_the_drop ev ty
                       (Js.lit "Start") s Hk Hl Hty))))).
Defined.

(** Once the cursor is more than one beyond the last entry, [undo] sets
    [skipHistoryRef], finds no entry before the cursor and ends on the
    [TypeError] before it has asked for the timer callback.  From then on
    no mutation, label edit, undo or redo changes the history, the
    cursor or the flag: nothing is recorded and nothing can be undone
    until a file is loaded. *)
Theorem undo_beyond_the_history_stops_recording
    (L : Cursor.ChangeLib) (es : list Stored.Event) (s : Cursor.State) :
  length (Cursor.history s) < Cursor.historyIndex s ->
  forallb Stored.noReset es = true ->
  let t := Stored.run es (Cursor.undo s) in
  Js.at_ (Cursor.history s) (Cursor.historyIndex s - 1) = None
  /\ Cursor.undo s = Cursor.setSkip true s
  /\ Cursor.history t = Cursor.history s
  /\ Cursor.historyIndex t = Cursor.historyIndex s
  /\ Cursor.skipHistoryRef t = true.
Proof.
  intros Hl Hall t.
  pose proof (StoredFacts.st_undo_outside s Hl) as Hu.
  split; [unfold Js.at_; apply nth_error_None; lia|].
  split; [exact Hu|].
  subst t. rewrite Hu.
  apply (ClosureFacts.cl_run_frozen es (Cursor.setSkip true s) Hall Hl
           eq_refl).
Qed.

Lemma undo_beyond_the_history_stops_recording_witness :
  let s := Examples.twoEdits in
  let t := Stored.run Examples.afterwards (Cursor.undo s) in
  length (Cursor.history s) < Cursor.historyIndex s
  /\ forallb Stored.noReset Examples.afterwards = true
  /\ length (Cursor.nodes t) = 2
  /\ Js.at_ (Cursor.history s) (Cursor.historyIndex s - 1) = None
  /\ Cursor.undo s = Cursor.setSkip true s
  /\ Cursor.history t = Cursor.history s
  /\ Cursor.historyIndex t = Cursor.historyIndex s
  /\ Cursor.skipHistoryRef t = true.
Proof.
  intros s t.
  assert (Hl : length (Cursor.history s) < Cursor.historyIndex s)
    by exact (Nat.lt_succ_diag_r 2).
  exact (conj Hl
           (conj eq_refl
              (conj eq_refl
                 (undo_beyond_the_history_stops_recording Demo.libC
                    Examples.afterwards s Hl eq_refl)))).
Defined.

(** Every node on the canvas holds the label callback, whatever happened
    before, provided the diagram library's [applyNodeChanges] returns no
    node without it when it was given none: after any run of events from
    the start, label edits through any stored callback included, the
    blur of the input of any node calls [data.onChangeLabel] with the id
    of the node and the trimmed text. *)
Theorem nodes_stay_editable
    (L : Cursor.ChangeLib) (es : list Stored.Event) :
  (forall cs ns, forallb Stored.editable ns = true ->
                 forallb Stored.editable (Cursor.applyNodeChanges cs ns)
                 = true) ->
  let s := Stored.run es Cursor.init in
  forallb Stored.editable (Cursor.nodes s) = true
  /\ (forall (n : Cursor.Node) (text : Js.jsstring),
        In n (Cursor.nodes s) ->
        BaseShapeNode.onChangeLabel_call
          (BaseShapeNode.handleBlur (ShapeNode.propsOf n) text)
        = Some (Cursor.id n, Js.trim text)).
Proof.
  intros Hlib s.
  assert (H : forallb Stored.editable (Cursor.nodes s) = true).
  { subst s. assert (H0 : forallb Stored.editable (Cursor.nodes Cursor.init)
                          = true) by reflexivity.
    revert H0. generalize Cursor.init.
    induction es as [|e es IH]; intros s H0; [exact H0|].
    change (Stored.run (e :: es) s) with (Stored.run es (Stored.handle e s)).
    apply IH. now apply ClosureFacts.cl_handle_editable. }
  split; [exact H|]. intros n text Hn.
  rewrite forallb_forall in H. specialize (H n Hn).
  unfold BaseShapeNode.handleBlur, BaseShapeNode.hasCallback. simpl.
  unfold Stored.editable in H. now rewrite H.
Qed.

Lemma nodes_stay_editable_witness :
  let s := Stored.run Examples.session Cursor.init in
  (forall cs ns, forallb Stored.editable ns = true ->
                 forallb Stored.editable
                   (@Cursor.applyNodeChanges Demo.libC cs ns) = true)
  /\ length (Cursor.nodes s) = 2
  /\ forallb Stored.editable (Cursor.nodes s) = true
  /\ (forall (n : Cursor.Node) (text : Js.jsstring),
        In n (Cursor.nodes s) ->
        BaseShapeNode.onChangeLabel_call
          (BaseShapeNode.handleBlur (ShapeNode.propsOf n) text)
        = Some (Cursor.id n, Js.trim text)).
Proof.
  intros s.
  exact (conj ClosureFacts.cl_demo_keeps_callbacks
           (conj eq_refl
              (nodes_stay_editable Demo.libC Examples.session
                 ClosureFacts.cl_demo_keeps_callbacks))).
Defined.

(** The nodes that [loadDiagram] makes hold the callback of the render
    that called it.  After a load, a label edit therefore records the
    relabelled nodes together with the edges of the diagram from before
    the load: the edges of the loaded diagram stay on the canvas, but an
    undo followed by a redo puts the old edges in their place. *)
Theorem label_edit_after_load_records_the_old_edges
    (s0 t : Cursor.State) (ns : list Cursor.Node) (es : list Cursor.Edge)
    (i value : Js.jsstring) :
  let s1 := Cursor.reenableHistory
              (Cursor.loadDiagram (Cursor.Parsed (Some ns) (Some es)) t) in
  let s2 := Stored.handleLabelChange (Stored.closureOf s0) i value s1 in
  Cursor.edges s2 = es
  /\ Cursor.history s2
     = [Cursor.jsonCopy (map Cursor.withCallback ns) es;
        Cursor.jsonCopy (Cursor.nodes s2) (Cursor.edges s0)]
  /\ Cursor.historyIndex s2 = 1
  /\ Cursor.edges (Cursor.redo (Cursor.undo s2)) = Cursor.edges s0
  /\ map Cursor.jsonNode (Cursor.nodes (Cursor.redo (Cursor.undo s2)))
     = map Cursor.jsonNode (Cursor.nodes s2).
Proof.
  intros s1 s2.
  destruct (ClosureFacts.cl_label_recorded (Stored.closureOf s0) i value s1
              eq_refl) as (_ & a & b & c & _).
  fold s2 in a, b, c.
  change (Stored.closed_edges (Stored.closureOf s0))
    with (Cursor.edges s0) in b.
  change (Cursor.history s1)
    with [Cursor.jsonCopy (map Cursor.withCallback ns) es] in b.
  rewrite firstn_all2 in b by (simpl; lia).
  change (Cursor.historyIndex s1 + 1) with 1 in c.
  split; [exact a|]. split; [exact b|]. split; [exact c|].
  rewrite (CursorFacts.cur_undo_at s2
             (Cursor.jsonCopy (map Cursor.withCallback ns) es));
    [|lia|now rewrite b, c].
  erewrite CursorFacts.cur_redo_at
    by (cbn [Cursor.history Cursor.historyIndex]; rewrite b, c; reflexivity).
  cbn [Cursor.nodes Cursor.edges]. unfold Cursor.jsonCopy.
  cbn [Cursor.entry_nodes Cursor.entry_edges].
  rewrite CursorFacts.cur_jsonNodes_withCallback,
    CursorFacts.cur_jsonNodes_idem, CursorFacts.cur_jsonEdges_same.
  split; reflexivity.
Qed.

(** The nodes that [undo] puts back hold the callback of the render from
    before the undo, whose cursor was one further.  A label edit after an
    undo therefore does not discard the undone entry: the edit appends
    its entry behind it, the cursor comes to stand on the undone entry,
    and redo is still possible; it shows the relabelled nodes with the
    edges from before the undo. *)
Theorem label_edit_after_undo_keeps_the_undone_entry
    (s : Cursor.State) (i value : Js.jsstring) :
  0 < Cursor.historyIndex s ->
  Cursor.historyIndex s < length (Cursor.history s) ->
  let s1 := Cursor.reenableHistory (Cursor.undo s) in
  let s2 := Stored.handleLabelChange (Stored.closureOf s) i value s1 in
  Cursor.historyIndex s2 = Cursor.historyIndex s
  /\ Js.at_ (Cursor.history s2) (Cursor.historyIndex s2)
     = Js.at_ (Cursor.history s) (Cursor.historyIndex s)
  /\ Cursor.redoStack s2
     = [Cursor.jsonCopy (Cursor.nodes s2) (Cursor.edges s)]
  /\ Cursor.edges (Cursor.redo s2) = Cursor.edges s
  /\ map Cursor.jsonNode (Cursor.nodes (Cursor.redo s2))
     = map Cursor.jsonNode (Cursor.nodes s2).
Proof.
  intros Hpos Hl s1 s2.
  destruct (CursorFacts.cur_at_some (Cursor.history s)
              (Cursor.historyIndex s - 1)) as [e He]; [lia|].
  assert (H1 : Cursor.history s1 = Cursor.history s
               /\ Cursor.historyIndex s1 = Cursor.historyIndex s - 1
               /\ Cursor.skipHistoryRef s1 = false).
  { subst s1. rewrite (CursorFacts.cur_undo_at s e Hpos He).
    now repeat split. }
  destruct H1 as (h1 & i1 & k1).
  destruct (ClosureFacts.cl_label_recorded (Stored.closureOf s) i value s1
              k1) as (_ & _ & b & c & _).
  fold s2 in b, c.
  change (Stored.closed_edges (Stored.closureOf s))
    with (Cursor.edges s) in b.
  change (Stored.closed_historyIndex (Stored.closureOf s))
    with (Cursor.historyIndex s) in b.
  rewrite h1 in b. rewrite i1 in c.
  assert (Hi : Cursor.historyIndex s2 = Cursor.historyIndex s) by lia.
  assert (Hf : length (firstn (S (Cursor.historyIndex s)) (Cursor.history s))
               = S (Cursor.historyIndex s))
    by (rewrite length_firstn; lia).
  assert (Hnext : Js.at_ (Cursor.history s2) (Cursor.historyIndex s2 + 1)
                  = Some (Cursor.jsonCopy (Cursor.nodes s2)
                            (Cursor.edges s))).
  { unfold Js.at_. rewrite b at 1.
    rewrite nth_error_app2 by lia.
    replace (Cursor.historyIndex s2 + 1
             - length (firstn (S (Cursor.historyIndex s))
                         (Cursor.history s))) with 0 by lia.
    reflexivity. }
  split; [exact Hi|]. split.
  - unfold Js.at_. rewrite b at 1. rewrite Hi.
    rewrite nth_error_app1 by lia.
    rewrite nth_error_firstn.
    destruct (Nat.ltb_spec (Cursor.historyIndex s)
                (S (Cursor.historyIndex s))); [reflexivity|lia].
  - split.
    + unfold Cursor.redoStack. rewrite b at 1. rewrite Hi.
      rewrite skipn_app, Hf, Nat.sub_diag, skipn_all2 by lia.
      reflexivity.
    + rewrite (CursorFacts.cur_redo_at s2 _ Hnext).
      cbn [Cursor.nodes Cursor.edges]. unfold Cursor.jsonCopy.
      cbn [Cursor.entry_nodes Cursor.entry_edges].
      rewrite CursorFacts.cur_jsonNodes_withCallback,
        CursorFacts.cur_jsonNodes_idem, CursorFacts.cur_jsonEdges_same.
      split; reflexivity.
Qed.

Lemma label_edit_after_undo_keeps_the_undone_entry_witness :
  let s := Cursor.run [Demo.drop_1; Demo.drop_2] Cursor.init in
  let s1 := Cursor.reenableHistory (Cursor.undo s) in
  let s2 := Stored.handleLabelChange (Stored.closureOf s) (Js.lit "node_1")
              (Js.lit "Start") s1 in
  0 < Cursor.historyIndex s
  /\ Cursor.historyIndex s < length (Cursor.history s)
  /\ length (Cursor.nodes s2) = 1
  /\ Cursor.historyIndex s2 = Cursor.historyIndex s
  /\ Js.at_ (Cursor.history s2) (Cursor.historyIndex s2)
     = Js.at_ (Cursor.history s) (Cursor.historyIndex s)
  /\ Cursor.redoStack s2
     = [Cursor.jsonCopy (Cursor.nodes s2) (Cursor.edges s)]
  /\ Cursor.edges (Cursor.redo s2) = Cursor.edges s
  /\ map Cursor.jsonNode (Cursor.nodes (Cursor.redo s2))
     = map Cursor.jsonNode (Cursor.nodes s2).
Proof.
  intros s s1 s2.
  assert (Hpos : 0 < Cursor.historyIndex s) by exact (Nat.lt_0_succ 1).
  assert (Hl : Cursor.historyIndex s < length (Cursor.history s))
    by exact (Nat.lt_succ_diag_r 2).
  exact (conj Hpos
           (conj Hl
              (conj eq_refl
                 (label_edit_after_undo_keeps_the_undone_entry s
                    (Js.lit "node_1") (Js.lit "Start") Hpos Hl)))).
Defined.

(* ------------------------------------------------------------------ *)
(** ** Files, labels on the canvas, exported bytes and node ids *)

Module ViewFacts.
Import Js JsFacts Cursor CursorFacts.

Lemma vw_firstn_succ {A} (a : list A) (n : nat) (v : A) :
  nth_error a n = Some v -> firstn (S n) a = firstn n a ++ [v].
Proof.
  revert n. induction a as [|x a IH]; intros [|n] H; simpl in *;
    try discriminate.
  - now inversion H.
  - f_equal. now apply IH.
Qed.

(** The loop of [exportAsDoc], started at [i] on an array whose first [i]
    elements are the first [i] character codes and whose other elements
    are holes, ends with the array of all the character codes. *)
Lemma vw_loop (s : jsstring) (k : nat) :
  forall (i fuel : nat),
    i + k = length s -> k < fuel ->
    ExportAsDoc.loop fuel i s
      (map ExportAsDoc.Num (firstn i s) ++ repeat ExportAsDoc.Empty k)
    = Some (map ExportAsDoc.Num s).
Proof.
  induction k as [|k IH]; intros i fuel Hi Hf.
  - destruct fuel as [|fuel]; [lia|]. simpl.
    destruct (Nat.ltb_spec i (length s)); [lia|].
    rewrite app_nil_r, firstn_all2 by lia. reflexivity.
  - destruct fuel as [|fuel]; [lia|]. simpl ExportAsDoc.loop.
    destruct (Nat.ltb_spec i (length s)); [|lia].
    destruct (nth_error s i) as [c|] eqn:E;
      [|apply nth_error_None in E; lia].
    assert (Hlen : length (map ExportAsDoc.Num (firstn i s)) = i)
      by (rewrite length_map, length_firstn; lia).
    unfold ExportAsDoc.assign, ExportAsDoc.charCodeAt. rewrite E.
    rewrite length_app. cbn [length]. rewrite repeat_length, Hlen.
    destruct (Nat.ltb_spec i (i + S k)); [|lia].
    rewrite firstn_app, Hlen, Nat.sub_diag, firstn_O, app_nil_r.
    rewrite firstn_all2 by lia.
    rewrite skipn_app, Hlen, skipn_all2 by lia.
    replace (S i - i) with 1 by lia. cbn [skipn app].
    replace (map ExportAsDoc.Num (firstn i s)
             ++ ExportAsDoc.Num c :: repeat ExportAsDoc.Empty k)
      with (map ExportAsDoc.Num (firstn (S i) s)
            ++ repeat ExportAsDoc.Empty k).
    + apply IH; lia.
    + rewrite (vw_firstn_succ s i c E), map_app, <- app_assoc. reflexivity.
Qed.

Lemma vw_lit_inj (a b : string) : lit a = lit b -> a = b.
Proof.
  unfold lit. intros H.
  rewrite <- (string_of_list_ascii_of_string a),
          <- (string_of_list_ascii_of_string b).
  f_equal. revert H.
  generalize (list_ascii_of_string a) (list_ascii_of_string b).
  intros l. induction l as [|x l IH]; intros [|y m] H; simpl in *;
    try discriminate; [reflexivity|].
  injection H as Hx Hl. f_equal; [|now apply IH].
  rewrite <- (ascii_N_embedding x), <- (ascii_N_embedding y). now f_equal.
Qed.

Lemma vw_to_int_proper (z : Z) :
  Z.to_int z <> Decimal.Pos Decimal.Nil
  /\ Z.to_int z <> Decimal.Neg Decimal.Nil.
Proof.
  destruct z as [|p|p]; simpl; split; try discriminate;
    intros H; injection H as H;
    now apply DecimalPos.Unsigned.to_uint_nonnil in H.
Qed.

Lemma vw_showNumber_inj (a b : Z) : showNumber a = showNumber b -> a = b.
Proof.
  unfold showNumber. intros H. apply vw_lit_inj in H.
  apply DecimalZ.to_int_inj.
  destruct (vw_to_int_proper a) as [a1 a2].
  destruct (vw_to_int_proper b) as [b1 b2].
  pose proof (NilZero.isi (Z.to_int a) a1 a2) as Ha.
  pose proof (NilZero.isi (Z.to_int b) b1 b2) as Hb.
  rewrite H in Ha. congruence.
Qed.

End ViewFacts.

(** A diagram that was saved loads back as it was: the nodes are the
    saved ones as JSON data, each with the label callback attached again,
    the edges are the saved ones; the history is the single copy of the
    loaded diagram, under the cursor, so that neither undo nor redo does
    anything; and saving again writes the same file. *)
Theorem saved_diagram_loads_back (s t : Cursor.State) :
  let r := Cursor.loadDiagram (Files.saveDiagram s) t in
  map Cursor.jsonNode (Cursor.nodes r) = map Cursor.jsonNode (Cursor.nodes s)
  /\ Cursor.edges r = Cursor.edges s
  /\ forallb Stored.editable (Cursor.nodes r) = true
  /\ Cursor.history r = [Cursor.jsonCopy (Cursor.nodes s) (Cursor.edges s)]
  /\ Cursor.historyIndex r = 0
  /\ Cursor.inSync r
  /\ Cursor.undo r = r
  /\ Cursor.redo r = r
  /\ Files.saveDiagram r = Files.saveDiagram s.
Proof.
  intros r. subst r. unfold Files.saveDiagram, Cursor.inSync. simpl.
  unfold Cursor.jsonCopy.
  rewrite !CursorFacts.cur_jsonNodes_withCallback,
    !CursorFacts.cur_jsonNodes_idem, !CursorFacts.cur_jsonEdges_same.
  split; [reflexivity|]. split; [reflexivity|].
  split; [apply ClosureFacts.cl_withCallback_editable|].
  repeat (split; [reflexivity|]). reflexivity.
Qed.

(** What is typed into the input of a node is what the node shows:
    Enter blurs the input, the label of the node becomes the trimmed
    text and editing ends; the node then shows that text, or
    "Double-click to edit" when nothing but white space was typed, and a
    double click opens the input on the trimmed text.  Any other key
    leaves the editor and the input as they are. *)
Theorem typed_label_is_shown
    (c : Stored.Closure) (s : Cursor.State) (k : nat) (n : Cursor.Node)
    (text : Js.jsstring) :
  Js.at_ (Cursor.nodes s) k = Some n ->
  Stored.editable n = true ->
  let r := ShapeNode.keyDown c (Js.lit "Enter") (ShapeNode.propsOf n) text
             true s in
  fst r = false
  /\ (exists n',
        Js.at_ (Cursor.nodes (snd r)) k = Some n'
        /\ Cursor.relabelled (Js.trim text) n n'
        /\ ShapeNode.render (fst r) (ShapeNode.propsOf n')
           = ShapeNode.Text
               match Js.trim text with
               | [] => Js.lit "Double-click to edit"
               | u :: v => u :: v
               end
        /\ ShapeNode.render (ShapeNode.handleDoubleClick (fst r))
             (ShapeNode.propsOf n')
           = ShapeNode.Input (Js.trim text))
  /\ (forall key : Js.jsstring,
        Js.streq key (Js.lit "Enter") = false ->
        ShapeNode.keyDown c key (ShapeNode.propsOf n) text true s
        = (true, s)).
Proof.
  intros Hk He r.
  assert (Hr : r = (false,
                    Stored.handleLabelChange c (Cursor.id n) (Js.trim text)
                      s)).
  { subst r. unfold ShapeNode.keyDown, ShapeNode.handleKeyDown.
    rewrite JsFacts.streq_refl.
    unfold BaseShapeNode.handleBlur, BaseShapeNode.hasCallback. simpl.
    unfold Stored.editable in He. now rewrite He. }
  rewrite Hr. cbn [fst snd]. split; [reflexivity|]. split.
  - exists (Cursor.withLabel (Js.trim text) n). split.
    + unfold Stored.handleLabelChange. cbn [Cursor.nodes Cursor.setNodes].
      unfold Js.at_ in *.
      rewrite (CursorFacts.cur_relabel_at _ _ _ _ _ Hk).
      now rewrite JsFacts.streq_refl.
    + split; [now repeat split|].
      unfold ShapeNode.render, ShapeNode.labelOr, ShapeNode.handleDoubleClick.
      simpl. destruct (Js.trim text); split; reflexivity.
  - intros key Hkey. unfold ShapeNode.keyDown, ShapeNode.handleKeyDown.
    now rewrite Hkey.
Qed.

Lemma typed_label_is_shown_witness :
  let s := Examples.afterDrop in
  let n := Cursor.droppedNode (Js.lit "rectangleNode") (Demo.dropAt 1) in
  let text := Js.lit "  Start " in
  let r := ShapeNode.keyDown Examples.firstClosure (Js.lit "Enter")
             (ShapeNode.propsOf n) text true s in
  Js.at_ (Cursor.nodes s) 0 = Some n
  /\ Stored.editable n = true
  /\ Js.trim text = Js.lit "Start"
  /\ fst r = false
  /\ (exists n',
        Js.at_ (Cursor.nodes (snd r)) 0 = Some n'
        /\ Cursor.relabelled (Js.trim text) n n'
        /\ ShapeNode.render (fst r) (ShapeNode.propsOf n')
           = ShapeNode.Text
               match Js.trim text with
               | [] => Js.lit "Double-click to edit"
               | u :: v => u :: v
               end
        /\ ShapeNode.render (ShapeNode.handleDoubleClick (fst r))
             (ShapeNode.propsOf n')
           = ShapeNode.Input (Js.trim text))
  /\ (forall key : Js.jsstring,
        Js.streq key (Js.lit "Enter") = false ->
        ShapeNode.keyDown Examples.firstClosure key (ShapeNode.propsOf n)
          text true s
        = (true, s)).
Proof.
  intros s n text r.
  exact (conj eq_refl
           (conj eq_refl
              (conj eq_refl
                 (typed_label_is_shown Examples.firstClosure s 0 n text
                    eq_refl eq_refl)))).
Defined.

(** The loop of [exportAsDoc] ends, has filled every element of
    [byteNumbers], and [byteArray] holds one byte for each character of
    [byteCharacters], in order: its character code modulo 256, which is
    the character code itself for the characters that [atob] returns. *)
Theorem exported_bytes_are_the_characters (byteCharacters : Js.jsstring) :
  ExportAsDoc.loop (S (length byteCharacters)) 0 byteCharacters
    (ExportAsDoc.newArray (length byteCharacters))
  = Some (map ExportAsDoc.Num byteCharacters)
  /\ ExportAsDoc.byteArray (S (length byteCharacters)) byteCharacters
     = Some (map (fun c => (c mod 256)%N) byteCharacters)
  /\ (Forall (fun c => (c < 256)%N) byteCharacters ->
      ExportAsDoc.byteArray (S (length byteCharacters)) byteCharacters
      = Some byteCharacters).
Proof.
  assert (H : ExportAsDoc.loop (S (length byteCharacters)) 0 byteCharacters
                (ExportAsDoc.newArray (length byteCharacters))
              = Some (map ExportAsDoc.Num byteCharacters)).
  { apply (ViewFacts.vw_loop byteCharacters (length byteCharacters) 0);
      lia. }
  assert (H' : ExportAsDoc.byteArray (S (length byteCharacters))
                 byteCharacters
               = Some (map (fun c => (c mod 256)%N) byteCharacters)).
  { unfold ExportAsDoc.byteArray. rewrite H. simpl.
    unfold ExportAsDoc.Uint8Array. now rewrite map_map. }
  split; [exact H|]. split; [exact H'|].
  intros Hb. rewrite H'. f_equal.
  rewrite <- (map_id byteCharacters) at 2. apply map_ext_in.
  intros c Hc. rewrite Forall_forall in Hb.
  apply N.mod_small, Hb, Hc.
Qed.

Lemma exported_bytes_are_the_characters_witness :
  Forall (fun c => (c < 256)%N) Examples.png
  /\ ExportAsDoc.byteArray (S (length Examples.png)) Examples.png
     = Some Examples.png.
Proof.
  assert (Hb : Forall (fun c => (c < 256)%N) Examples.png)
    by (repeat constructor).
  destruct (exported_bytes_are_the_characters Examples.png) as (_ & _ & C).
  exact (conj Hb (C Hb)).
Defined.

(** The id that [onDrop] gives a node is made of the clock alone: two
    dropped nodes have the same id exactly when [Date.now()] gave the
    same number at both drops, whatever their types and positions. *)
Theorem dropped_ids_follow_the_clock
    (ty1 ty2 : Js.jsstring) (ev1 ev2 : Cursor.DropEvent) :
  Cursor.id (Cursor.droppedNode ty1 ev1)
  = Cursor.id (Cursor.droppedNode ty2 ev2)
  <-> Cursor.drop_now ev1 = Cursor.drop_now ev2.
Proof.
  unfold Cursor.droppedNode. simpl. split; intros H.
  - apply ViewFacts.vw_showNumber_inj. now injection H.
  - now rewrite H.
Qed.

(* ------------------------------------------------------------------ *)
(** ** The development build *)

Module StrictFacts.
Import Js JsFacts Cursor CursorFacts.

Lemma sm_pushHistoryTwice (ns : list Node) (es : list Edge) (s : State) :
  skipHistoryRef s = false ->
  historyIndex s < length (history s) ->
  let t := StrictMode.pushHistoryTwice ns es s in
  nodes t = nodes s
  /\ edges t = edges s
  /\ history t = history (pushHistory ns es s)
  /\ historyIndex t = historyIndex s + 2
  /\ length (history t) = historyIndex s + 2
  /\ skipHistoryRef t = false.
Proof.
  intros Hk Hl t. subst t.
  unfold StrictMode.pushHistoryTwice, InNode.pushHistory, pushHistory.
  rewrite Hk. cbn [skipHistoryRef history historyIndex nodes edges].
  unfold slice0.
  assert (Hf : length (firstn (historyIndex s + 1) (history s))
               = historyIndex s + 1) by (rewrite length_firstn; lia).
  rewrite firstn_app, Hf, Nat.sub_diag, firstn_O, app_nil_r.
  rewrite firstn_firstn, Nat.min_id.
  rewrite length_app, Hf. cbn [length].
  repeat split; lia.
Qed.

End StrictFacts.

(** In the development build, where [React.StrictMode] makes React run
    the updater of [onNodesChange] and of [onEdgesChange] twice, a change
    that is recorded leaves the diagram and the history that one run
    leaves, but adds two to the cursor: from a cursor on an entry,
    [historyIndex] becomes [history.length], and no entry is under it. *)
Theorem strict_mode_doubles_the_cursor
    (L : Cursor.ChangeLib) (s : Cursor.State) :
  Cursor.skipHistoryRef s = false ->
  Cursor.historyIndex s < length (Cursor.history s) ->
  (forall changes : list Cursor.NodeChange,
      let once := Cursor.onNodesChange changes s in
      let s' := StrictMode.onNodesChange changes s in
      Cursor.nodes s' = Cursor.nodes once
      /\ Cursor.edges s' = Cursor.edges once
      /\ Cursor.history s' = Cursor.history once
      /\ Cursor.historyIndex once = Cursor.historyIndex s + 1
      /\ Cursor.historyIndex s' = Cursor.historyIndex s + 2
      /\ Cursor.historyIndex s' = length (Cursor.history s')
      /\ Js.at_ (Cursor.history s') (Cursor.historyIndex s') = None)
  /\ (forall changes : list Cursor.EdgeChange,
        let once := Cursor.onEdgesChange changes s in
        let s' := StrictMode.onEdgesChange changes s in
        Cursor.nodes s' = Cursor.nodes once
        /\ Cursor.edges s' = Cursor.edges once
        /\ Cursor.history s' = Cursor.history once
        /\ Cursor.historyIndex once = Cursor.historyIndex s + 1
        /\ Cursor.historyIndex s' = Cursor.historyIndex s + 2
        /\ Cursor.historyIndex s' = length (Cursor.history s')
        /\ Js.at_ (Cursor.history s') (Cursor.historyIndex s') = None).
Proof.
  intros Hk Hl. split; intros changes once s'.
  - destruct (StrictFacts.sm_pushHistoryTwice
                (Cursor.applyNodeChanges changes (Cursor.nodes s))
                (Cursor.edges s) s Hk Hl) as (a & b & c & d & e & _).
    destruct (CursorFacts.cur_pushHistory_recorded
                (Cursor.applyNodeChanges changes (Cursor.nodes s))
                (Cursor.edges s) s Hk) as (_ & b' & _ & d' & _).
    subst once s'.
    unfold StrictMode.onNodesChange, Cursor.onNodesChange.
    cbn [Cursor.nodes Cursor.edges Cursor.history Cursor.historyIndex
         Cursor.setNodes].
    rewrite b, d, e, c, b', d'.
    repeat (split; [reflexivity|]).
    unfold Js.at_. apply nth_error_None. rewrite <- c, e. lia.
  - destruct (StrictFacts.sm_pushHistoryTwice (Cursor.nodes s)
                (Cursor.applyEdgeChanges changes (Cursor.edges s))
                s Hk Hl) as (a & b & c & d & e & _).
    destruct (CursorFacts.cur_pushHistory_recorded (Cursor.nodes s)
                (Cursor.applyEdgeChanges changes (Cursor.edges s))
                s Hk) as (_ & b' & c' & _).
    subst once s'.
    unfold StrictMode.onEdgesChange, Cursor.onEdgesChange.
    cbn [Cursor.nodes Cursor.edges Cursor.history Cursor.historyIndex
         Cursor.setEdges].
    rewrite a, d, e, c, b', c'.
    repeat (split; [reflexivity|]).
    unfold Js.at_. apply nth_error_None. rewrite <- c, e. lia.
Qed.

Lemma strict_mode_doubles_the_cursor_witness :
  let s := Cursor.run [Demo.drop_1] Cursor.init in
  let s' := StrictMode.onNodesChange Examples.move s in
  Cursor.skipHistoryRef s = false
  /\ Cursor.historyIndex s < length (Cursor.history s)
  /\ Cursor.historyIndex s' = 3
  /\ length (Cursor.history s') = 3
  /\ Cursor.history s'
     = Cursor.history (Cursor.onNodesChange Examples.move s)
  /\ Js.at_ (Cursor.history s') (Cursor.historyIndex s') = None.
Proof.
  intros s s'.
  assert (Hk : Cursor.skipHistoryRef s = false) by reflexivity.
  assert (Hl : Cursor.historyIndex s < length (Cursor.history s))
    by exact (Nat.lt_succ_diag_r 1).
  destruct (strict_mode_doubles_the_cursor Demo.libC s Hk Hl) as [A _].
  destruct (A Examples.move) as (_ & _ & c & _ & _ & _ & g).
  exact (conj Hk (conj Hl (conj eq_refl (conj eq_refl (conj c g))))).
Defined.
